(** * TerminalTube: a shallow embedding of the renderers, the geometry
    calculator, the capability probe and the video frame loop.

    The first part is the embedding: each definition transcribes one Go
    function of the repository, named in its doc comment; beside them stand
    the notions the specification words (its formulas, the reading side of
    the run-length encoding), against which the code is compared.  The
    second part states and proves the properties.

    Conventions.
    - Go's [int] (64 bits on the supported platforms) and [uint8] are values
      of [Z]; where the source arithmetic can leave the type's range the
      wrap-around is written out ([Go.int], [Go.uint8]).
    - Go's [float64] is Rocq's primitive binary64 float: the same IEEE 754
      operations with round-to-nearest-even, every operation rounded on its
      own (no fused multiply-add, as the compiler emits on amd64).
    - A conversion [int(f)] or [uint8(f)] of a float truncates toward zero; on
      NaN, an infinity or a value outside the integer range Go leaves the
      result to the implementation, and the model takes the amd64 result
      (the "integer indefinite" value [-2^63]). *)

From Stdlib Require Import ZArith List Lia Bool String Ascii.
From Stdlib Require Import Floats.
From Stdlib Require Rbase Rfunctions Lra.
Import ListNotations.

Open Scope Z_scope.

(* ================================================================== *)
(** * Part I: the embedding *)
(* ================================================================== *)

(** ** Go's numeric types *)

Module Go.

(** [uint8(x)], and the result of every [uint8] operation: the value
    modulo 2^8. *)
Definition uint8 (z : Z) : Z := z mod 256.

(** The result of an [int] operation: two's complement on 64 bits. *)
Definition int (z : Z) : Z := (z + 2 ^ 63) mod 2 ^ 64 - 2 ^ 63.

Definition min_int : Z := - 2 ^ 63.
Definition max_int : Z := 2 ^ 63 - 1.

(** [uint(z)] for an [int]: the value modulo 2^64. *)
Definition uint (z : Z) : Z := z mod 2 ^ 64.

(** [a / b] on integers truncates toward zero. *)
Definition div (a b : Z) : Z := Z.quot a b.

(** [float64(n)] for an integer [n]: the nearest binary64 value. *)
Definition float64 (n : Z) : float :=
  SF2Prim (binary_normalize prec emax n 0 false).

(** The integer part of a finite float, fraction discarded. *)
Definition truncate (f : float) : option Z :=
  match Prim2SF f with
  | S754_zero _ => Some 0
  | S754_finite s m e =>
      let mag := match e with
                 | Zneg p => Z.shiftr (Zpos m) (Zpos p)
                 | _ => Z.shiftl (Zpos m) e
                 end in
      Some (if s then - mag else mag)
  | S754_infinity _ => None
  | S754_nan => None
  end.

(** [int(f)] for a float [f]. *)
Definition int_of_float64 (f : float) : Z :=
  match truncate f with
  | Some z => if (min_int <=? z) && (z <=? max_int) then z else min_int
  | None => min_int
  end.

(** [uint8(f)] for a float [f]: the conversion to a machine integer, of
    which the low byte is kept. *)
Definition uint8_of_float64 (f : float) : Z := uint8 (int_of_float64 f).

(** The 256 values of a [uint8]. *)
Definition bytes : list Z := map Z.of_nat (seq 0 256).

End Go.

(** ** Binary64 values as real numbers *)

Module Binary64.
Import Rbase Rfunctions.

(** The real number that a binary64 value stands for (0 for the values
    that are not finite). *)
Definition valueSF (f : spec_float) : R :=
  match f with
  | S754_finite s m e =>
      ((if s then - IZR (Z.pos m) else IZR (Z.pos m)) * powerRZ 2 e)%R
  | _ => 0%R
  end.

Definition value (f : float) : R := valueSF (Prim2SF f).






End Binary64.

(** ** Go's images *)

Module GoImage.

(** A colour as [color.Color.RGBA()] returns it: red, green and blue on 16
    bits (the alpha channel is not read by the renderers). *)
Definition color16 : Type := Z * Z * Z.

(** An [image.Image]: its bounds and the colour at each point. *)
Record image := mkImage {
  minX : Z;
  minY : Z;
  Dx : Z;        (* [Bounds().Dx()] *)
  Dy : Z;        (* [Bounds().Dy()] *)
  At : Z -> Z -> color16
}.

(** [uint8(v >> 8)] of a channel, as every renderer narrows it. *)
Definition high8 (v : Z) : Z := Go.uint8 (Z.shiftr v 8).

End GoImage.

(** ** The indexed-block (ASCII) renderer: internal/renderer (ASCIIRenderer) *)

Module ASCIIRenderer.

(** [adjustPixel]: brightness and contrast of one channel. *)
Definition adjustPixel (value : Z) (brightness contrast : float) : Z :=
  (* Apply brightness (additive) *)
  let adjusted := (Go.float64 value + brightness * 255)%float in
  (* Apply contrast (multiplicative around midpoint) *)
  let adjusted := (((adjusted / 255 - 0.5) * contrast + 0.5) * 255)%float in
  (* Clamp to valid range *)
  let adjusted :=
    if (adjusted <? 0)%float then 0%float
    else if (255 <? adjusted)%float then 255%float
    else adjusted in
  Go.uint8_of_float64 adjusted.

(** The expression [(c*5 + 127) / 255] of [rgbToAnsi256], on [uint8]
    operands: the product and the sum are [uint8] results. *)
Definition cubeLevel (c : Z) : Z :=
  Go.div (Go.uint8 (Go.uint8 (c * 5) + 127)) 255.

(** [rgbToAnsi256]: the ANSI 256-colour code of an RGB triple of [uint8]s. *)
Definition rgbToAnsi256 (red green blue : Z) : Z :=
  if (red =? green) && (green =? blue) then
    if red <? 8 then 16
    else if 248 <? red then 231
    else 232 + Go.div (Go.uint8 (Go.uint8 (red - 8) * 23)) 240
  else
    let r6 := cubeLevel red in
    let g6 := cubeLevel green in
    let b6 := cubeLevel blue in
    let r6 := if 5 <? r6 then 5 else r6 in
    let g6 := if 5 <? g6 then 5 else g6 in
    let b6 := if 5 <? b6 then 5 else b6 in
    16 + (36 * r6) + (6 * g6) + b6.

(** The glyph chosen in [renderColorASCII] from the mean of the channels. *)
Inductive glyph := FullBlock | DarkShade | MediumShade | LightShade.

(** The body of the pixel loop of [renderColorASCII]: from the 8-bit
    channels of a pixel to the colour code and the glyph that are printed as
    [ESC[38;5;<code>m<glyph>ESC[0m]. *)
Definition renderColorCell (r8 g8 b8 : Z) (brightness contrast : float)
  : Z * glyph :=
  let r8 := adjustPixel r8 brightness contrast in
  let g8 := adjustPixel g8 brightness contrast in
  let b8 := adjustPixel b8 brightness contrast in
  let ansiColor := rgbToAnsi256 r8 g8 b8 in
  let brightness := Go.div (r8 + g8 + b8) 3 in
  let char :=
    if brightness <? 64 then FullBlock
    else if brightness <? 128 then DarkShade
    else if brightness <? 192 then MediumShade
    else LightShade in
  (ansiColor, char).

(** The colour cube as the specification words it: each channel on the
    integers, [(c*5 + 127) / 255], at most 5. *)
Definition cubeLevel_spec (c : Z) : Z := Z.min 5 ((c * 5 + 127) / 255).

Definition cubeIndex_spec (r g b : Z) : Z :=
  16 + 36 * cubeLevel_spec r + 6 * cubeLevel_spec g + cubeLevel_spec b.

(** The channel adjustment as the specification words it: contrast around
    mid-grey first, the brightness term added afterwards, then the clamp. *)
Definition clamp255 (x : float) : float :=
  if (x <? 0)%float then 0%float
  else if (255 <? x)%float then 255%float
  else x.

Definition contrastAroundMid (x contrast : float) : float :=
  (((x / 255 - 0.5) * contrast + 0.5) * 255)%float.

Definition adjust_contrast_then_brightness
  (value : Z) (brightness contrast : float) : Z :=
  Go.uint8_of_float64
    (clamp255 (contrastAroundMid (Go.float64 value) contrast
               + brightness * 255)%float).

(** The order the code has: brightness first, contrast on the brightened
    value, then the clamp. *)
Definition adjust_brightness_then_contrast
  (value : Z) (brightness contrast : float) : Z :=
  Go.uint8_of_float64
    (clamp255
       (contrastAroundMid (Go.float64 value + brightness * 255)%float contrast)).

(** *** The grayscale mode *)

(** The ramp that [NewASCIIRenderer] sets, darkest first. *)
Definition grayRamp : string := " .:-=+*#%@".

(** The byte of a string at an index; Go panics outside the string. *)
Definition byteAt (s : string) (i : Z) : option ascii :=
  if i <? 0 then None else String.get (Z.to_nat i) s.

(** The ramp index that [renderGrayASCII] computes from the adjusted
    luminance, with its clamp. *)
Definition grayCharIndex (adjusted : Z) : Z :=
  let len := Z.of_nat (String.length grayRamp) in
  let charIndex :=
    Go.int_of_float64
      (Go.float64 adjusted / 255 * Go.float64 (len - 1))%float in
  if len <=? charIndex then len - 1 else charIndex.

(** The body of the pixel loop of [renderGrayASCII], from the luminance
    [gray.Y] of the pixel to the character written. *)
Definition renderGrayCell (y : Z) (brightness contrast : float)
  : option ascii :=
  let adjusted := adjustPixel y brightness contrast in
  byteAt grayRamp (grayCharIndex adjusted).

End ASCIIRenderer.


(** ** The bitmap (SIXEL) renderer: internal/renderer (SixelRenderer) *)

Module SixelRenderer.

(** The loop of [sqrt]: [n] rounds of [z = (z + x/z) / 2]. *)
Fixpoint newton (n : nat) (x z : float) : float :=
  match n with
  | O => z
  | S n' => newton n' x ((z + x / z) / 2)%float
  end.

(** [sqrt]: the square root by ten Newton-Raphson rounds from [z = x]. *)
Definition sqrt (x : float) : float :=
  if (x <=? 0)%float then 0%float else newton 10 x x.

(** [int(sqrt(c/255.0) * scale)] for a channel [c], as [colorToPalette]
    computes each of its three levels before the clamp. *)
Definition level (c : Z) (scale : float) : Z :=
  let norm := (Go.float64 c / 255)%float in
  Go.int_of_float64 (sqrt norm * scale)%float.

(** The scale constants 7.99 and 3.99 of [colorToPalette], as the binary64
    values nearest to them. *)
Definition scale8 : float := 0x1.ff5c28f5c28f6p+2.
Definition scale4 : float := 0x1.feb851eb851ecp+1.

(** [colorToPalette]: the 8-8-4 palette index of an RGB triple. *)
Definition colorToPalette (r g b : Z) : Z :=
  let rLevel := level r scale8 in
  let gLevel := level g scale8 in
  let bLevel := level b scale4 in
  let rLevel := if 7 <? rLevel then 7 else rLevel in
  let gLevel := if 7 <? gLevel then 7 else gLevel in
  let bLevel := if 3 <? bLevel then 3 else bLevel in
  Go.uint8 (rLevel * 32 + gLevel * 4 + bLevel).

(** A [strings.Builder] is the list of the bytes written so far. *)
Definition builder := list Z.

(** The digits of [n] in base ten, most significant first; [fuel] bounds the
    number of digits. *)
Fixpoint digits (fuel : nat) (n : Z) : list Z :=
  match fuel with
  | O => []
  | S fuel' =>
      if n / 10 =? 0 then [48 + n mod 10]
      else digits fuel' (n / 10) ++ [48 + n mod 10]
  end.

(** [fmt.Sprintf("%d", n)]: a minus sign for a negative number, then the
    digits.  A number below [2^k] has at most [k] digits. *)
Definition formatInt (n : Z) : list Z :=
  if n <? 0 then 45 :: digits (S (Z.to_nat (Z.log2 (- n)))) (- n)
  else digits (S (Z.to_nat (Z.log2 n))) n.

(** [fmt.Sprintf("%c", char)] for a byte: the UTF-8 encoding of the code
    point, one byte below 128 and two bytes from 128 on. *)
Definition formatChar (char : Z) : list Z :=
  if char <? 128 then [char]
  else [Z.lor 192 (Z.shiftr char 6); Z.lor 128 (Z.land char 63)].

(** [writeRLE]: one run on the builder. *)
Definition writeRLE (sb : builder) (char : Z) (count : Z) : builder :=
  if count =? 0 then sb
  else if 3 <? count then sb ++ 33 :: formatInt count ++ formatChar char
  else sb ++ repeat char (Z.to_nat count).

(** The six-bit column value that [encodeSixel] builds at column [x] of the
    band starting at row [y6], for the colour [colorIdx].  [Render] hands
    over a buffer of [width * height] entries, so every index read here is
    inside it. *)
Definition sixelBits (pixels : list Z) (width height y6 colorIdx x : Z) : Z :=
  fold_left
    (fun sixel dy =>
       if y6 + dy <? height then
         if nth (Z.to_nat ((y6 + dy) * width + x)) pixels 0 =? Go.uint8 colorIdx
         then Go.uint8 (Z.lor sixel (Go.uint8 (Z.shiftl 1 dy)))
         else sixel
       else sixel)
    [0; 1; 2; 3; 4; 5] 0.

(** [sixelChar := byte(63 + sixel)]. *)
Definition sixelChar (pixels : list Z) (width height y6 colorIdx x : Z) : Z :=
  Go.uint8 (63 + sixelBits pixels width height y6 colorIdx x).

(** The state of the run-length loop: the builder, [repeatedSixel] and
    [sixelReps]. *)
Definition rleState : Type := builder * Z * Z.

(** One round of the column loop, once the column's character is known. *)
Definition rleStep (st : rleState) (sixelChar : Z) : rleState :=
  let '(sb, repeatedSixel, sixelReps) := st in
  if sixelChar =? repeatedSixel then (sb, repeatedSixel, sixelReps + 1)
  else (writeRLE sb repeatedSixel sixelReps, sixelChar, 1).

(** The run-length loop over a sequence of sixel characters, from the
    state [repeatedSixel = 63], [sixelReps = 0], with the final run written
    after the loop. *)
Definition encodeRuns (sb : builder) (chars : list Z) : builder :=
  let '(sb, repeatedSixel, sixelReps) := fold_left rleStep chars (sb, 63, 0) in
  writeRLE sb repeatedSixel sixelReps.

(** The columns [0 .. width-1]. *)
Definition columns (width : Z) : list Z :=
  map Z.of_nat (seq 0 (Z.to_nat width)).

(** The sixel characters of one colour pass, column by column. *)
Definition passSixels (pixels : list Z) (width height y6 colorIdx : Z) : list Z :=
  map (sixelChar pixels width height y6 colorIdx) (columns width).

(** The sixel data that one colour pass of [encodeSixel] appends to the
    builder, between the colour selector [#<colorIdx>] and the [$]: the
    loop over the columns, each round building the column's character and
    taking one run-length step, and the final run. *)
Definition colorPass (sb : builder) (pixels : list Z)
  (width height y6 colorIdx : Z) : builder :=
  let '(sb, repeatedSixel, sixelReps) :=
    fold_left
      (fun st x => rleStep st (sixelChar pixels width height y6 colorIdx x))
      (columns width) (sb, 63, 0) in
  writeRLE sb repeatedSixel sixelReps.

(** *** The reading side, from the specification *)

Definition isDigit (c : Z) : bool := (48 <=? c) && (c <=? 57).

(** Decoding of sixel data: [!<count><char>] stands for [count] copies of
    [char], any other character for itself.  [pending] is the count read
    so far after a [!]. *)
Fixpoint decodeFrom (pending : option Z) (s : list Z) : option (list Z) :=
  match s with
  | [] => match pending with None => Some [] | Some _ => None end
  | c :: rest =>
      match pending with
      | None =>
          if c =? 33 then decodeFrom (Some 0) rest
          else option_map (cons c) (decodeFrom None rest)
      | Some n =>
          if isDigit c then decodeFrom (Some (10 * n + (c - 48))) rest
          else option_map (app (repeat c (Z.to_nat n))) (decodeFrom None rest)
      end
  end.

Definition decodeRLE (s : list Z) : option (list Z) := decodeFrom None s.

(** The maximal runs of a sequence: each a character and its length. *)
Definition joinRun (c : Z) (n : Z) (rs : list (Z * Z)) : list (Z * Z) :=
  match rs with
  | (c', m) :: rs' => if c =? c' then (c, n + m) :: rs' else (c, n) :: rs
  | [] => [(c, n)]
  end.

Fixpoint runs (l : list Z) : list (Z * Z) :=
  match l with
  | [] => []
  | c :: l' => joinRun c 1 (runs l')
  end.

(** The characters a run stands for. *)
Definition expandRun (run : Z * Z) : list Z :=
  repeat (fst run) (Z.to_nat (snd run)).

(** What the specification says is emitted for one run: [!<count><char>]
    from four on, the character itself [count] times below. *)
Definition emitRun (run : Z * Z) : list Z :=
  let '(c, n) := run in
  if 4 <=? n then 33 :: formatInt n ++ [c] else repeat c (Z.to_nat n).

(** *** Auxiliary notions for the properties *)

(** A sixel character: [?] (63) to [~] (126). *)
Definition isSixel (c : Z) : Prop := 63 <= c <= 126.

(** The number a digit string denotes, read after the value [acc]. *)
Definition readInt (acc : Z) (ds : list Z) : Z :=
  fold_left (fun a d => 10 * a + (d - 48)) ds acc.

(** The loop as a recursion on the characters still to come, from the
    current run [(c, n)]. *)
Fixpoint encodeFrom (c n : Z) (chars : list Z) : list Z :=
  match chars with
  | [] => emitRun (c, n)
  | x :: chars' =>
      if x =? c then encodeFrom c (n + 1) chars'
      else emitRun (c, n) ++ encodeFrom x 1 chars'
  end.

(** A run of positive length whose character satisfies [P]. *)
Definition goodRun (P : Z -> Prop) (run : Z * Z) : Prop :=
  P (fst run) /\ 1 <= snd run.

(** Neighbouring runs have different characters: no run can be extended. *)
Fixpoint distinctNeighbours (rs : list (Z * Z)) : Prop :=
  match rs with
  | (c, _) :: (((c', _) :: _) as rs') => c <> c' /\ distinctNeighbours rs'
  | _ => True
  end.

(** The clamp of [colorToPalette]: a level above [top] becomes [top]. *)
Definition clampLevel (top l : Z) : Z := if top <? l then top else l.

(** *** The palette *)

(** [gammaCorrect]: the percentage of a palette level. *)
Definition gammaCorrect (level maxLevel : Z) : Z :=
  let normalized := (Go.float64 level / Go.float64 maxLevel)%float in
  let corrected := (normalized * normalized)%float in
  Go.int_of_float64 (corrected * 100)%float.

(** The registers that the three nested loops of [generatePalette] define,
    in the order of the loops: the index and the three percentages. *)
Definition paletteEntries : list (Z * Z * Z * Z) :=
  flat_map
    (fun rLevel =>
       flat_map
         (fun gLevel =>
            map
              (fun bLevel =>
                 let idx := rLevel * 32 + gLevel * 4 + bLevel in
                 let rPct := gammaCorrect rLevel 7 in
                 let gPct := gammaCorrect gLevel 7 in
                 let bPct := gammaCorrect bLevel 3 in
                 (idx, rPct, gPct, bPct))
              (columns 4))
         (columns 8))
    (columns 8).

(** [fmt.Sprintf("#%d;2;%d;%d;%d", idx, rPct, gPct, bPct)]. *)
Definition formatEntry (entry : Z * Z * Z * Z) : list Z :=
  let '(idx, rPct, gPct, bPct) := entry in
  35 :: formatInt idx ++ [59; 50; 59] ++ formatInt rPct
     ++ [59] ++ formatInt gPct ++ [59] ++ formatInt bPct.

(** [generatePalette]: the palette definition of the SIXEL stream. *)
Definition generatePalette : list Z := flat_map formatEntry paletteEntries.

(** *** From the image to the stream *)

(** The pixel buffer that [Render] hands to [encodeSixel] for an image
    (after the resize of an oversized one): [height6] rows of [width] palette
    indices, the rows from [height] on filled with index 0. *)
Definition height6 (height : Z) : Z := Go.div (height + 5) 6 * 6.

Definition renderPixels (img : GoImage.image) : list Z :=
  let width := GoImage.Dx img in
  let height := GoImage.Dy img in
  flat_map
    (fun y =>
       map (fun x =>
              if y <? height then
                let '(rv, gv, bv) :=
                  GoImage.At img (GoImage.minX img + x) (GoImage.minY img + y) in
                colorToPalette (GoImage.high8 rv) (GoImage.high8 gv)
                  (GoImage.high8 bv)
              else 0)
           (columns width))
    (columns (height6 height)).

(** The entry of [usedColors] for a colour after the scan of the band
    starting at row [y6]: some pixel of the band has the colour. *)
Definition usedInBand (pixels : list Z) (width height y6 c : Z) : bool :=
  existsb
    (fun dy =>
       (y6 + dy <? height)
       && existsb
            (fun x => nth (Z.to_nat ((y6 + dy) * width + x)) pixels 0 =? c)
            (columns width))
    [0; 1; 2; 3; 4; 5].

(** One band of [encodeSixel]: for each colour used in the band, in
    ascending order, the selector [#<colorIdx>], the sixel data and [$];
    then [-]. *)
Definition encodeBand (sb : builder) (pixels : list Z)
  (width height y6 : Z) : builder :=
  let sb :=
    fold_left
      (fun sb colorIdx =>
         if usedInBand pixels width height y6 colorIdx then
           let sb := sb ++ 35 :: formatInt colorIdx in
           let sb := colorPass sb pixels width height y6 colorIdx in
           sb ++ [36]
         else sb)
      (columns 256) sb in
  sb ++ [45].

(** The values of [y6] in [for y6 := 0; y6 < height; y6 += 6]. *)
Definition bandStarts (height : Z) : list Z :=
  map (fun k => 6 * k) (columns ((height + 5) / 6)).

(** The header [ESC P 7;1;q] and the terminator [ESC \]. *)
Definition sixelHeader : list Z := [27; 80; 55; 59; 49; 59; 113].
Definition sixelTerminator : list Z := [27; 92].

(** An index inside the buffer; a read at any other index panics. *)
Definition inBuffer (pixels : list Z) (i : Z) : bool :=
  (0 <=? i) && (i <? Z.of_nat (List.length pixels)).

(** The reads of the band scans, [pixels[rowOff+x]] with
    [rowOff := (y6 + dy) * width] for every row below [height] and every
    column below [width], are all inside the buffer. *)
Definition readsInBuffer (pixels : list Z) (width height : Z) : bool :=
  forallb
    (fun y =>
       forallb (fun x => inBuffer pixels (Go.int (Go.int (y * width) + x)))
         (columns width))
    (columns height).

(** [encodeSixel]: header, palette, bands, terminator.  There is no
    result when the function panics: [sb.Grow] on a negative count, or a
    read outside the buffer. *)
Definition encodeSixel (palette : list Z) (pixels : list Z)
  (width height : Z) : option builder :=
  if Go.div (Go.int (width * height)) 2 <? 0 then None
  else if negb (readsInBuffer pixels width height) then None
  else
    let sb := sixelHeader ++ palette in
    let sb :=
      fold_left (fun sb y6 => encodeBand sb pixels width height y6)
        (bandStarts height) sb in
    Some (sb ++ sixelTerminator).

(** *** [Render] *)

(** [resize.Resize(width, height, img, resize.Bilinear)] of the package
    github.com/nfnt/resize, which the repository imports: a parameter of
    [Render]. *)
Definition resizer : Type := Z -> Z -> GoImage.image -> GoImage.image.

Definition maxPixels : Z := 1200 * 800.

(** The image that [Render] quantises: its input, or, for an input of more
    than [maxPixels] pixels, the input resized to [options.Width * 8] by
    [options.Height * 16]. *)
Definition renderImage (resize : resizer) (img : GoImage.image)
  (optWidth optHeight : Z) : GoImage.image :=
  if maxPixels <? Go.int (GoImage.Dx img * GoImage.Dy img) then
    let targetWidth := Go.int (optWidth * 8) in
    let targetHeight := Go.int (optHeight * 16) in
    resize (Go.uint targetWidth) (Go.uint targetHeight) img
  else img.

(** What a call does: it returns its result, returns an error, or
    panics. *)
Inductive outcome (A : Type) : Type :=
| Returns (a : A)
| Fails
| Panics.
Arguments Returns {A} a.
Arguments Fails {A}.
Arguments Panics {A}.

(** [Render]: an error before [Initialize]; otherwise the resize of an
    oversized image, the pixel buffer and [encodeSixel].  [make] panics on
    a negative length. *)
Definition Render (initialized : bool) (palette : list Z) (resize : resizer)
  (img : GoImage.image) (optWidth optHeight : Z) : outcome builder :=
  if negb initialized then Fails
  else
    let img := renderImage resize img optWidth optHeight in
    let width := GoImage.Dx img in
    let height := GoImage.Dy img in
    if Go.int (width * height6 height) <? 0 then Panics
    else
      match encodeSixel palette (renderPixels img) width (height6 height) with
      | Some stream => Returns stream
      | None => Panics
      end.

(** A printable ASCII byte, [!] (33) to [~] (126). *)
Definition printable (b : Z) : Prop := 33 <= b <= 126.

(** The palette register at a position of the palette definition, and the
    colour (three percentages) of a register. *)
Definition registerAt (idx : Z) : Z * Z * Z * Z :=
  nth (Z.to_nat idx) paletteEntries (0, 0, 0, 0).

Definition entryColor (entry : Z * Z * Z * Z) : Z * Z * Z :=
  let '(_, rPct, gPct, bPct) := entry in (rPct, gPct, bPct).

Definition sameEntry (a b : Z * Z * Z * Z) : bool :=
  let '(i, r, g, b') := a in
  let '(j, r', g', b'') := b in
  (i =? j) && (r =? r') && (g =? g') && (b' =? b'').

Definition sameColor (a b : Z * Z * Z) : bool :=
  let '(r, g, b') := a in
  let '(r', g', b'') := b in
  (r =? r') && (g =? g') && (b' =? b'').

(** The condition under which [encodeSixel] sets bit [k] of a column: the
    row is inside the buffer and its pixel has the colour. *)
Definition pixelHasColor (pixels : list Z) (width height y6 colorIdx x k : Z)
  : bool :=
  (y6 + k <? height)
  && (nth (Z.to_nat ((y6 + k) * width + x)) pixels 0 =? Go.uint8 colorIdx).

End SixelRenderer.

(** ** The half-block renderer: internal/renderer/unicode.go (UnicodeRenderer) *)

Module UnicodeRenderer.
Import SixelRenderer.

(** [colorToRGB]: the three channels of a colour, narrowed to 8 bits. *)
Definition colorToRGB (c : GoImage.color16) : Z * Z * Z :=
  let '(red, green, blue) := c in
  (GoImage.high8 red, GoImage.high8 green, GoImage.high8 blue).

(** [ESC[38;2;r;g;bm ESC[48;2;r;g;bm] and the upper half block (U+2580, in
    UTF-8): what [fmt.Sprintf] writes for one cell. *)
Definition cellBytes (top bottom : Z * Z * Z) : list Z :=
  let '(topR, topG, topB) := top in
  let '(bottomR, bottomG, bottomB) := bottom in
  [27; 91; 51; 56; 59; 50; 59] ++ formatInt topR ++ [59] ++ formatInt topG
    ++ [59] ++ formatInt topB ++ [109]
    ++ [27; 91; 52; 56; 59; 50; 59] ++ formatInt bottomR ++ [59]
    ++ formatInt bottomG ++ [59] ++ formatInt bottomB ++ [109]
    ++ [226; 150; 128].

(** The top and bottom colour of the cell at column [x] of the pair of
    rows starting at [y]; below the last row the bottom is black. *)
Definition cellColors (img : GoImage.image) (x y : Z)
  : (Z * Z * Z) * (Z * Z * Z) :=
  let maxY := GoImage.minY img + GoImage.Dy img in
  let topColor := GoImage.At img x y in
  let bottomColor :=
    if y + 1 <? maxY then GoImage.At img x (y + 1) else (0, 0, 0) in
  (colorToRGB topColor, colorToRGB bottomColor).

(** One round of the row loop: the cells of the columns, then
    [ESC[0m] and a line feed. *)
Definition renderRow (img : GoImage.image) (y : Z) : list Z :=
  flat_map
    (fun k =>
       let '(top, bottom) := cellColors img (GoImage.minX img + k) y in
       cellBytes top bottom)
    (columns (GoImage.Dx img))
  ++ [27; 91; 48; 109; 10].

(** The row loop [for y := Min.Y; y < Max.Y; y += 2]; [fuel] bounds the
    number of rounds. *)
Fixpoint rowsFrom (fuel : nat) (img : GoImage.image) (y : Z) : list Z :=
  match fuel with
  | O => []
  | S fuel' =>
      if y <? GoImage.minY img + GoImage.Dy img
      then renderRow img y ++ rowsFrom fuel' img (y + 2)
      else []
  end.

(** [renderTrueColorUnicode]; the loop has at most [Dy] rounds. *)
Definition renderTrueColorUnicode (img : GoImage.image) : list Z :=
  rowsFrom (Z.to_nat (GoImage.Dy img)) img (GoImage.minY img).

(** The number of line feeds in a byte string. *)
Definition lineFeeds (out : list Z) : nat := count_occ Z.eq_dec out 10.

End UnicodeRenderer.

(** ** The image-sequence decoder: package decoder (GIFDecoder) *)

Module GIFDecoder.
Import SixelRenderer.

(** What the decoder keeps of a loaded GIF: the number of images and the
    delays, in hundredths of a second. *)
Record GIF := mkGIF {
  imageCount : Z;      (* [len(currentGIF.Image)] *)
  Delay : list Z
}.

(** The timestamp loop of [GetFrame]: the delays of the frames before
    [frameIndex], added up in seconds. *)
Definition timestampOf (g : GIF) (frameIndex : Z) : float :=
  fold_left
    (fun timestamp i =>
       if i <? Z.of_nat (List.length (Delay g))
       then (timestamp + Go.float64 (nth (Z.to_nat i) (Delay g) 0%Z) / 100)%float
       else timestamp)
    (columns frameIndex) 0%float.

(** [GetFrame] for a loaded GIF: the timestamp and the duration of the
    frame, or an error for an index out of range. *)
Definition GetFrame (g : GIF) (frameIndex : Z) : option (float * float) :=
  if (frameIndex <? 0) || (imageCount g <=? frameIndex) then None
  else
    let frameDuration :=
      if frameIndex <? Z.of_nat (List.length (Delay g))
      then (Go.float64 (nth (Z.to_nat frameIndex) (Delay g) 0%Z) / 100)%float
      else 0%float in
    Some (timestampOf g frameIndex, frameDuration).

(** The time, in nanoseconds, that the producer of [GetFrameChannel] sleeps
    after a frame: its duration, or 100 ms when the frame has none. *)
Definition sleepAfter (duration : float) : Z :=
  if (0 <? duration)%float
  then Go.int_of_float64 (duration * Go.float64 1000000000)%float
  else 100 * 1000000.

(** The delays a GIF file can hold: 16 bits. *)
Fixpoint delaysFrom (d : Z) (n : nat) : list Z :=
  match n with
  | O => []
  | S k => d :: delaysFrom (d + 1) k
  end.

Definition delays16 : list Z := delaysFrom 0 (Z.to_nat 65536).

End GIFDecoder.

(** ** The geometry calculator: main.go *)

Module Geometry.

(** [calculateOptimalRenderSize]: the render size in character cells. *)
Definition calculateOptimalRenderSize
  (imgWidth imgHeight termWidth termHeight : Z) : Z * Z :=
  (* Use full terminal width, minimal height margin for status *)
  let maxWidth := termWidth in
  let maxHeight := Go.int (termHeight - 2) in
  (* Ensure minimum available space *)
  let maxWidth := if maxWidth <? 10 then 10 else maxWidth in
  let maxHeight := if maxHeight <? 5 then 5 else maxHeight in
  (* Calculate image aspect ratio *)
  let imgAspect := (Go.float64 imgWidth / Go.float64 imgHeight)%float in
  let charAspect := 2%float in
  (* Try fitting to width first *)
  let renderWidth := maxWidth in
  let renderHeight :=
    Go.int_of_float64 (Go.float64 renderWidth / imgAspect / charAspect)%float in
  (* If height exceeds max, fit to height instead *)
  let '(renderWidth, renderHeight) :=
    if maxHeight <? renderHeight then
      (Go.int_of_float64 (Go.float64 maxHeight * imgAspect * charAspect)%float,
       maxHeight)
    else (renderWidth, renderHeight) in
  (* Ensure we don't exceed terminal bounds *)
  let renderWidth := if maxWidth <? renderWidth then maxWidth else renderWidth in
  let renderHeight := if maxHeight <? renderHeight then maxHeight else renderHeight in
  (* Ensure minimum sizes *)
  let renderWidth := if renderWidth <? 10 then 10 else renderWidth in
  let renderHeight := if renderHeight <? 5 then 5 else renderHeight in
  (renderWidth, renderHeight).

(** The pixel size that the playback path hands to the scaler for the
    half-block encoder: [pixelWidth = optimalWidth],
    [pixelHeight = optimalHeight * 2]. *)
Definition halfBlockPixels (cells : Z * Z) : Z * Z :=
  (fst cells, Go.int (snd cells * 2)).

(** [calculateOptimalRenderSizeSixel]: the pixel size for the bitmap
    transport. *)
Definition calculateOptimalRenderSizeSixel
  (imgWidth imgHeight termWidth termHeight : Z) : Z * Z :=
  let pixelWidth := Go.int (termWidth * 10) in
  let pixelHeight := Go.int (termHeight * 19) in
  (* Make height divisible by 6 *)
  let pixelHeight := Go.int (Go.div pixelHeight 6 * 6) in
  (pixelWidth, pixelHeight).

(** The largest cell box the calculation allows for a terminal. *)
Definition maxCells (termWidth termHeight : Z) : Z * Z :=
  (Z.max 10 termWidth, Z.max 5 (Go.int (termHeight - 2))).

(** A cell size lies in the box of a terminal: at least 10x5, at most
    [maxCells]. *)
Definition inBox (termWidth termHeight : Z) (cells : Z * Z) : Prop :=
  10 <= fst cells <= fst (maxCells termWidth termHeight)
  /\ 5 <= snd cells <= snd (maxCells termWidth termHeight).

(** *** The calculation in parts *)






End Geometry.

(** ** The capability probe: internal/terminal/capability.go *)

Module Capability.

Open Scope string_scope.

(** The process environment: [os.Getenv], the empty string for a variable
    that is not set. *)
Definition environ := string -> string.

(** [strings.ToUpper], modelled on the ASCII letters; other bytes are kept
    (no letter outside ASCII has an upper case among the characters of
    [UTF-8]). *)
Definition upperAscii (c : ascii) : ascii :=
  let n := nat_of_ascii c in
  if ((97 <=? n) && (n <=? 122))%nat then ascii_of_nat (n - 32) else c.

Fixpoint ToUpper (s : string) : string :=
  match s with
  | EmptyString => EmptyString
  | String c s' => String (upperAscii c) (ToUpper s')
  end.

(** [strings.Contains]. *)
Fixpoint Contains (s substr : string) : bool :=
  prefix substr s
  || match s with
     | EmptyString => false
     | String _ s' => Contains s' substr
     end.

(** [detectUnicodeSupport]. *)
Definition detectUnicodeSupport (getenv : environ) : bool :=
  (* Check locale settings *)
  let locale := getenv "LC_ALL" in
  let locale := if locale =? "" then getenv "LC_CTYPE" else locale in
  let locale := if locale =? "" then getenv "LANG" else locale in
  (* Most UTF-8 locales support Unicode *)
  if Contains (ToUpper locale) "UTF-8" || Contains (ToUpper locale) "UTF8"
  then true
  (* Windows typically supports Unicode in modern terminals *)
  else if getenv "OS" =? "Windows_NT" then true
  (* Most modern terminals support Unicode by default *)
  else true.

(** The rule as the specification words it: some locale variable contains
    [UTF-8] or [UTF8]; otherwise true on Windows (and only there). *)
Definition hasMarker (v : string) : bool :=
  Contains v "UTF-8" || Contains v "UTF8".

Definition unicodeSupport_spec (getenv : environ) : bool :=
  if hasMarker (getenv "LC_ALL") || hasMarker (getenv "LC_CTYPE")
     || hasMarker (getenv "LANG")
  then true
  else getenv "OS" =? "Windows_NT".

(** A POSIX environment with the C locale and no Windows marker. *)
Definition posixC : environ :=
  fun name => if name =? "LANG" then "C" else "".

(** *** Colour and SIXEL detection *)

(** [strings.ToLower] on a string of ASCII bytes: the letters [A] to [Z]
    are mapped, every other byte is kept.  On other strings
    [strings.ToLower] also maps the letters outside ASCII, two of them to
    ASCII letters (U+0130 to [i], U+212A to [k]); a property that depends on
    the difference is stated for the strings of [isASCII]. *)
Definition lowerAscii (c : ascii) : ascii :=
  let n := nat_of_ascii c in
  if ((65 <=? n) && (n <=? 90))%nat then ascii_of_nat (n + 32) else c.

Fixpoint ToLower (s : string) : string :=
  match s with
  | EmptyString => EmptyString
  | String c s' => String (lowerAscii c) (ToLower s')
  end.

(** The loops [for _, t := range list { if strings.Contains(s, t) ... }]. *)
Definition containsAny (s : string) (markers : list string) : bool :=
  existsb (Contains s) markers.

(** [detectColor256Support]. *)
Definition detectColor256Support (getenv : environ) : bool :=
  let termType := ToLower (getenv "TERM") in
  if Contains termType "256color" || Contains termType "xterm"
     || Contains termType "screen" || Contains termType "tmux"
  then true
  else if getenv "OS" =? "Windows_NT" then true
  else true.

(** The lists of [detectSixelSupport]. *)
Definition sixelTerminals : list string :=
  ["xterm-256color"; "xterm-color"; "mlterm"; "wezterm"; "foot"; "mintty";
   "xterm"].
Definition sixelPrograms : list string :=
  ["iterm.app"; "wezterm"; "mintty"; "foot"].

(** [detectSixelSupport]; [wtSupportsSixel] is the answer of
    [checkWindowsTerminalSixelSupport], which is asked only inside a
    Windows Terminal session. *)
Definition detectSixelSupport (getenv : environ) (wtSupportsSixel : bool)
  : bool :=
  let termType := ToLower (getenv "TERM") in
  let termProgram := ToLower (getenv "TERM_PROGRAM") in
  if containsAny termType sixelTerminals then true
  else if containsAny termProgram sixelPrograms then true
  else if negb (getenv "WT_SESSION" =? "") && wtSupportsSixel then true
  else if Contains termType "sixel" then true
  else false.

(** The lists of [detectTrueColorSupport]. *)
Definition trueColorTerms : list string :=
  ["xterm-256color"; "screen-256color"; "tmux-256color"; "xterm-direct";
   "alacritty"].
Definition trueColorPrograms : list string :=
  ["iterm.app"; "wezterm"; "alacritty"; "hyper"; "vscode"].

(** [detectTrueColorSupport]. *)
Definition detectTrueColorSupport (getenv : environ) : bool :=
  let colorTerm := ToLower (getenv "COLORTERM") in
  if (colorTerm =? "truecolor") || (colorTerm =? "24bit") then true
  else
    let termType := ToLower (getenv "TERM") in
    if containsAny termType trueColorTerms then true
    else
      let termProgram := ToLower (getenv "TERM_PROGRAM") in
      if containsAny termProgram trueColorPrograms then true
      else if negb (getenv "WT_SESSION" =? "") then true
      else if getenv "ConEmuANSI" =? "ON" then true
      else if (getenv "OS" =? "Windows_NT")
              && (0 <? String.length (getenv "PSModulePath"))%nat then true
      else false.

(** *** Numbers in decimal *)

Definition isDigitChar (c : ascii) : bool :=
  let n := nat_of_ascii c in ((48 <=? n) && (n <=? 57))%nat.

(** The value of a string of digits read after [acc]; no value when
    another character occurs. *)
Fixpoint digitsValue (acc : Z) (s : string) : option Z :=
  match s with
  | EmptyString => Some acc
  | String c s' =>
      if isDigitChar c
      then digitsValue (10 * acc + (Z.of_nat (nat_of_ascii c) - 48)) s'
      else None
  end.

(** [strconv.Atoi]: an optional sign and at least one digit, nothing else;
    a value outside [int] is an error as well. *)
Definition Atoi (s : string) : option Z :=
  let '(neg, body) :=
    match s with
    | String c s' =>
        if (c =? "-")%char then (true, s')
        else if (c =? "+")%char then (false, s')
        else (false, s)
    | EmptyString => (false, s)
    end in
  match body with
  | EmptyString => None
  | _ =>
      match digitsValue 0 body with
      | Some n =>
          let v := (if neg then - n else n)%Z in
          if ((Go.min_int <=? v) && (v <=? Go.max_int))%Z then Some v
          else None
      | None => None
      end
  end.

(** *** The terminal size *)

(** The three descriptors [GetTerminalSize] asks. *)
Inductive descriptor := Stdout | Stdin | Stderr.

(** What the operating system answers for a descriptor: the size when the
    descriptor is a terminal and [term.GetSize] succeeds. *)
Definition terminals := descriptor -> option (Z * Z).

(** The test [err == nil && width > 0 && height > 0] of each attempt. *)
Definition usable (answer : option (Z * Z)) : option (Z * Z) :=
  match answer with
  | Some (width, height) =>
      if ((0 <? width) && (0 <? height))%Z then Some (width, height)
      else None
  | None => None
  end.

(** [GetTerminalSize]: width, height and the error (none is ever set). *)
Definition GetTerminalSize (tty : terminals) (getenv : environ)
  : Z * Z * option string :=
  match usable (tty Stdout) with
  | Some (width, height) => (width, height, None)
  | None =>
  match usable (tty Stdin) with
  | Some (width, height) => (width, height, None)
  | None =>
  match usable (tty Stderr) with
  | Some (width, height) => (width, height, None)
  | None =>
      let fallback := (120%Z, 30%Z, @None string) in
      let w := getenv "COLUMNS" in
      if w =? "" then fallback
      else
        match Atoi w with
        | Some width =>
            let h := getenv "LINES" in
            if h =? "" then fallback
            else
              match Atoi h with
              | Some height => (width, height, None)
              | None => fallback
              end
        | None => fallback
        end
  end end end.

(** [types.TerminalCapabilities]. *)
Record TerminalCapabilities := mkCapabilities {
  SixelSupport : bool;
  TrueColor : bool;
  Color256 : bool;
  Width : Z;
  Height : Z;
  UnicodeSupport : bool
}.

(** [DetectCapabilities]. *)
Definition DetectCapabilities (tty : terminals) (getenv : environ)
  (wtSupportsSixel : bool) : TerminalCapabilities :=
  let '(width, height, err) := GetTerminalSize tty getenv in
  let '(width, height) :=
    match err with
    | Some _ => (80%Z, 24%Z)
    | None => (width, height)
    end in
  mkCapabilities
    (detectSixelSupport getenv wtSupportsSixel)
    (detectTrueColorSupport getenv)
    (detectColor256Support getenv)
    width height
    (detectUnicodeSupport getenv).

(** An environment given by the variables that are set. *)
Fixpoint environOf (vars : list (string * string)) : environ :=
  fun name =>
    match vars with
    | [] => ""
    | (n, v) :: rest => if name =? n then v else environOf rest name
    end.

(** *** The Windows Terminal version *)

(** White space as [strings.TrimSpace] sees it, on ASCII: tab, line feed,
    vertical tab, form feed, carriage return and space.  The white space
    outside ASCII that [strings.TrimSpace] trims as well (U+0085, U+00A0 and
    the like) is kept by [TrimSpace] below. *)
Definition isSpaceChar (c : ascii) : bool :=
  let n := nat_of_ascii c in (((9 <=? n) && (n <=? 13)) || (n =? 32))%nat.

Fixpoint trimLeft (s : string) : string :=
  match s with
  | EmptyString => EmptyString
  | String c s' => if isSpaceChar c then trimLeft s' else s
  end.

Fixpoint trimRight (s : string) : string :=
  match s with
  | EmptyString => EmptyString
  | String c s' =>
      let t := trimRight s' in
      if isSpaceChar c && (t =? "") then EmptyString else String c t
  end.

(** [strings.TrimSpace]. *)
Definition TrimSpace (s : string) : string := trimRight (trimLeft s).

(** [strings.Split(s, ".")]: the pieces between the dots, at least one. *)
Fixpoint SplitDots (s : string) : list string :=
  match s with
  | EmptyString => [EmptyString]
  | String c s' =>
      if (c =? ".")%char then EmptyString :: SplitDots s'
      else
        match SplitDots s' with
        | piece :: pieces => String c piece :: pieces
        | [] => [String c EmptyString]
        end
  end.

(** [checkWindowsTerminalSixelSupport]; [output] is what the PowerShell
    query printed, if it ran. *)
Definition checkWindowsTerminalSixelSupport (output : option string) : bool :=
  match output with
  | None => false
  | Some out =>
      let version := TrimSpace out in
      if version =? "" then false
      else
        match SplitDots version with
        | major :: minor :: _ =>
            match Atoi major with
            | None => false
            | Some major =>
                match Atoi minor with
                | None => false
                | Some minor =>
                    if ((1 <? major) || ((major =? 1) && (22 <=? minor)))%Z
                    then true else false
                end
            end
        | _ => false
        end
  end.

(** Every character of a string satisfies a test. *)
Fixpoint allChars (p : ascii -> bool) (s : string) : bool :=
  match s with
  | EmptyString => true
  | String c s' => p c && allChars p s'
  end.

(** A string of ASCII bytes, on which [ToLower], [ToUpper] and [TrimSpace]
    are the functions of the [strings] package. *)
Definition isASCII (s : string) : bool :=
  allChars (fun c => (nat_of_ascii c <? 128)%nat) s.

(** A character that can occur in a number accepted by [Atoi]. *)
Definition numberChar (c : ascii) : bool :=
  isDigitChar c || (c =? "-")%char || (c =? "+")%char.

End Capability.

(** ** Terminal control: package terminal (Control) *)

Module TerminalControl.

Open Scope string_scope.

(** The escape and the bell character. *)
Definition ESC : string := String (ascii_of_nat 27) "".
Definition BEL : string := String (ascii_of_nat 7) "".

(** [Control]: the flag that remembers whether the cursor was hidden. *)
Record Control := mkControl { cursorHidden : bool }.

(** [NewControl]. *)
Definition NewControl : Control := mkControl false.

(** A method of [Control] returns the new state and what it wrote to the
    terminal.  [ok] says whether its [fmt.Print] succeeded; a failed print
    is taken to have written nothing. *)
Definition written (ok : bool) (s : string) : string := if ok then s else "".

(** [ClearScreen], [MoveCursorHome], [SaveCursorPosition],
    [RestoreCursorPosition], [EnableAlternateScreen] and
    [DisableAlternateScreen] write a fixed sequence and keep the state. *)
Definition ClearScreen (ok : bool) (c : Control) : Control * string :=
  (c, written ok (ESC ++ "[2J" ++ ESC ++ "[H")).
Definition MoveCursorHome (ok : bool) (c : Control) : Control * string :=
  (c, written ok (ESC ++ "[H")).
Definition SaveCursorPosition (ok : bool) (c : Control) : Control * string :=
  (c, written ok (ESC ++ "[s")).
Definition RestoreCursorPosition (ok : bool) (c : Control) : Control * string :=
  (c, written ok (ESC ++ "[u")).
Definition EnableAlternateScreen (ok : bool) (c : Control) : Control * string :=
  (c, written ok (ESC ++ "[?1049h")).
Definition DisableAlternateScreen (ok : bool) (c : Control) : Control * string :=
  (c, written ok (ESC ++ "[?1049l")).

(** The bytes that a [fmt] verb produces, as a string. *)
Fixpoint stringOfBytes (bytes : list Z) : string :=
  match bytes with
  | nil => EmptyString
  | cons b rest => String (ascii_of_nat (Z.to_nat b)) (stringOfBytes rest)
  end.

(** The verb [%d]. *)
Definition decimal (n : Z) : string :=
  stringOfBytes (SixelRenderer.formatInt n).

(** [MoveCursor]: [fmt.Printf("\033[%d;%dH", row, col)]. *)
Definition MoveCursor (row col : Z) (ok : bool) (c : Control)
  : Control * string :=
  (c, written ok (ESC ++ "[" ++ decimal row ++ ";" ++ decimal col ++ "H")).

(** [SetTitle]: [fmt.Printf("\033]0;%s\007", title)]. *)
Definition SetTitle (title : string) (ok : bool) (c : Control)
  : Control * string :=
  (c, written ok (ESC ++ "]0;" ++ title ++ BEL)).

(** [HideCursor]: writes only when the cursor is not yet hidden, and sets
    the flag only when the write succeeded. *)
Definition HideCursor (ok : bool) (c : Control) : Control * string :=
  if negb (cursorHidden c) then
    (if ok then mkControl true else c, written ok (ESC ++ "[?25l"))
  else (c, "").

(** [ShowCursor]: the counterpart. *)
Definition ShowCursor (ok : bool) (c : Control) : Control * string :=
  if cursorHidden c then
    (if ok then mkControl false else c, written ok (ESC ++ "[?25h"))
  else (c, "").

(** [Reset]: resets attributes, shows the cursor, clears the screen; the
    flag is cleared whether or not the write succeeded. *)
Definition Reset (ok : bool) (c : Control) : Control * string :=
  (mkControl false,
   written ok (ESC ++ "[0m" ++ ESC ++ "[?25h" ++ ESC ++ "[2J" ++ ESC ++ "[H")).

(** [Flush], [GetTerminalInfo] and [QueryTerminalSize] write nothing and
    keep the state. *)
Definition Flush (c : Control) : Control * string := (c, "").
Definition GetTerminalInfo (c : Control) : Control * string := (c, "").
Definition QueryTerminalSize (c : Control) : Control * string := (c, "").

(** The methods of [Control], as a caller's sequence of calls. *)
Inductive call :=
| CallClearScreen | CallMoveCursorHome
| CallMoveCursor (row col : Z)
| CallHideCursor | CallShowCursor
| CallSaveCursorPosition | CallRestoreCursorPosition
| CallSetTitle (title : string)
| CallEnableAlternateScreen | CallDisableAlternateScreen
| CallReset | CallFlush | CallGetTerminalInfo | CallQueryTerminalSize.

Definition perform (m : call) : bool -> Control -> Control * string :=
  match m with
  | CallClearScreen => ClearScreen
  | CallMoveCursorHome => MoveCursorHome
  | CallMoveCursor row col => MoveCursor row col
  | CallHideCursor => HideCursor
  | CallShowCursor => ShowCursor
  | CallSaveCursorPosition => SaveCursorPosition
  | CallRestoreCursorPosition => RestoreCursorPosition
  | CallSetTitle title => SetTitle title
  | CallEnableAlternateScreen => EnableAlternateScreen
  | CallDisableAlternateScreen => DisableAlternateScreen
  | CallReset => Reset
  | CallFlush => fun _ => Flush
  | CallGetTerminalInfo => fun _ => GetTerminalInfo
  | CallQueryTerminalSize => fun _ => QueryTerminalSize
  end.

(** A sequence of calls, each with the outcome of its print: the final
    state and everything written. *)
Fixpoint performAll (calls : list (call * bool)) (c : Control)
  : Control * string :=
  match calls with
  | nil => (c, "")
  | cons (m, ok) rest =>
      let '(c1, out1) := perform m ok c in
      let '(c2, out2) := performAll rest c1 in
      (c2, out1 ++ out2)
  end.

(** The terminal's side: whether the cursor is visible after a byte stream,
    [ESC[?25l] hiding it and [ESC[?25h] showing it. *)
Fixpoint cursorVisibleAfter (out : string) (visible : bool) : bool :=
  match out with
  | EmptyString => visible
  | String _ rest =>
      if prefix (ESC ++ "[?25l") out then cursorVisibleAfter rest false
      else if prefix (ESC ++ "[?25h") out then cursorVisibleAfter rest true
      else cursorVisibleAfter rest visible
  end.

(** No [Reset] of the sequence had its print fail. *)
Definition resetsPrinted (calls : list (call * bool)) : Prop :=
  Forall (fun mc => fst mc = CallReset -> snd mc = true) calls.

(** A string without the escape character. *)
Definition notESC (c : ascii) : bool := negb (c =? ascii_of_nat 27)%char.
Definition plain (s : string) : bool := Capability.allChars notESC s.

(** No title given to [SetTitle] holds an escape character: a title is
    printed as it is, and one that holds [ESC[?25l] would hide the cursor
    behind the back of the flag. *)
Definition titlesPlain (calls : list (call * bool)) : Prop :=
  Forall
    (fun mc =>
       match fst mc with
       | CallSetTitle title => plain title = true
       | _ => True
       end)
    calls.

End TerminalControl.

(** ** The video frame loop: internal/decoder/video.go and main.go *)

Module Playback.

(** [types.PlaybackStats], the two counters. *)
Record PlaybackStats := mkStats {
  FramesRendered : Z;
  FramesDropped : Z
}.

(** The producer goroutine of [GetFrameChannel] and the consumer loop of
    [playVideoFile], joined by the buffered channel.  A frame is named by
    the [frameIndex] its timestamp was computed from. *)
Record state := mkState {
  frameIndex : Z;          (* the producer's local counter *)
  frameChan : list Z;      (* the frames waiting in the channel, oldest first *)
  closed : bool;           (* the producer has returned: [close(frameChan)] *)
  stats : PlaybackStats;   (* the consumer's statistics *)
  finished : bool          (* the consumer has left its [range] loop *)
}.

(** [make(chan *types.Frame, 5)]. *)
Definition capacity : nat := 5.

Definition initial : state :=
  mkState 0 [] false (mkStats 0 0) false.

(** What can happen next: the producer's [io.ReadFull] returns a whole
    frame, or fails (end of the stream or a short read); the consumer takes
    its turn at [range frameChan], and [Render] succeeds or fails.
    [io.ReadFull] returns an error whenever it read fewer bytes than the
    buffer holds, so the producer's [if n != frameSize { continue }] is never
    taken: a short read ends the stream. *)
Inductive event :=
| FrameRead
| ReadFailed
| ConsumerTurn (renderOk : bool).

(** The producer after a whole frame was read: the non-blocking send.
    [case frameChan <- frame: frameIndex++] when the channel has room,
    [default: frameIndex++] when it is full. *)
Definition produce (s : state) : state :=
  if closed s then s
  else if (List.length (frameChan s) <? capacity)%nat then
    mkState (frameIndex s + 1) (frameChan s ++ [frameIndex s])
            (closed s) (stats s) (finished s)
  else
    (* Channel full, skip frame and move on *)
    mkState (frameIndex s + 1) (frameChan s) (closed s) (stats s) (finished s).

(** The producer after [io.ReadFull] returned an error: it returns, and the
    deferred [close(frameChan)] runs. *)
Definition endOfInput (s : state) : state :=
  mkState (frameIndex s) (frameChan s) true (stats s) (finished s).

(** One turn of the consumer: the next frame is rendered and
    [stats.FramesRendered++]; a failed [Render] breaks the loop; a closed
    and drained channel ends it; an open and empty one blocks. *)
Definition consume (renderOk : bool) (s : state) : state :=
  if finished s then s
  else
    match frameChan s with
    | [] => mkState (frameIndex s) [] (closed s) (stats s) (closed s)
    | _ :: rest =>
        if renderOk then
          mkState (frameIndex s) rest (closed s)
                  (mkStats (FramesRendered (stats s) + 1)
                           (FramesDropped (stats s)))
                  false
        else mkState (frameIndex s) rest (closed s) (stats s) true
    end.

Definition step (s : state) (e : event) : state :=
  match e with
  | FrameRead => produce s
  | ReadFailed => endOfInput s
  | ConsumerTurn ok => consume ok s
  end.

Definition run (evs : list event) : state := fold_left step evs initial.

(** The frames the producer pulled from the decoder in a run: the whole
    frames it read while it was alive. *)
Fixpoint framesPulled (alive : bool) (evs : list event) : Z :=
  match evs with
  | [] => 0
  | FrameRead :: evs' => (if alive then 1 else 0) + framesPulled alive evs'
  | ReadFailed :: evs' => framesPulled false evs'
  | ConsumerTurn _ :: evs' => framesPulled alive evs'
  end.

(** The consumer takes the first frame at once and is then kept busy while
    six more frames arrive; the stream ends, and the consumer drains the
    channel. *)
Definition burst : list event :=
  [FrameRead; ConsumerTurn true]
  ++ repeat FrameRead 6 ++ [ReadFailed] ++ repeat (ConsumerTurn true) 6.

(** *** What became of the frames, read off a run *)

(** The frames that met a full channel and were skipped, from a state on. *)
Fixpoint skippedFrom (s : state) (evs : list event) : Z :=
  match evs with
  | [] => 0
  | e :: evs' =>
      (match e with
       | FrameRead =>
           if closed s then 0
           else if (List.length (frameChan s) <? capacity)%nat then 0 else 1
       | _ => 0
       end)
      + skippedFrom (step s e) evs'
  end.

(** The frames the consumer took and whose [Render] failed. *)
Fixpoint renderFailedFrom (s : state) (evs : list event) : Z :=
  match evs with
  | [] => 0
  | e :: evs' =>
      (match e with
       | ConsumerTurn false =>
           if finished s then 0
           else match frameChan s with [] => 0 | _ :: _ => 1 end
       | _ => 0
       end)
      + renderFailedFrom (step s e) evs'
  end.

(** The frames rendered, in the order of rendering. *)
Fixpoint renderedFrom (s : state) (evs : list event) : list Z :=
  match evs with
  | [] => []
  | e :: evs' =>
      (match e with
       | ConsumerTurn true =>
           if finished s then []
           else match frameChan s with [] => [] | f :: _ => [f] end
       | _ => []
       end)
      ++ renderedFrom (step s e) evs'
  end.

(** A list of frame indices in strictly ascending order, all below [bound]
    and all at least [from]. *)
Fixpoint ascendingFrom (from bound : Z) (l : list Z) : Prop :=
  match l with
  | [] => from <= bound
  | f :: l' => from <= f /\ ascendingFrom (f + 1) bound l'
  end.

End Playback.

(** ** The renderer manager: internal/renderer/renderer.go *)

Module Renderers.

(** [types.RenderMode]. *)
Inductive RenderMode := SIXEL | ASCII_COLOR | ASCII_GRAY | EXACT.

Definition modeEqb (a b : RenderMode) : bool :=
  match a, b with
  | SIXEL, SIXEL | ASCII_COLOR, ASCII_COLOR
  | ASCII_GRAY, ASCII_GRAY | EXACT, EXACT => true
  | _, _ => false
  end.

(** The three implementations of the [Renderer] interface; an ASCII
    renderer carries the mode it was created with. *)
Inductive Renderer :=
| ASCIIRenderer (mode : RenderMode)
| UnicodeRenderer
| SixelRenderer.

(** [SupportsMode] of each implementation. *)
Definition SupportsMode (r : Renderer) (mode : RenderMode) : bool :=
  match r with
  | ASCIIRenderer _ => modeEqb mode ASCII_COLOR || modeEqb mode ASCII_GRAY
  | UnicodeRenderer => modeEqb mode EXACT
  | SixelRenderer => modeEqb mode SIXEL
  end.

(** The encoding a renderer's [Render] produces: an ASCII renderer
    switches on its own mode, not on the mode of the options. *)
Definition produces (r : Renderer) : RenderMode :=
  match r with
  | ASCIIRenderer mode => mode
  | UnicodeRenderer => EXACT
  | SixelRenderer => SIXEL
  end.

(** The map [renderers] of the manager, with assignment [m[k] = v]. *)
Definition registry := RenderMode -> option Renderer.

Definition emptyRegistry : registry := fun _ => None.

Definition assign (m : registry) (k : RenderMode) (v : Renderer) : registry :=
  fun k' => if modeEqb k' k then Some v else m k'.

(** [registerRenderers], from the capabilities of [NewRendererManager]. *)
Definition registerRenderers (caps : Capability.TerminalCapabilities)
  : registry :=
  let m := emptyRegistry in
  let m := assign m ASCII_GRAY (ASCIIRenderer ASCII_GRAY) in
  let m := assign m ASCII_COLOR (ASCIIRenderer ASCII_COLOR) in
  let m := if Capability.TrueColor caps then assign m EXACT UnicodeRenderer
           else m in
  let m := if Capability.SixelSupport caps then assign m SIXEL SixelRenderer
           else m in
  m.

(** [GetBestRenderer]: the first registered mode in the order of
    preference; the result is [nil] when the final lookup finds nothing. *)
Definition GetBestRenderer (m : registry) : option Renderer :=
  let modes := [SIXEL; EXACT; ASCII_COLOR; ASCII_GRAY] in
  match find (fun mode => match m mode with Some _ => true | None => false end)
          modes with
  | Some mode => m mode
  | None => m ASCII_GRAY
  end.

End Renderers.

(** ** The video path of the player: main.go and internal/decoder/video.go *)

Module Player.
Import Renderers.

(** The mode that [playVideoFile] puts in the render options. *)
Definition selectMode (caps : Capability.TerminalCapabilities) : RenderMode :=
  if Capability.SixelSupport caps then SIXEL
  else if Capability.TrueColor caps then EXACT
  else if Capability.Color256 caps then ASCII_COLOR
  else ASCII_GRAY.

(** The sizes that [playVideoFile] computes for a video: the pixel size
    given to the decoder ([SetRenderSize]) and the size put in the render
    options. *)
Record videoSizes := mkSizes {
  pixelWidth : Z;
  pixelHeight : Z;
  optimalWidth : Z;
  optimalHeight : Z
}.

Definition videoGeometry (caps : Capability.TerminalCapabilities)
  (mediaWidth mediaHeight : Z) : videoSizes :=
  if Capability.SixelSupport caps then
    let '(pixelWidth, pixelHeight) :=
      Geometry.calculateOptimalRenderSizeSixel mediaWidth mediaHeight
        (Capability.Width caps) (Capability.Height caps) in
    (* Convert back to character dimensions for options *)
    mkSizes pixelWidth pixelHeight (Go.div pixelWidth 8) (Go.div pixelHeight 16)
  else
    let '(optimalWidth, optimalHeight) :=
      Geometry.calculateOptimalRenderSize mediaWidth mediaHeight
        (Capability.Width caps) (Capability.Height caps) in
    (* Unicode half-blocks: 2 pixels per character height *)
    mkSizes optimalWidth (Go.int (optimalHeight * 2)) optimalWidth optimalHeight.

(** The output size of [GetFrameChannel]: the render size that was set, or
    160x90 when a dimension is not positive. *)
Definition outputSize (renderWidth renderHeight : Z) : Z * Z :=
  if (renderWidth <=? 0) || (renderHeight <=? 0) then (160, 90)
  else (renderWidth, renderHeight).

(** [frameSize := outWidth * outHeight * 3]. *)
Definition frameSize (outWidth outHeight : Z) : Z :=
  Go.int (outWidth * outHeight * 3).

(** The size of the image that [SixelRenderer.Render] resizes an oversized
    input to: [options.Width * 8] by [options.Height * 16]. *)
Definition sixelResizeTarget (s : videoSizes) : Z * Z :=
  (Go.int (optimalWidth s * 8), Go.int (optimalHeight s * 16)).

(** [color.RGBA.RGBA()] widens an 8-bit channel to 16 bits (for an opaque
    colour): [r |= r << 8]. *)
Definition widen8 (c : Z) : Z := Z.lor c (Z.shiftl c 8).

(** [rawRGBToImage]: the image of a buffer of packed RGB24 bytes, or [nil]
    when the buffer is too short.  [image.Rect] orders its corners, and a
    point that was never set, or lies outside the rectangle, is transparent
    black. *)
Definition rawRGBToImage (data : list Z) (width height : Z)
  : option GoImage.image :=
  let expectedSize := Go.int (width * height * 3) in
  let len := Z.of_nat (List.length data) in
  if len <? expectedSize then None
  else
    Some
      (GoImage.mkImage (Z.min 0 width) (Z.min 0 height)
         (Z.abs width) (Z.abs height)
         (fun x y =>
            if (0 <=? x) && (x <? width) && (0 <=? y) && (y <? height) then
              let i := Go.int ((y * width + x) * 3) in
              if i + 2 <? len then
                (widen8 (nth (Z.to_nat i) data 0),
                 widen8 (nth (Z.to_nat (i + 1)) data 0),
                 widen8 (nth (Z.to_nat (i + 2)) data 0))
              else (0, 0, 0)
            else (0, 0, 0))).

End Player.

(* ================================================================== *)
(** * Part II: the properties *)
(* ================================================================== *)

(** ** Eight-bit values *)

Module ByteFacts.

Lemma in_bytes (c : Z) : 0 <= c < 256 -> In c Go.bytes.
Proof.
  intros Hc. unfold Go.bytes.
  replace c with (Z.of_nat (Z.to_nat c)) by lia.
  apply in_map, in_seq. lia.
Qed.

(** A decidable property checked on the 256 values holds of every byte. *)
Lemma forall_byte (P : Z -> bool) :
  forallb P Go.bytes = true -> forall c, 0 <= c < 256 -> P c = true.
Proof.
  intros Hall c Hc.
  rewrite forallb_forall in Hall. apply Hall, in_bytes, Hc.
Qed.

(** A function that never decreases from one integer to the next never
    decreases over an interval. *)
Lemma monotone_by_steps (f : Z -> Z) (lo hi : Z) :
  (forall c, lo <= c < hi -> f c <= f (c + 1)) ->
  forall a b, lo <= a -> a <= b -> b <= hi -> f a <= f b.
Proof.
  intros Hstep a b Hlo Hab Hhi.
  replace b with (a + Z.of_nat (Z.to_nat (b - a))) by lia.
  assert (Hn : a + Z.of_nat (Z.to_nat (b - a)) <= hi) by lia.
  induction (Z.to_nat (b - a)) as [|n IH].
  - rewrite Z.add_0_r. lia.
  - rewrite Nat2Z.inj_succ in *.
    replace (a + Z.succ (Z.of_nat n)) with (a + Z.of_nat n + 1) by lia.
    specialize (Hstep (a + Z.of_nat n)). lia.
Qed.

Lemma uint8_range (z : Z) : 0 <= Go.uint8 z < 256.
Proof. unfold Go.uint8. apply Z.mod_pos_bound. lia. Qed.

Lemma uint8_small (z : Z) : 0 <= z < 256 -> Go.uint8 z = z.
Proof. intros H. unfold Go.uint8. apply Z.mod_small, H. Qed.

End ByteFacts.

(** ** The indexed-block renderer *)

Module ASCIIRendererFacts.
Import ASCIIRenderer ByteFacts.

(** On [uint8] operands the level expression is 1 at 128 and 0 at every
    other value: [c*5 + 127] is reduced modulo 256 before the division. *)
Lemma cubeLevel_bytes (c : Z) :
  0 <= c < 256 -> cubeLevel c = if c =? 128 then 1 else 0.
Proof.
  intros Hc.
  apply Z.eqb_eq.
  apply (forall_byte (fun c => cubeLevel c =? (if c =? 128 then 1 else 0)));
    [vm_compute; reflexivity | exact Hc].
Qed.

Lemma cubeLevel_range (c : Z) : 0 <= cubeLevel c <= 1.
Proof.
  unfold cubeLevel, Go.div.
  pose proof (uint8_range (Go.uint8 (c * 5) + 127)) as H.
  rewrite Z.quot_div_nonneg by lia.
  split.
  - apply Z.div_pos; lia.
  - apply Z.div_le_upper_bound; lia.
Qed.

Lemma grayStep_range (red : Z) :
  0 <= Go.div (Go.uint8 (Go.uint8 (red - 8) * 23)) 240 <= 1.
Proof.
  unfold Go.div.
  pose proof (uint8_range (Go.uint8 (red - 8) * 23)) as H.
  rewrite Z.quot_div_nonneg by lia.
  split.
  - apply Z.div_pos; lia.
  - apply Z.lt_succ_r. apply Z.div_lt_upper_bound; lia.
Qed.

Lemma rgbToAnsi256_range (red green blue : Z) :
  16 <= rgbToAnsi256 red green blue <= 255.
Proof.
  unfold rgbToAnsi256.
  pose proof (cubeLevel_range red) as Hr.
  pose proof (cubeLevel_range green) as Hg.
  pose proof (cubeLevel_range blue) as Hb.
  pose proof (grayStep_range red) as Hgray.
  destruct ((red =? green) && (green =? blue)).
  - destruct (red <? 8); [lia|].
    destruct (248 <? red); lia.
  - cbv zeta.
    destruct (5 <? cubeLevel red), (5 <? cubeLevel green),
      (5 <? cubeLevel blue); lia.
Qed.

(** C1, at the failing input.  The specification's cube sends pure red
    (255, 0, 0) to level 5 and index 16 + 36*5 = 196; [rgbToAnsi256] returns
    16, because the level is computed on [uint8]: 255*5 + 127 wraps to 122
    and 122 / 255 is 0.  The code's level is 1 at 128 and 0 again at 129 and
    at 255, so it is not monotone and never reaches 5. *)
Theorem C1_cube_level_wraps_in_uint8 :
  rgbToAnsi256 255 0 0 = 16
  /\ cubeIndex_spec 255 0 0 = 196
  /\ cubeLevel 128 = 1 /\ cubeLevel 129 = 0 /\ cubeLevel 255 = 0
  /\ cubeLevel_spec 255 = 5.
Proof. vm_compute. repeat split; reflexivity. Qed.

(** C2, as stated, fails: with value 0, brightness 0.5 and contrast 2 the
    code returns 127 (brightness first: 127.5, which contrast leaves at the
    midpoint), while contrast first and brightness afterwards gives
    -127.5 + 127.5 = 0.  Every float operation at this input is exact. *)
Lemma C2_contrast_first_is_not_the_code :
  adjustPixel 0 0.5 2 = 127
  /\ adjust_contrast_then_brightness 0 0.5 2 = 0
  /\ adjustPixel 0 0.5 2 <> adjust_contrast_then_brightness 0 0.5 2.
Proof. vm_compute. repeat split; try reflexivity. discriminate. Qed.

(** The clamp leaves no float below 0 or above 255 (a NaN, which compares
    with nothing, passes through). *)
Lemma clamp255_bounds (x : float) :
  (clamp255 x <? 0)%float = false /\ (255 <? clamp255 x)%float = false.
Proof.
  unfold clamp255.
  destruct (x <? 0)%float eqn:Hlow; [split; reflexivity|].
  destruct (255 <? x)%float eqn:Hhigh; [split; reflexivity|].
  split; assumption.
Qed.

(** C2, amended: for every channel value, brightness and contrast,
    [adjustPixel] adds the brightness term first, applies the contrast
    around mid-grey to the brightened value, clamps to [0, 255] and
    truncates; the clamped float is neither below 0 nor above 255 and the
    result is a value of 0..255. *)
Theorem C2_brightness_first_then_contrast
  (value : Z) (brightness contrast : float) :
  let brightened := (Go.float64 value + brightness * 255)%float in
  let clamped := clamp255 (contrastAroundMid brightened contrast) in
  adjustPixel value brightness contrast
  = adjust_brightness_then_contrast value brightness contrast
  /\ adjustPixel value brightness contrast = Go.uint8_of_float64 clamped
  /\ (clamped <? 0)%float = false /\ (255 <? clamped)%float = false
  /\ 0 <= adjustPixel value brightness contrast <= 255.
Proof.
  intros brightened clamped.
  assert (Hcode : adjustPixel value brightness contrast
                  = Go.uint8_of_float64 clamped) by reflexivity.
  split; [reflexivity|]. split; [exact Hcode|].
  destruct (clamp255_bounds (contrastAroundMid brightened contrast))
    as [Hlow Hhigh].
  split; [exact Hlow|]. split; [exact Hhigh|].
  rewrite Hcode. unfold Go.uint8_of_float64.
  pose proof (uint8_range (Go.int_of_float64 clamped)). lia.
Qed.

(** C10: the code that [rgbToAnsi256] returns lies in 16..255 for every
    channel triple, whatever the [uint8] arithmetic wraps to, and so does
    the code printed by the pixel loop of [renderColorASCII] after any
    brightness and contrast adjustment. *)
Theorem C10_ansi_code_in_16_255 (red green blue : Z) :
  16 <= rgbToAnsi256 red green blue <= 255
  /\ forall brightness contrast,
       16 <= fst (renderColorCell red green blue brightness contrast) <= 255.
Proof.
  split.
  - apply rgbToAnsi256_range.
  - intros brightness contrast. unfold renderColorCell. cbv zeta. simpl fst.
    apply rgbToAnsi256_range.
Qed.

End ASCIIRendererFacts.

(** ** The bitmap renderer: palette quantization *)

Module QuantizationFacts.
Import SixelRenderer ByteFacts.

Lemma colorToPalette_levels (r g b : Z) :
  colorToPalette r g b
  = Go.uint8 (clampLevel 7 (level r scale8) * 32
              + clampLevel 7 (level g scale8) * 4
              + clampLevel 3 (level b scale4)).
Proof. reflexivity. Qed.

(** The ten Newton rounds, run on each of the 256 channel values: the red
    and green level lies in 0..7 and the blue level in 0..3. *)
Lemma level8_range (c : Z) : 0 <= c < 256 -> 0 <= level c scale8 <= 7.
Proof.
  intros Hc.
  pose proof (forall_byte
    (fun c => (0 <=? level c scale8) && (level c scale8 <=? 7))) as H.
  specialize (H ltac:(vm_compute; reflexivity) c Hc). cbv beta in H.
  apply andb_true_iff in H. lia.
Qed.

Lemma level4_range (c : Z) : 0 <= c < 256 -> 0 <= level c scale4 <= 3.
Proof.
  intros Hc.
  pose proof (forall_byte
    (fun c => (0 <=? level c scale4) && (level c scale4 <=? 3))) as H.
  specialize (H ltac:(vm_compute; reflexivity) c Hc). cbv beta in H.
  apply andb_true_iff in H. lia.
Qed.

(** From one channel value to the next the computed level never falls. *)
Lemma level8_step (c : Z) :
  0 <= c < 255 -> level c scale8 <= level (c + 1) scale8.
Proof.
  intros Hc.
  pose proof (forall_byte
    (fun c => (c =? 255) || (level c scale8 <=? level (c + 1) scale8))) as H.
  specialize (H ltac:(vm_compute; reflexivity) c ltac:(lia)). cbv beta in H.
  apply orb_true_iff in H. lia.
Qed.

Lemma level8_monotone (a b : Z) :
  0 <= a -> a <= b -> b < 256 -> level a scale8 <= level b scale8.
Proof.
  intros Ha Hab Hb.
  apply (monotone_by_steps (fun c => level c scale8) 0 255); try lia.
  intros c Hc. apply level8_step, Hc.
Qed.

(** On channel values the index is the plain sum: nothing is clamped and
    the conversion to [uint8] changes nothing. *)
Lemma colorToPalette_bytes (r g b : Z) :
  0 <= r < 256 -> 0 <= g < 256 -> 0 <= b < 256 ->
  colorToPalette r g b
  = level r scale8 * 32 + level g scale8 * 4 + level b scale4.
Proof.
  intros Hr Hg Hb. rewrite colorToPalette_levels.
  pose proof (level8_range r Hr). pose proof (level8_range g Hg).
  pose proof (level4_range b Hb).
  unfold clampLevel.
  destruct (Z.ltb_spec 7 (level r scale8)); [lia|].
  destruct (Z.ltb_spec 7 (level g scale8)); [lia|].
  destruct (Z.ltb_spec 3 (level b scale4)); [lia|].
  apply uint8_small. lia.
Qed.

(** The examples of the specification: white is index 255, black index 0,
    and mid-grey the index 5*32 + 5*4 + 2. *)
Example colorToPalette_examples :
  colorToPalette 255 255 255 = 255
  /\ colorToPalette 0 0 0 = 0
  /\ colorToPalette 128 128 128 = 182.
Proof. vm_compute. repeat split; reflexivity. Qed.

(** C4: for fixed green and blue channel values and red values R1 < R2, the
    palette index computed by [colorToPalette], with its ten-round Newton
    square root, satisfies index(R1,G,B) <= index(R2,G,B). *)
Theorem C4_palette_index_monotone_in_red (G B R1 R2 : Z) :
  0 <= G < 256 -> 0 <= B < 256 ->
  0 <= R1 -> R1 < R2 -> R2 < 256 ->
  colorToPalette R1 G B <= colorToPalette R2 G B.
Proof.
  intros HG HB H1 H12 H2.
  rewrite !colorToPalette_bytes by lia.
  pose proof (level8_monotone R1 R2 H1 ltac:(lia) H2).
  lia.
Qed.

(** The theorem at G = 200, B = 100 and the red values 3 and 4, between
    which the red level steps from 0 to 1. *)
Lemma C4_palette_index_monotone_witness :
  colorToPalette 3 200 100 <= colorToPalette 4 200 100.
Proof.
  apply (C4_palette_index_monotone_in_red 200 100 3 4); lia.
Defined.

End QuantizationFacts.

(** ** The bitmap renderer: run-length encoding *)

Module RunLengthFacts.
Import SixelRenderer ByteFacts.

(** *** Decimal numbers *)

Lemma digits_sound (fuel : nat) :
  forall n, 0 <= n < 2 ^ Z.of_nat fuel -> fuel <> O ->
    readInt 0 (digits fuel n) = n
    /\ Forall (fun d => isDigit d = true) (digits fuel n).
Proof.
  induction fuel as [|fuel IH]; intros n Hn Hfuel; [contradiction|].
  cbn [digits].
  assert (Hd : isDigit (48 + n mod 10) = true).
  { unfold isDigit. pose proof (Z.mod_pos_bound n 10). lia. }
  destruct (Z.eqb_spec (n / 10) 0) as [Hq|Hq].
  - split; [|repeat constructor; exact Hd].
    unfold readInt. cbn [fold_left].
    pose proof (Z.div_mod n 10). lia.
  - assert (Hq' : 0 < n / 10).
    { pose proof (Z.div_pos n 10). lia. }
    assert (Hfuel' : fuel <> O).
    { intros ->. change (2 ^ Z.of_nat 1) with 2 in Hn.
      assert (n / 10 = 0) by (apply Z.div_small; lia). lia. }
    assert (Hb : n / 10 < 2 ^ Z.of_nat fuel).
    { rewrite Nat2Z.inj_succ, Z.pow_succ_r in Hn by lia.
      apply Z.div_lt_upper_bound; lia. }
    destruct (IH (n / 10) ltac:(lia) Hfuel') as [Hv Hall].
    split.
    + unfold readInt in *. rewrite fold_left_app, Hv. cbn [fold_left].
      pose proof (Z.div_mod n 10). lia.
    + apply Forall_app. split; [exact Hall|repeat constructor; exact Hd].
Qed.

Lemma formatInt_sound (n : Z) :
  0 <= n ->
  readInt 0 (formatInt n) = n
  /\ Forall (fun d => isDigit d = true) (formatInt n).
Proof.
  intros Hn. unfold formatInt.
  destruct (Z.ltb_spec n 0); [lia|].
  apply digits_sound; [|lia].
  rewrite Nat2Z.inj_succ, Z2Nat.id by apply Z.log2_nonneg.
  destruct (Z.eq_dec n 0) as [->|Hn0]; [vm_compute; split; congruence|].
  pose proof (Z.log2_spec n). lia.
Qed.

(** *** Sixel characters *)

Lemma lor_below_pow2 (a b n : Z) :
  0 <= a < 2 ^ n -> 0 <= b < 2 ^ n -> 0 <= Z.lor a b < 2 ^ n.
Proof.
  intros Ha Hb.
  assert (Hnn : 0 <= Z.lor a b) by (apply Z.lor_nonneg; lia).
  split; [exact Hnn|].
  destruct (Z.eq_dec (Z.lor a b) 0) as [->|Hne]; [lia|].
  assert (Hn : 0 < n).
  { destruct (Z.ltb_spec 0 n) as [|Hle]; [assumption|].
    assert (2 ^ n <= 1).
    { destruct (Z.eq_dec n 0) as [->|]; [simpl; lia|].
      rewrite Z.pow_neg_r by lia. lia. }
    assert (a = 0) by lia. assert (b = 0) by lia. subst. simpl in Hne. lia. }
  apply Z.log2_lt_pow2; [lia|].
  rewrite Z.log2_lor by lia.
  apply Z.max_lub_lt.
  - destruct (Z.eq_dec a 0) as [->|]; [simpl; lia|].
    apply Z.log2_lt_pow2; lia.
  - destruct (Z.eq_dec b 0) as [->|]; [simpl; lia|].
    apply Z.log2_lt_pow2; lia.
Qed.

Lemma sixelBits_range (pixels : list Z) (width height y6 colorIdx x : Z) :
  0 <= sixelBits pixels width height y6 colorIdx x < 64.
Proof.
  unfold sixelBits.
  assert (Hstep : forall dy s, In dy [0; 1; 2; 3; 4; 5] -> 0 <= s < 64 ->
            0 <= Go.uint8 (Z.lor s (Go.uint8 (Z.shiftl 1 dy))) < 64).
  { intros dy s Hdy Hs.
    assert (Hbit : 0 <= Go.uint8 (Z.shiftl 1 dy) < 2 ^ 6).
    { simpl in Hdy.
      destruct Hdy as [<-|[<-|[<-|[<-|[<-|[<-|[]]]]]]]; vm_compute;
        split; congruence. }
    pose proof (lor_below_pow2 s _ 6 Hs Hbit) as Hlor.
    change (2 ^ 6) with 64 in Hlor.
    rewrite uint8_small; lia. }
  assert (Hfold : forall l s, incl l [0; 1; 2; 3; 4; 5] -> 0 <= s < 64 ->
            0 <= fold_left
                   (fun sixel dy =>
                      if y6 + dy <? height then
                        if nth (Z.to_nat ((y6 + dy) * width + x)) pixels 0
                           =? Go.uint8 colorIdx
                        then Go.uint8 (Z.lor sixel (Go.uint8 (Z.shiftl 1 dy)))
                        else sixel
                      else sixel) l s < 64).
  { induction l as [|dy l IH]; intros s Hl Hs; [exact Hs|].
    cbn [fold_left]. apply IH.
    - intros d Hd. apply Hl. right. exact Hd.
    - destruct (y6 + dy <? height); [|exact Hs].
      destruct (_ =? _); [|exact Hs].
      apply Hstep; [apply Hl; left; reflexivity|exact Hs]. }
  apply Hfold; [apply incl_refl|lia].
Qed.

Lemma sixelChar_isSixel (pixels : list Z) (width height y6 colorIdx x : Z) :
  isSixel (sixelChar pixels width height y6 colorIdx x).
Proof.
  unfold sixelChar, isSixel.
  pose proof (sixelBits_range pixels width height y6 colorIdx x).
  rewrite uint8_small; lia.
Qed.

Lemma passSixels_isSixel (pixels : list Z) (width height y6 colorIdx : Z) :
  Forall isSixel (passSixels pixels width height y6 colorIdx).
Proof.
  unfold passSixels. apply Forall_forall. intros c Hc.
  apply in_map_iff in Hc. destruct Hc as [x [<- _]].
  apply sixelChar_isSixel.
Qed.

(** *** The writing loop *)

(** [writeRLE] appends what the specification emits for the run. *)
Lemma writeRLE_emitRun (sb : builder) (c n : Z) :
  c < 128 -> 0 <= n -> writeRLE sb c n = sb ++ emitRun (c, n).
Proof.
  intros Hc Hn. unfold writeRLE, emitRun, formatChar.
  destruct (Z.eqb_spec n 0) as [->|Hn0].
  - simpl. rewrite app_nil_r. reflexivity.
  - destruct (Z.ltb_spec 3 n), (Z.leb_spec 4 n); try lia; [|reflexivity].
    destruct (Z.ltb_spec c 128); [reflexivity|lia].
Qed.

Lemma fold_rleStep (chars : list Z) :
  forall sb c n, c < 128 -> 0 <= n -> Forall isSixel chars ->
    (let '(sb', c', n') := fold_left rleStep chars (sb, c, n) in
     writeRLE sb' c' n') = sb ++ encodeFrom c n chars.
Proof.
  induction chars as [|x chars IH]; intros sb c n Hc Hn Hall.
  - simpl. apply writeRLE_emitRun; assumption.
  - inversion Hall as [|? ? Hx Hrest]; subst.
    cbn [fold_left encodeFrom]. unfold rleStep at 2.
    destruct (x =? c).
    + apply IH; [assumption|lia|assumption].
    + rewrite IH; [|unfold isSixel in Hx; lia|lia|assumption].
      rewrite writeRLE_emitRun by assumption.
      rewrite app_assoc. reflexivity.
Qed.

(** *** Runs *)

Lemma joinRun_join (c n m : Z) (rs : list (Z * Z)) :
  joinRun c n (joinRun c m rs) = joinRun c (n + m) rs.
Proof.
  unfold joinRun. destruct rs as [|[c' k] rs].
  - rewrite Z.eqb_refl. reflexivity.
  - destruct (Z.eqb_spec c c') as [->|Hne].
    + rewrite Z.eqb_refl. f_equal. f_equal. lia.
    + destruct (Z.eqb_spec c c); [|contradiction]. reflexivity.
Qed.

Lemma joinRun_other (c n x m : Z) (rs : list (Z * Z)) :
  x <> c -> joinRun c n (joinRun x m rs) = (c, n) :: joinRun x m rs.
Proof.
  intros Hne. unfold joinRun at 1.
  assert (Hhd : exists k rs', joinRun x m rs = (x, k) :: rs').
  { unfold joinRun. destruct rs as [|[c' k] rs]; [eauto|].
    destruct (x =? c'); eauto. }
  destruct Hhd as [k [rs' ->]].
  destruct (Z.eqb_spec c x); [congruence|reflexivity].
Qed.

Lemma encodeFrom_runs (chars : list Z) :
  forall c n, encodeFrom c n chars = flat_map emitRun (joinRun c n (runs chars)).
Proof.
  induction chars as [|x chars IH]; intros c n.
  - simpl. rewrite app_nil_r. reflexivity.
  - cbn [encodeFrom runs].
    destruct (Z.eqb_spec x c) as [->|Hne].
    + rewrite IH, joinRun_join. reflexivity.
    + rewrite IH, joinRun_other by assumption. reflexivity.
Qed.

(** The loop starts from the empty run of [?]: it writes the maximal runs. *)
Lemma encodeFrom_start (chars : list Z) :
  encodeFrom 63 0 chars = flat_map emitRun (runs chars).
Proof.
  destruct chars as [|x chars]; [reflexivity|].
  cbn [encodeFrom runs].
  destruct (Z.eqb_spec x 63) as [->|Hne]; rewrite encodeFrom_runs; reflexivity.
Qed.

Lemma encodeRuns_runs (sb : builder) (chars : list Z) :
  Forall isSixel chars ->
  encodeRuns sb chars = sb ++ flat_map emitRun (runs chars).
Proof.
  intros Hall. unfold encodeRuns.
  rewrite <- encodeFrom_start.
  apply fold_rleStep; [lia|lia|exact Hall].
Qed.

Lemma joinRun_good (P : Z -> Prop) (c n : Z) (rs : list (Z * Z)) :
  P c -> 1 <= n -> Forall (goodRun P) rs -> Forall (goodRun P) (joinRun c n rs).
Proof.
  intros Hc Hn Hrs. unfold joinRun.
  destruct rs as [|[c' m] rs]; [repeat constructor; assumption|].
  inversion Hrs as [|? ? [_ Hm] Hrest]; subst. simpl in Hm.
  destruct (c =? c'); constructor; try assumption; split; simpl;
    first [assumption | lia].
Qed.

Lemma runs_good (P : Z -> Prop) (chars : list Z) :
  Forall P chars -> Forall (goodRun P) (runs chars).
Proof.
  induction 1 as [|x chars Hx _ IH]; [constructor|].
  cbn [runs]. apply joinRun_good; [assumption|lia|assumption].
Qed.

Lemma expand_joinRun (c : Z) (rs : list (Z * Z)) :
  Forall (goodRun (fun _ => True)) rs ->
  flat_map expandRun (joinRun c 1 rs) = c :: flat_map expandRun rs.
Proof.
  intros Hrs. unfold joinRun.
  destruct rs as [|[c' m] rs]; [reflexivity|].
  inversion Hrs as [|? ? [_ Hm] _]; subst. simpl in Hm.
  destruct (Z.eqb_spec c c') as [->|Hne]; [|reflexivity].
  cbn [flat_map]. unfold expandRun at 1 3. cbn [fst snd].
  replace (Z.to_nat (1 + m)) with (S (Z.to_nat m)) by lia.
  reflexivity.
Qed.

(** The runs of a sequence, expanded, are the sequence. *)
Lemma expand_runs (chars : list Z) : flat_map expandRun (runs chars) = chars.
Proof.
  induction chars as [|x chars IH]; [reflexivity|].
  cbn [runs]. rewrite expand_joinRun, IH; [reflexivity|].
  apply runs_good. apply Forall_forall. trivial.
Qed.

Lemma runs_maximal (chars : list Z) : distinctNeighbours (runs chars).
Proof.
  induction chars as [|x chars IH]; [exact I|].
  cbn [runs]. unfold joinRun.
  destruct (runs chars) as [|[c' m] rs]; [exact I|].
  destruct (Z.eqb_spec x c') as [->|Hne].
  - destruct rs as [|[c'' k] rs]; [exact I|]. exact IH.
  - split; assumption.
Qed.

(** *** The reading side *)

Lemma isSixel_not_digit (c : Z) : isSixel c -> isDigit c = false.
Proof. unfold isSixel, isDigit. intros H. lia. Qed.

(** After [!], the digits are read up to the first other character, which
    is then repeated. *)
Lemma decodeFrom_count (ds : list Z) :
  Forall (fun d => isDigit d = true) ds ->
  forall n c rest, isDigit c = false ->
    decodeFrom (Some n) (ds ++ c :: rest)
    = option_map (app (repeat c (Z.to_nat (readInt n ds))))
        (decodeFrom None rest).
Proof.
  induction 1 as [|d ds Hd _ IH]; intros n c rest Hc.
  - cbn [app decodeFrom readInt fold_left]. rewrite Hc. reflexivity.
  - cbn [app decodeFrom]. rewrite Hd. rewrite IH by exact Hc. reflexivity.
Qed.

Lemma decodeFrom_literal (c : Z) (k : nat) (rest : list Z) :
  isSixel c ->
  decodeFrom None (repeat c k ++ rest)
  = option_map (app (repeat c k)) (decodeFrom None rest).
Proof.
  intros Hc. induction k as [|k IH].
  - simpl. destruct (decodeFrom None rest); reflexivity.
  - cbn [repeat app decodeFrom].
    destruct (Z.eqb_spec c 33); [unfold isSixel in Hc; lia|].
    rewrite IH. destruct (decodeFrom None rest); reflexivity.
Qed.

Lemma decodeFrom_emitRun (run : Z * Z) (rest : list Z) :
  goodRun isSixel run ->
  decodeFrom None (emitRun run ++ rest)
  = option_map (app (expandRun run)) (decodeFrom None rest).
Proof.
  destruct run as [c n]. intros [Hc Hn]. cbn [fst snd] in Hc, Hn.
  unfold emitRun, expandRun. cbn [fst snd].
  destruct (4 <=? n).
  - destruct (formatInt_sound n ltac:(lia)) as [Hv Hds].
    cbn [app decodeFrom]. rewrite Z.eqb_refl.
    rewrite <- app_assoc. cbn [app].
    rewrite decodeFrom_count by (auto using isSixel_not_digit).
    rewrite Hv. reflexivity.
  - apply decodeFrom_literal, Hc.
Qed.

Lemma decodeRLE_runs (rs : list (Z * Z)) :
  Forall (goodRun isSixel) rs ->
  decodeRLE (flat_map emitRun rs) = Some (flat_map expandRun rs).
Proof.
  unfold decodeRLE. induction 1 as [|run rs Hrun _ IH]; [reflexivity|].
  cbn [flat_map]. rewrite decodeFrom_emitRun by exact Hrun.
  rewrite IH. reflexivity.
Qed.

(** The round trip for any sequence of sixel characters: the loop writes
    the maximal runs, each as the specification says, and reading the
    output back gives the sequence. *)
Lemma encodeRuns_round_trip (chars : list Z) :
  Forall isSixel chars ->
  encodeRuns [] chars = flat_map emitRun (runs chars)
  /\ decodeRLE (encodeRuns [] chars) = Some chars.
Proof.
  intros Hall.
  pose proof (encodeRuns_runs [] chars Hall) as Henc. cbn [app] in Henc.
  split; [exact Henc|].
  rewrite Henc, decodeRLE_runs by (apply runs_good, Hall).
  rewrite expand_runs. reflexivity.
Qed.

(** The column loop of [encodeSixel] is the run-length loop over the
    characters of the pass. *)
Lemma colorPass_encodeRuns
  (sb : builder) (pixels : list Z) (width height y6 colorIdx : Z) :
  colorPass sb pixels width height y6 colorIdx
  = encodeRuns sb (passSixels pixels width height y6 colorIdx).
Proof.
  unfold colorPass, encodeRuns, passSixels.
  generalize (sb, 63, 0) as st. generalize (columns width) as cols.
  induction cols as [|x cols IH]; intros st; [reflexivity|].
  cbn [map fold_left]. apply IH.
Qed.

(** C3: for the sixel characters of any colour pass of [encodeSixel], the
    run-length loop appends to the builder exactly the maximal runs of the
    sequence (each of length at least 1, neighbours of different
    characters, together the whole sequence), a run of four or more as
    [!<count><char>] and a shorter run as its characters; decoding that
    output gives back the sequence. *)
Theorem C3_rle_round_trip
  (sb : builder) (pixels : list Z) (width height y6 colorIdx : Z) :
  let sixels := passSixels pixels width height y6 colorIdx in
  let data := flat_map emitRun (runs sixels) in
  colorPass sb pixels width height y6 colorIdx = sb ++ data
  /\ decodeRLE data = Some sixels
  /\ flat_map expandRun (runs sixels) = sixels
  /\ Forall (goodRun isSixel) (runs sixels)
  /\ distinctNeighbours (runs sixels).
Proof.
  intros sixels data.
  pose proof (passSixels_isSixel pixels width height y6 colorIdx) as Hall.
  fold sixels in Hall.
  split; [|split; [|split; [|split]]].
  - rewrite colorPass_encodeRuns. fold sixels. apply encodeRuns_runs, Hall.
  - unfold data. rewrite decodeRLE_runs by (apply runs_good, Hall).
    rewrite expand_runs. reflexivity.
  - apply expand_runs.
  - apply runs_good, Hall.
  - apply runs_maximal.
Qed.

Example rle_example :
  encodeRuns [] [63; 63; 63; 63; 63; 64; 64; 65; 126; 126; 126]
  = [33; 53; 63; 64; 64; 65; 126; 126; 126].
Proof. reflexivity. Qed.

End RunLengthFacts.

(** ** The geometry calculator *)

Module GeometryFacts.
Import Geometry.

Lemma int_small (z : Z) : Go.min_int <= z <= Go.max_int -> Go.int z = z.
Proof.
  unfold Go.int, Go.min_int, Go.max_int. intros H.
  rewrite Z.mod_small; lia.
Qed.

(** Whatever the two float conversions return, the final clamps put the
    result in the box of the terminal. *)
Lemma calculateOptimalRenderSize_in_box (W H CW CH : Z) :
  inBox CW CH (calculateOptimalRenderSize W H CW CH).
Proof.
  unfold calculateOptimalRenderSize, inBox, maxCells. cbv zeta.
  set (mh := Go.int (CH - 2)).
  set (mw' := if CW <? 10 then 10 else CW).
  set (mh' := if mh <? 5 then 5 else mh).
  assert (Hmw : mw' = Z.max 10 CW).
  { unfold mw'. destruct (Z.ltb_spec CW 10); lia. }
  assert (Hmh : mh' = Z.max 5 mh).
  { unfold mh'. destruct (Z.ltb_spec mh 5); lia. }
  generalize (Go.int_of_float64
                (Go.float64 mw' / (Go.float64 W / Go.float64 H) / 2)%float).
  generalize (Go.int_of_float64
                (Go.float64 mh' * (Go.float64 W / Go.float64 H) * 2)%float).
  intros w h.
  destruct (mh' <? h); cbn [fst snd];
    repeat match goal with
           | |- context [?a <? ?b] => destruct (Z.ltb_spec a b)
           end; cbn [fst snd]; lia.
Qed.


(** The truncation of the float quotient breaks it as well, away from the
    minimum: 6x35 on a 10x40 terminal gives 10x29 cells, and 10x58 pixels
    give 10x28, because 10 / (10/58) / 2 is computed just below 29. *)
Example truncation_loses_a_row :
  calculateOptimalRenderSize 6 35 10 40 = (10, 29)
  /\ calculateOptimalRenderSize 10 58 10 40 = (10, 28).
Proof. vm_compute. split; reflexivity. Qed.

(** It holds for a common case: a 16:9 source on an 80x24 terminal. *)
Example stable_on_80x24 :
  calculateOptimalRenderSize 1920 1080 80 24 = (80, 22)
  /\ calculateOptimalRenderSize 80 44 80 24 = (80, 22).
Proof. vm_compute. split; reflexivity. Qed.

(** On every terminal the calculation applied to the half-block pixel
    dimensions of its own result returns, like the first application, cell
    dimensions inside the terminal's box, 10 <= rw <= max(CW, 10) and
    5 <= rh <= max(CH - 2, 5); the two results are equal when that box is
    the single point 10x5. *)
Lemma second_application_stays_in_box (W H CW CH : Z) :
  let first := calculateOptimalRenderSize W H CW CH in
  let pixels := halfBlockPixels first in
  let second := calculateOptimalRenderSize (fst pixels) (snd pixels) CW CH in
  inBox CW CH first /\ inBox CW CH second
  /\ (maxCells CW CH = (10, 5) -> second = first).
Proof.
  intros first pixels second.
  pose proof (calculateOptimalRenderSize_in_box W H CW CH) as H1.
  pose proof (calculateOptimalRenderSize_in_box (fst pixels) (snd pixels) CW CH)
    as H2.
  fold first in H1. fold second in H2.
  split; [exact H1|]. split; [exact H2|].
  intros Hbox. unfold inBox in H1, H2. rewrite Hbox in H1, H2.
  cbn [fst snd] in H1, H2.
  destruct first as [w1 h1], second as [w2 h2]. cbn [fst snd] in H1, H2.
  f_equal; lia.
Qed.

(** C6: on a terminal of CW x CH cells (both non-negative, the products
    within [int]) the bitmap geometry is CW*10 pixels wide and CH*19 rounded
    down to a multiple of 6 pixels high. *)
Theorem C6_sixel_geometry (W H CW CH : Z) :
  0 <= CW -> CW * 10 <= Go.max_int ->
  0 <= CH -> CH * 19 <= Go.max_int ->
  calculateOptimalRenderSizeSixel W H CW CH = (CW * 10, CH * 19 / 6 * 6).
Proof.
  intros HCW HCWmax HCH HCHmax.
  unfold calculateOptimalRenderSizeSixel. cbv zeta.
  assert (Hmin : Go.min_int < 0) by (vm_compute; reflexivity).
  rewrite (int_small (CW * 10)) by lia.
  rewrite (int_small (CH * 19)) by lia.
  unfold Go.div. rewrite Z.quot_div_nonneg by lia.
  pose proof (Z.div_mod (CH * 19) 6 ltac:(lia)) as Hdm.
  pose proof (Z.mod_pos_bound (CH * 19) 6 ltac:(lia)) as Hmod.
  rewrite int_small by lia.
  reflexivity.
Qed.

(** The scenario of the specification: 80x25 cells give 800x474 pixels. *)
Lemma C6_sixel_geometry_80x25 :
  calculateOptimalRenderSizeSixel 160 90 80 25 = (800, 474).
Proof.
  apply (C6_sixel_geometry 160 90 80 25); unfold Go.max_int; lia.
Defined.

(** C7: for every input, degenerate ones included, the render width is at
    least 10 and the render height at least 5, so neither is zero; on a
    0x0 terminal the result is exactly 10x5. *)
Theorem C7_minimum_render_size (W H CW CH : Z) :
  10 <= fst (calculateOptimalRenderSize W H CW CH)
  /\ 5 <= snd (calculateOptimalRenderSize W H CW CH)
  /\ calculateOptimalRenderSize W H 0 0 = (10, 5).
Proof.
  pose proof (calculateOptimalRenderSize_in_box W H CW CH) as Hbox.
  pose proof (calculateOptimalRenderSize_in_box W H 0 0) as H0.
  unfold inBox in *.
  change (maxCells 0 0) with (10, 5) in H0. cbn [fst snd] in H0.
  repeat split; try lia.
  destruct (calculateOptimalRenderSize W H 0 0) as [w h].
  cbn [fst snd] in H0. f_equal; lia.
Qed.

End GeometryFacts.

(** ** The capability probe *)

Module CapabilityFacts.
Import Capability.

(** C9, as stated, fails: with [LANG=C], no other locale variable and no
    Windows marker, the specification's rule says "unsupported" and
    [detectUnicodeSupport] returns true. *)
Lemma C9_posix_C_locale_reports_unicode :
  detectUnicodeSupport posixC = true
  /\ unicodeSupport_spec posixC = false
  /\ detectUnicodeSupport posixC <> unicodeSupport_spec posixC.
Proof. vm_compute. repeat split; try reflexivity. discriminate. Qed.

(** C9, amended: [detectUnicodeSupport] returns true in every environment;
    the locale markers and the Windows check select among three branches
    that all give the same answer. *)
Theorem C9_unicode_always_reported (getenv : environ) :
  detectUnicodeSupport getenv = true.
Proof.
  unfold detectUnicodeSupport. cbv zeta.
  destruct (Contains _ "UTF-8" || Contains _ "UTF8")%bool; [reflexivity|].
  destruct (getenv "OS" =? "Windows_NT")%string; reflexivity.
Qed.

End CapabilityFacts.

(** ** The video frame loop *)

Module PlaybackFacts.
Import Playback.

(** No step writes [FramesDropped]. *)
Lemma step_FramesDropped (s : state) (e : event) :
  FramesDropped (stats (step s e)) = FramesDropped (stats s).
Proof.
  destruct e as [| |ok]; cbn [step]; unfold produce, endOfInput, consume.
  - destruct (closed s); [reflexivity|].
    destruct (_ <? _)%nat; reflexivity.
  - reflexivity.
  - destruct (finished s); [reflexivity|].
    destruct (frameChan s); [reflexivity|].
    destruct ok; reflexivity.
Qed.

(** The drop counter is zero after every run. *)
Lemma FramesDropped_stays_zero (evs : list event) :
  FramesDropped (stats (run evs)) = 0.
Proof.
  unfold run.
  assert (H : forall s, FramesDropped (stats (fold_left step evs s))
                        = FramesDropped (stats s)).
  { induction evs as [|e evs IH]; intros s; [reflexivity|].
    cbn [fold_left]. rewrite IH. apply step_FramesDropped. }
  rewrite H. reflexivity.
Qed.

(** The frame index never regresses. *)
Lemma step_frameIndex_monotone (s : state) (e : event) :
  frameIndex s <= frameIndex (step s e).
Proof.
  destruct e as [| |ok]; cbn [step]; unfold produce, endOfInput, consume.
  - destruct (closed s); [lia|].
    destruct (_ <? _)%nat; cbn [frameIndex]; lia.
  - cbn [frameIndex]. lia.
  - destruct (finished s); [lia|].
    destruct (frameChan s); [cbn [frameIndex]; lia|].
    destruct ok; cbn [frameIndex]; lia.
Qed.

Lemma step_closed (s : state) (e : event) :
  closed (step s e) = match e with ReadFailed => true | _ => closed s end.
Proof.
  destruct e as [| |ok]; cbn [step]; unfold produce, endOfInput, consume.
  - destruct (closed s) eqn:Hc; [exact Hc|].
    destruct (_ <? _)%nat; reflexivity.
  - reflexivity.
  - destruct (finished s); [reflexivity|].
    destruct (frameChan s); [reflexivity|].
    destruct ok; reflexivity.
Qed.

Lemma step_frameIndex (s : state) (e : event) :
  frameIndex (step s e)
  = frameIndex s
    + match e with FrameRead => if closed s then 0 else 1 | _ => 0 end.
Proof.
  destruct e as [| |ok]; cbn [step]; unfold produce, endOfInput, consume.
  - destruct (closed s); [lia|].
    destruct (_ <? _)%nat; cbn [frameIndex]; lia.
  - cbn [frameIndex]. lia.
  - destruct (finished s); [lia|].
    destruct (frameChan s); [cbn [frameIndex]; lia|].
    destruct ok; cbn [frameIndex]; lia.
Qed.

(** The frame index counts every frame pulled from the decoder, sent or
    dropped. *)
Lemma frameIndex_counts_pulled (evs : list event) :
  frameIndex (run evs) = framesPulled true evs.
Proof.
  unfold run.
  assert (H : forall s, frameIndex (fold_left step evs s)
                        = frameIndex s + framesPulled (negb (closed s)) evs).
  { induction evs as [|e evs IH]; intros s; [cbn; lia|].
    cbn [fold_left]. rewrite IH, step_frameIndex, step_closed.
    destruct e as [| |ok]; cbn [framesPulled negb]; [|lia|lia].
    destruct (closed s); cbn [negb]; lia. }
  rewrite H. cbn. lia.
Qed.

(** C8, at the failing input.  After the first frame is taken, six frames
    are read before the consumer's next turn: the last of them meets a full
    channel and is skipped.  The frame index advances to 7 and six frames
    are rendered, but [FramesDropped] is still 0, so rendered + dropped is
    6 and not the 7 frames pulled. *)
Theorem C8_dropped_frame_is_not_counted :
  let s := run burst in
  framesPulled true burst = 7
  /\ frameIndex s = 7
  /\ FramesRendered (stats s) = 6
  /\ FramesDropped (stats s) = 0
  /\ FramesRendered (stats s) + FramesDropped (stats s)
     <> framesPulled true burst.
Proof. vm_compute. repeat split; try reflexivity. discriminate. Qed.

End PlaybackFacts.

(** ** The indexed-block renderer: the values it can produce *)

Module ASCIIRendererRange.
Import ASCIIRenderer ByteFacts ASCIIRendererFacts.

(** For a pixel whose channels are not all equal, the colour code depends
    only on which channels are exactly 128: it is
    16 + 36*[r = 128] + 6*[g = 128] + [b = 128], one of eight codes between
    16 and 59. *)
Theorem cube_code_only_sees_128 (r g b : Z) :
  0 <= r < 256 -> 0 <= g < 256 -> 0 <= b < 256 ->
  ~ (r = g /\ g = b) ->
  rgbToAnsi256 r g b
  = 16 + 36 * (if r =? 128 then 1 else 0)
       + 6 * (if g =? 128 then 1 else 0)
       + (if b =? 128 then 1 else 0).
Proof.
  intros Hr Hg Hb Hne. unfold rgbToAnsi256.
  destruct ((r =? g) && (g =? b)) eqn:Hgray.
  - apply andb_true_iff in Hgray. destruct Hgray as [H1 H2].
    apply Z.eqb_eq in H1, H2. tauto.
  - cbv zeta. rewrite !cubeLevel_bytes by assumption.
    destruct (r =? 128), (g =? 128), (b =? 128); reflexivity.
Qed.

Lemma cube_code_only_sees_128_witness :
  rgbToAnsi256 128 255 0 = 16 + 36 * 1 + 6 * 0 + 0.
Proof.
  apply (cube_code_only_sees_128 128 255 0); lia.
Defined.

(** For a grey pixel (v, v, v) the code is 16 below 8, 231 above 248, and
    otherwise 232 or 233: the grey step is computed on [uint8], where
    (v - 8) * 23 wraps, and never passes the second entry of the ramp. *)
Theorem gray_code_stays_at_ramp_start (v : Z) :
  0 <= v < 256 ->
  (v < 8 -> rgbToAnsi256 v v v = 16)
  /\ (248 < v -> rgbToAnsi256 v v v = 231)
  /\ (8 <= v <= 248 -> 232 <= rgbToAnsi256 v v v <= 233).
Proof.
  intros Hv. unfold rgbToAnsi256. rewrite !Z.eqb_refl. cbn [andb].
  pose proof (grayStep_range v) as Hstep.
  destruct (Z.ltb_spec v 8), (Z.ltb_spec 248 v); repeat split; intros; lia.
Qed.

Lemma gray_code_stays_at_ramp_start_witness :
  232 <= rgbToAnsi256 200 200 200 <= 233.
Proof.
  apply (gray_code_stays_at_ramp_start 200); lia.
Defined.

(** With the default options (brightness 0, contrast 1) [adjustPixel] is
    not the identity: the float round trip through [0, 1] returns the value
    or the value less one; from 64 on the value is kept. *)
Theorem adjustPixel_default_loses_at_most_one (v : Z) :
  0 <= v < 256 ->
  v - 1 <= adjustPixel v 0 1 <= v
  /\ (64 <= v -> adjustPixel v 0 1 = v)
  /\ adjustPixel 0 0 1 = 0 /\ adjustPixel 1 0 1 = 0.
Proof.
  intros Hv.
  pose proof (forall_byte
    (fun v => (v - 1 <=? adjustPixel v 0 1) && (adjustPixel v 0 1 <=? v)
              && ((v <? 64) || (adjustPixel v 0 1 =? v)))) as H.
  specialize (H ltac:(vm_compute; reflexivity) v Hv). cbv beta in H.
  apply andb_true_iff in H. destruct H as [H H3].
  apply andb_true_iff in H. destruct H as [H1 H2].
  apply orb_true_iff in H3.
  repeat split; try lia; try (vm_compute; reflexivity).
Qed.

Lemma adjustPixel_default_witness :
  200 - 1 <= adjustPixel 200 0 1 <= 200
  /\ (64 <= 200 -> adjustPixel 200 0 1 = 200)
  /\ adjustPixel 0 0 1 = 0 /\ adjustPixel 1 0 1 = 0.
Proof.
  apply (adjustPixel_default_loses_at_most_one 200); lia.
Defined.

(** The ramp index of an adjusted luminance is the integer
    [adjusted * 9 / 255]: the float computation never falls below it. *)
Lemma grayCharIndex_bytes (a : Z) :
  0 <= a < 256 -> grayCharIndex a = a * 9 / 255.
Proof.
  intros Ha. apply Z.eqb_eq.
  apply (forall_byte (fun a => grayCharIndex a =? a * 9 / 255));
    [vm_compute; reflexivity | exact Ha].
Qed.

Lemma adjustPixel_byte (v : Z) (brightness contrast : float) :
  0 <= adjustPixel v brightness contrast < 256.
Proof. unfold adjustPixel. cbv zeta. apply uint8_range. Qed.

(** The grayscale loop never indexes outside the ramp: for every
    luminance, brightness and contrast the index is [adjusted * 9 / 255],
    between 0 and 9, and a character of the ramp is written; only the
    adjusted value 255 gives the last character. *)
Theorem gray_cell_stays_in_ramp (y : Z) (brightness contrast : float) :
  let adjusted := adjustPixel y brightness contrast in
  grayCharIndex adjusted = adjusted * 9 / 255
  /\ 0 <= grayCharIndex adjusted <= 9
  /\ (grayCharIndex adjusted = 9 <-> adjusted = 255)
  /\ exists ch, renderGrayCell y brightness contrast = Some ch.
Proof.
  intros adjusted.
  pose proof (adjustPixel_byte y brightness contrast) as Hb.
  fold adjusted in Hb.
  pose proof (grayCharIndex_bytes adjusted Hb) as Hidx.
  assert (Hrange : 0 <= adjusted * 9 / 255 <= 9).
  { split; [apply Z.div_pos; lia|].
    apply Z.div_le_upper_bound; lia. }
  split; [exact Hidx|]. split; [lia|]. split.
  - rewrite Hidx. split; intros H.
    + assert (255 * 9 <= adjusted * 9); [|lia].
      pose proof (Z.mul_div_le (adjusted * 9) 255 ltac:(lia)). lia.
    + rewrite H. reflexivity.
  - unfold renderGrayCell. fold adjusted. unfold byteAt.
    destruct (Z.ltb_spec (grayCharIndex adjusted) 0); [lia|].
    assert (Hcases : In (grayCharIndex adjusted) [0;1;2;3;4;5;6;7;8;9]).
    { simpl. lia. }
    simpl in Hcases.
    destruct Hcases as [<-|[<-|[<-|[<-|[<-|[<-|[<-|[<-|[<-|[<-|[]]]]]]]]]]];
      eexists; reflexivity.
Qed.

End ASCIIRendererRange.

(** ** The bitmap renderer: the palette *)

Module PaletteFacts.
Import SixelRenderer ByteFacts QuantizationFacts.

Lemma sameEntry_eq (a b : Z * Z * Z * Z) : sameEntry a b = true -> a = b.
Proof.
  destruct a as [[[i r] g] b'], b as [[[j r'] g'] b''].
  unfold sameEntry. rewrite !andb_true_iff, !Z.eqb_eq.
  intros [[[-> ->] ->] ->]. reflexivity.
Qed.

Lemma sameColor_complete (a b : Z * Z * Z) : a = b -> sameColor a b = true.
Proof.
  intros <-. destruct a as [[r g] b']. unfold sameColor.
  rewrite !Z.eqb_refl. reflexivity.
Qed.

(** The register at position [idx] is register [idx], with the levels
    [idx / 32], [idx / 4 mod 8] and [idx mod 4]. *)
Lemma registerAt_levels (idx : Z) :
  0 <= idx < 256 ->
  registerAt idx
  = (idx, gammaCorrect (idx / 32) 7, gammaCorrect (idx / 4 mod 8) 7,
     gammaCorrect (idx mod 4) 3).
Proof.
  intros Hidx. apply sameEntry_eq.
  apply (forall_byte
           (fun idx =>
              sameEntry (registerAt idx)
                (idx, gammaCorrect (idx / 32) 7,
                 gammaCorrect (idx / 4 mod 8) 7, gammaCorrect (idx mod 4) 3)));
    [vm_compute; reflexivity | exact Hidx].
Qed.

Lemma register_percent_range (idx : Z) :
  0 <= idx < 256 ->
  let '(r, g, b) := entryColor (registerAt idx) in
  0 <= r <= 100 /\ 0 <= g <= 100 /\ 0 <= b <= 100.
Proof.
  intros Hidx.
  pose proof (forall_byte
    (fun idx => let '(r, g, b) := entryColor (registerAt idx) in
                (0 <=? r) && (r <=? 100) && (0 <=? g) && (g <=? 100)
                && (0 <=? b) && (b <=? 100))) as H.
  specialize (H ltac:(vm_compute; reflexivity) idx Hidx). cbv beta in H.
  destruct (entryColor (registerAt idx)) as [[r g] b].
  rewrite !andb_true_iff in H. lia.
Qed.

Lemma register_colors_distinct (i j : Z) :
  0 <= i < 256 -> 0 <= j < 256 ->
  entryColor (registerAt i) = entryColor (registerAt j) -> i = j.
Proof.
  intros Hi Hj Heq. apply sameColor_complete in Heq.
  pose proof (forall_byte
    (fun i => forallb
       (fun j => (i =? j)
                 || negb (sameColor (entryColor (registerAt i))
                                    (entryColor (registerAt j))))
       Go.bytes)) as H.
  specialize (H ltac:(vm_compute; reflexivity) i Hi). cbv beta in H.
  rewrite forallb_forall in H. specialize (H j (in_bytes j Hj)).
  rewrite Heq in H. cbn [negb] in H. rewrite orb_false_r in H.
  apply Z.eqb_eq, H.
Qed.

(** [generatePalette] defines the 256 registers 0..255, each once and in
    ascending order: the entry at position [i] is register [i], with the
    percentages of the levels [i / 32], [i / 4 mod 8] and [i mod 4], each
    between 0 and 100; two different registers never get the same colour. *)
Theorem palette_defines_each_register_once (i j : Z) :
  0 <= i < 256 -> 0 <= j < 256 ->
  List.length paletteEntries = 256%nat
  /\ registerAt i
     = (i, gammaCorrect (i / 32) 7, gammaCorrect (i / 4 mod 8) 7,
        gammaCorrect (i mod 4) 3)
  /\ (let '(r, g, b) := entryColor (registerAt i) in
      0 <= r <= 100 /\ 0 <= g <= 100 /\ 0 <= b <= 100)
  /\ (entryColor (registerAt i) = entryColor (registerAt j) -> i = j).
Proof.
  intros Hi Hj.
  split; [vm_compute; reflexivity|].
  split; [apply registerAt_levels, Hi|].
  split; [apply register_percent_range, Hi|].
  apply register_colors_distinct; assumption.
Qed.

Lemma palette_defines_each_register_once_witness :
  List.length paletteEntries = 256%nat
  /\ registerAt 37
     = (37, gammaCorrect (37 / 32) 7, gammaCorrect (37 / 4 mod 8) 7,
        gammaCorrect (37 mod 4) 3)
  /\ (let '(r, g, b) := entryColor (registerAt 37) in
      0 <= r <= 100 /\ 0 <= g <= 100 /\ 0 <= b <= 100)
  /\ (entryColor (registerAt 37) = entryColor (registerAt 200) -> 37 = 200).
Proof.
  apply (palette_defines_each_register_once 37 200); lia.
Defined.

(** The index that [colorToPalette] computes for a pixel always names a
    register of the palette, and packs the three levels without overlap:
    the register's colour is the gamma percentage of the pixel's red, green
    and blue level. *)
Theorem pixel_index_selects_its_levels (r g b : Z) :
  0 <= r < 256 -> 0 <= g < 256 -> 0 <= b < 256 ->
  let idx := colorToPalette r g b in
  0 <= idx < 256
  /\ idx / 32 = level r scale8
  /\ idx / 4 mod 8 = level g scale8
  /\ idx mod 4 = level b scale4
  /\ registerAt idx
     = (idx, gammaCorrect (level r scale8) 7,
        gammaCorrect (level g scale8) 7, gammaCorrect (level b scale4) 3).
Proof.
  intros Hr Hg Hb idx.
  pose proof (colorToPalette_bytes r g b Hr Hg Hb) as Hidx. fold idx in Hidx.
  pose proof (level8_range r Hr) as Lr.
  pose proof (level8_range g Hg) as Lg.
  pose proof (level4_range b Hb) as Lb.
  assert (Hrange : 0 <= idx < 256) by lia.
  assert (H32 : idx / 32 = level r scale8).
  { symmetry. apply (Z.div_unique idx 32 _ (level g scale8 * 4 + level b scale4));
      lia. }
  assert (H4 : idx / 4 = level r scale8 * 8 + level g scale8).
  { symmetry. apply (Z.div_unique idx 4 _ (level b scale4)); lia. }
  assert (Hg8 : idx / 4 mod 8 = level g scale8).
  { rewrite H4. symmetry.
    apply (Z.mod_unique _ 8 (level r scale8)); lia. }
  assert (Hb4 : idx mod 4 = level b scale4).
  { symmetry.
    apply (Z.mod_unique idx 4 (level r scale8 * 8 + level g scale8)); lia. }
  repeat split; try lia.
  rewrite registerAt_levels by exact Hrange.
  rewrite H32, Hg8, Hb4. reflexivity.
Qed.

Lemma pixel_index_selects_its_levels_witness :
  0 <= colorToPalette 255 128 0 < 256
  /\ colorToPalette 255 128 0 / 32 = level 255 scale8
  /\ colorToPalette 255 128 0 / 4 mod 8 = level 128 scale8
  /\ colorToPalette 255 128 0 mod 4 = level 0 scale4
  /\ registerAt (colorToPalette 255 128 0)
     = (colorToPalette 255 128 0, gammaCorrect (level 255 scale8) 7,
        gammaCorrect (level 128 scale8) 7, gammaCorrect (level 0 scale4) 3).
Proof.
  apply (pixel_index_selects_its_levels 255 128 0); lia.
Defined.

End PaletteFacts.

(** ** The bitmap renderer: columns, passes and the stream *)

Module SixelStreamFacts.
Import SixelRenderer ByteFacts RunLengthFacts.

(** One round of the bit loop: bit [dy] is added, no other bit changes. *)
Lemma setBit_testbit (s dy k : Z) :
  0 <= s < 64 -> In dy [0; 1; 2; 3; 4; 5] -> 0 <= k ->
  Z.testbit (Go.uint8 (Z.lor s (Go.uint8 (Z.shiftl 1 dy)))) k
  = Z.testbit s k || (k =? dy).
Proof.
  intros Hs Hdy Hk.
  assert (Hdy' : 0 <= dy < 6) by (simpl in Hdy; lia).
  assert (Hbit : Go.uint8 (Z.shiftl 1 dy) = 2 ^ dy).
  { rewrite Z.shiftl_1_l. apply uint8_small.
    simpl in Hdy.
    destruct Hdy as [<-|[<-|[<-|[<-|[<-|[<-|[]]]]]]]; simpl; lia. }
  rewrite Hbit.
  assert (Hpow : 0 <= 2 ^ dy < 2 ^ 6).
  { split; [apply Z.pow_nonneg; lia|]. apply Z.pow_lt_mono_r; lia. }
  pose proof (lor_below_pow2 s (2 ^ dy) 6 Hs Hpow) as Hlor.
  change (2 ^ 6) with 64 in Hlor.
  rewrite uint8_small by lia.
  rewrite Z.lor_spec, Z.pow2_bits_eqb by lia.
  rewrite (Z.eqb_sym dy k). reflexivity.
Qed.

Lemma sixelBits_fold (pixels : list Z) (width height y6 colorIdx x k : Z) :
  0 <= k ->
  forall l s, incl l [0; 1; 2; 3; 4; 5] -> 0 <= s < 64 ->
    let s' :=
      fold_left
        (fun sixel dy =>
           if y6 + dy <? height then
             if nth (Z.to_nat ((y6 + dy) * width + x)) pixels 0
                =? Go.uint8 colorIdx
             then Go.uint8 (Z.lor sixel (Go.uint8 (Z.shiftl 1 dy)))
             else sixel
           else sixel) l s in
    0 <= s' < 64
    /\ Z.testbit s' k
       = Z.testbit s k
         || existsb
              (fun dy =>
                 (k =? dy) && pixelHasColor pixels width height y6 colorIdx x dy)
              l.
Proof.
  intros Hk. induction l as [|dy l IH]; intros s Hl Hs.
  - cbn. rewrite orb_false_r. split; [exact Hs|reflexivity].
  - cbn [fold_left existsb].
    assert (Hdy : In dy [0; 1; 2; 3; 4; 5]) by (apply Hl; left; reflexivity).
    assert (Hl' : incl l [0; 1; 2; 3; 4; 5]).
    { intros d Hd. apply Hl. right. exact Hd. }
    unfold pixelHasColor at 1.
    destruct (y6 + dy <? height); cbn [andb].
    + destruct (_ =? Go.uint8 colorIdx).
      * assert (Hs' : 0 <= Go.uint8 (Z.lor s (Go.uint8 (Z.shiftl 1 dy))) < 64).
        { assert (Hbit : 0 <= Go.uint8 (Z.shiftl 1 dy) < 2 ^ 6).
          { simpl in Hdy.
            destruct Hdy as [<-|[<-|[<-|[<-|[<-|[<-|[]]]]]]]; vm_compute;
              split; congruence. }
          pose proof (lor_below_pow2 s _ 6 Hs Hbit) as Hlor.
          change (2 ^ 6) with 64 in Hlor.
          rewrite uint8_small; lia. }
        destruct (IH _ Hl' Hs') as [Hr Ht]. split; [exact Hr|].
        rewrite Ht, setBit_testbit by assumption.
        rewrite andb_true_r, orb_assoc. reflexivity.
      * destruct (IH _ Hl' Hs) as [Hr Ht]. split; [exact Hr|].
        rewrite Ht, andb_false_r. reflexivity.
    + destruct (IH _ Hl' Hs) as [Hr Ht]. split; [exact Hr|].
      rewrite Ht, andb_false_r. reflexivity.
Qed.

(** Bit [k] of a column's sixel is set exactly when row [y6 + k] is inside
    the buffer and its pixel in that column has the colour of the pass; the
    character is 63 plus the six bits. *)
Theorem sixel_bit_marks_the_pixel
  (pixels : list Z) (width height y6 colorIdx x k : Z) :
  0 <= k < 6 ->
  Z.testbit (sixelBits pixels width height y6 colorIdx x) k
  = pixelHasColor pixels width height y6 colorIdx x k
  /\ sixelChar pixels width height y6 colorIdx x
     = 63 + sixelBits pixels width height y6 colorIdx x.
Proof.
  intros Hk. split.
  - unfold sixelBits.
    destruct (sixelBits_fold pixels width height y6 colorIdx x k ltac:(lia)
                [0; 1; 2; 3; 4; 5] 0 (incl_refl _) ltac:(lia)) as [_ Ht].
    rewrite Ht. rewrite Z.bits_0. cbn [orb existsb].
    assert (Hcases : In k [0; 1; 2; 3; 4; 5]) by (simpl; lia).
    simpl in Hcases.
    destruct Hcases as [<-|[<-|[<-|[<-|[<-|[<-|[]]]]]]]; cbn [Z.eqb Pos.eqb andb orb];
      rewrite ?orb_false_r; reflexivity.
  - unfold sixelChar.
    pose proof (sixelBits_range pixels width height y6 colorIdx x).
    apply uint8_small. lia.
Qed.

Lemma sixel_bit_marks_the_pixel_witness :
  Z.testbit (sixelBits [1; 2; 1; 1] 2 2 0 1 0) 1
  = pixelHasColor [1; 2; 1; 1] 2 2 0 1 0 1
  /\ sixelChar [1; 2; 1; 1] 2 2 0 1 0 = 63 + sixelBits [1; 2; 1; 1] 2 2 0 1 0.
Proof.
  apply (sixel_bit_marks_the_pixel [1; 2; 1; 1] 2 2 0 1 0 1); lia.
Defined.


Lemma in_columns (width x : Z) : 0 <= x < width -> In x (columns width).
Proof.
  intros Hx. unfold columns.
  replace x with (Z.of_nat (Z.to_nat x)) by lia.
  apply in_map, in_seq. lia.
Qed.

Lemma columns_range (width x : Z) : In x (columns width) -> 0 <= x < width.
Proof.
  unfold columns. intros Hx. apply in_map_iff in Hx.
  destruct Hx as [n [<- Hn]]. apply in_seq in Hn. lia.
Qed.

(** Every pixel of a band is drawn by exactly one colour pass: the pass of
    the pixel's own palette index has the pixel's bit set, every other pass
    has it clear, and the pixel's colour is among the colours the band
    emits. *)
Theorem each_pixel_is_drawn_by_its_own_pass
  (pixels : list Z) (width height y6 x k c : Z) :
  0 <= x < width -> 0 <= k < 6 -> y6 + k < height ->
  0 <= c < 256 ->
  let p := nth (Z.to_nat ((y6 + k) * width + x)) pixels 0 in
  usedInBand pixels width height y6 p = true
  /\ Z.testbit (sixelBits pixels width height y6 c x) k = (p =? c).
Proof.
  intros Hx Hk Hrow Hc p. split.
  - unfold usedInBand. apply existsb_exists. exists k. split.
    + simpl. lia.
    + apply andb_true_iff. split; [apply Z.ltb_lt, Hrow|].
      apply existsb_exists. exists x. split; [apply in_columns, Hx|].
      apply Z.eqb_refl.
  - destruct (sixelBits_fold pixels width height y6 c x k ltac:(lia)
                [0; 1; 2; 3; 4; 5] 0 (incl_refl _) ltac:(lia)) as [_ Ht].
    unfold sixelBits. rewrite Ht, Z.bits_0. cbn [orb existsb].
    assert (Hp : pixelHasColor pixels width height y6 c x k = (p =? c)).
    { unfold pixelHasColor. fold p.
      destruct (Z.ltb_spec (y6 + k) height); [|lia].
      rewrite uint8_small by exact Hc. reflexivity. }
    rewrite <- Hp.
    assert (Hcases : In k [0; 1; 2; 3; 4; 5]) by (simpl; lia).
    simpl in Hcases.
    destruct Hcases as [<-|[<-|[<-|[<-|[<-|[<-|[]]]]]]];
      cbn [Z.eqb Pos.eqb andb orb]; rewrite ?orb_false_r; reflexivity.
Qed.

Lemma each_pixel_is_drawn_by_its_own_pass_witness :
  usedInBand [1; 2; 1; 1] 2 2 0 (nth (Z.to_nat ((0 + 1) * 2 + 0)) [1; 2; 1; 1] 0)
  = true
  /\ Z.testbit (sixelBits [1; 2; 1; 1] 2 2 0 2 0) 1
     = (nth (Z.to_nat ((0 + 1) * 2 + 0)) [1; 2; 1; 1] 0 =? 2).
Proof.
  apply (each_pixel_is_drawn_by_its_own_pass [1; 2; 1; 1] 2 2 0 0 1 2); lia.
Defined.

(** *** The length of the run-length data *)

Lemma digits_length (fuel : nat) :
  forall n, 0 <= n < 2 ^ Z.of_nat fuel -> fuel <> O ->
    Z.of_nat (List.length (digits fuel n)) <= Z.max 1 (n - 2).
Proof.
  induction fuel as [|fuel IH]; intros n Hn Hfuel; [contradiction|].
  cbn [digits].
  destruct (Z.eqb_spec (n / 10) 0) as [Hq|Hq]; [cbn; lia|].
  assert (Hq' : 0 < n / 10).
  { pose proof (Z.div_pos n 10). lia. }
  assert (Hn10 : 10 <= n).
  { destruct (Z.lt_ge_cases n 10) as [Hlt|]; [|assumption].
    rewrite Z.div_small in Hq' by lia. lia. }
  assert (Hfuel' : fuel <> O).
  { intros ->. change (2 ^ Z.of_nat 1) with 2 in Hn. lia. }
  assert (Hb : n / 10 < 2 ^ Z.of_nat fuel).
  { rewrite Nat2Z.inj_succ, Z.pow_succ_r in Hn by lia.
    apply Z.div_lt_upper_bound; lia. }
  specialize (IH (n / 10) ltac:(lia) Hfuel').
  rewrite length_app, Nat2Z.inj_add. cbn [List.length].
  assert (n / 10 * 10 <= n).
  { pose proof (Z.mul_div_le n 10 ltac:(lia)). lia. }
  lia.
Qed.

Lemma formatInt_length (n : Z) :
  4 <= n -> Z.of_nat (List.length (formatInt n)) + 2 <= n.
Proof.
  intros Hn. unfold formatInt.
  destruct (Z.ltb_spec n 0); [lia|].
  pose proof (digits_length (S (Z.to_nat (Z.log2 n))) n) as Hlen.
  rewrite Nat2Z.inj_succ, Z2Nat.id in Hlen by apply Z.log2_nonneg.
  pose proof (Z.log2_spec n ltac:(lia)).
  specialize (Hlen ltac:(lia) ltac:(lia)). lia.
Qed.

Lemma emitRun_length (c n : Z) :
  1 <= n -> Z.of_nat (List.length (emitRun (c, n))) <= n.
Proof.
  intros Hn. unfold emitRun.
  destruct (Z.leb_spec 4 n).
  - cbn [List.length]. rewrite length_app. cbn [List.length].
    pose proof (formatInt_length n ltac:(lia)). lia.
  - rewrite repeat_length. lia.
Qed.

Lemma emitRuns_length (rs : list (Z * Z)) :
  Forall (goodRun (fun _ => True)) rs ->
  (List.length (flat_map emitRun rs) <= List.length (flat_map expandRun rs))%nat.
Proof.
  induction 1 as [|[c n] rs [_ Hn] _ IH]; [apply le_n|].
  cbn [flat_map]. rewrite !length_app.
  cbn [snd] in Hn.
  pose proof (emitRun_length c n Hn).
  unfold expandRun at 1. cbn [fst snd]. rewrite repeat_length. lia.
Qed.

(** Run-length encoding never makes a colour pass longer: the sixel data
    of a pass has at most as many bytes as the band has columns. *)
Theorem color_pass_is_no_longer_than_the_band
  (pixels : list Z) (width height y6 colorIdx : Z) :
  (List.length (colorPass [] pixels width height y6 colorIdx)
   <= Z.to_nat width)%nat.
Proof.
  rewrite colorPass_encodeRuns.
  pose proof (passSixels_isSixel pixels width height y6 colorIdx) as Hall.
  rewrite encodeRuns_runs by exact Hall. cbn [app].
  etransitivity.
  - apply emitRuns_length. apply runs_good. apply Forall_forall. trivial.
  - rewrite expand_runs. unfold passSixels, columns.
    rewrite !length_map, length_seq. apply le_n.
Qed.


(** *** The bytes of the stream *)

Lemma digit_printable (d : Z) : isDigit d = true -> printable d.
Proof. unfold isDigit, printable. lia. Qed.

Lemma formatInt_printable (n : Z) : 0 <= n -> Forall printable (formatInt n).
Proof.
  intros Hn. destruct (formatInt_sound n Hn) as [_ Hds].
  eapply Forall_impl; [|exact Hds]. intros d. apply digit_printable.
Qed.

Lemma emitRun_printable (run : Z * Z) :
  goodRun isSixel run -> Forall printable (emitRun run).
Proof.
  destruct run as [c n]. intros [Hc Hn]. cbn [fst snd] in Hc, Hn.
  assert (Pc : printable c) by (unfold isSixel, printable in *; lia).
  unfold emitRun. destruct (4 <=? n).
  - constructor; [unfold printable; lia|].
    apply Forall_app. split; [apply formatInt_printable; lia|].
    constructor; [exact Pc|constructor].
  - apply Forall_forall. intros b Hb. apply repeat_spec in Hb. subst. exact Pc.
Qed.

Lemma colorPass_printable
  (sb : builder) (pixels : list Z) (width height y6 colorIdx : Z) :
  exists data,
    colorPass sb pixels width height y6 colorIdx = sb ++ data
    /\ Forall printable data.
Proof.
  pose proof (passSixels_isSixel pixels width height y6 colorIdx) as Hall.
  eexists. split.
  - rewrite colorPass_encodeRuns. apply encodeRuns_runs, Hall.
  - apply Forall_flat_map. apply runs_good in Hall.
    eapply Forall_impl; [|exact Hall]. intros run. apply emitRun_printable.
Qed.

(** A loop whose every round appends printable bytes appends printable
    bytes. *)
Lemma fold_appends_printable {A : Type} (f : list Z -> A -> list Z)
  (l : list A) :
  (forall sb a, In a l ->
     exists d, f sb a = sb ++ d /\ Forall printable d) ->
  forall sb, exists d, fold_left f l sb = sb ++ d /\ Forall printable d.
Proof.
  induction l as [|a l IH]; intros Hf sb.
  - exists []. split; [symmetry; apply app_nil_r|constructor].
  - cbn [fold_left].
    destruct (Hf sb a (or_introl eq_refl)) as [d1 [-> P1]].
    destruct (IH (fun sb' a' Ha => Hf sb' a' (or_intror Ha)) (sb ++ d1))
      as [d2 [-> P2]].
    exists (d1 ++ d2). split; [symmetry; apply app_assoc|].
    apply Forall_app. split; assumption.
Qed.

Lemma encodeBand_printable
  (sb : builder) (pixels : list Z) (width height y6 : Z) :
  exists d, encodeBand sb pixels width height y6 = sb ++ d
            /\ Forall printable d.
Proof.
  unfold encodeBand, builder.
  match goal with |- context [fold_left ?f _ _] =>
    destruct (fold_appends_printable f (columns 256)) with (sb := sb)
      as [d [-> Pd]]
  end.
  - intros sb' c Hc. apply columns_range in Hc.
    destruct (usedInBand pixels width height y6 c).
    + destruct (colorPass_printable (sb' ++ 35 :: formatInt c) pixels width
                  height y6 c) as [data [-> Pdata]].
      exists ((35 :: formatInt c) ++ data ++ [36]). split.
      * rewrite <- !app_assoc. reflexivity.
      * apply Forall_app. split.
        -- constructor; [unfold printable; lia|apply formatInt_printable; lia].
        -- apply Forall_app. split; [exact Pdata|].
           constructor; [unfold printable; lia|constructor].
    + exists []. split; [symmetry; apply app_nil_r|constructor].
  - exists (d ++ [45]). split; [symmetry; apply app_assoc|].
    apply Forall_app. split; [exact Pd|].
    constructor; [unfold printable; lia|constructor].
Qed.

Lemma generatePalette_printable : Forall printable generatePalette.
Proof.
  apply Forall_forall. intros b Hb.
  assert (H : forallb (fun b => (33 <=? b) && (b <=? 126)) generatePalette
              = true) by (vm_compute; reflexivity).
  rewrite forallb_forall in H. specialize (H b Hb). unfold printable. lia.
Qed.

(** On a buffer that holds [width * height] entries no read of
    [encodeSixel] leaves the buffer. *)
Lemma readsInBuffer_fits (pixels : list Z) (width height : Z) :
  0 <= width -> 0 <= height ->
  width * height <= Z.of_nat (List.length pixels) <= Go.max_int ->
  readsInBuffer pixels width height = true.
Proof.
  intros Hw Hh Hlen. unfold readsInBuffer.
  assert (Hmin : Go.min_int < 0) by (vm_compute; reflexivity).
  apply forallb_forall. intros y Hy. apply columns_range in Hy.
  apply forallb_forall. intros x Hx. apply columns_range in Hx.
  assert (Hrow : 0 <= y * width) by nia.
  assert (Hidx : y * width + x < width * height) by nia.
  rewrite (GeometryFacts.int_small (y * width)) by nia.
  rewrite GeometryFacts.int_small by lia.
  unfold inBuffer. apply andb_true_iff. split; [apply Z.leb_le|apply Z.ltb_lt]; lia.
Qed.

(** On a buffer shorter than [width * height] (both positive) the read of
    the last pixel is outside the buffer: [encodeSixel] panics. *)
Lemma encodeSixel_panics_on_short_buffer
  (palette pixels : list Z) (width height : Z) :
  0 < width -> 0 < height ->
  Z.of_nat (List.length pixels) < width * height <= Go.max_int ->
  encodeSixel palette pixels width height = None.
Proof.
  intros Hw Hh Hlen. unfold encodeSixel.
  destruct (_ <? 0); [reflexivity|].
  assert (Hmin : Go.min_int < 0) by (vm_compute; reflexivity).
  assert (Hreads : readsInBuffer pixels width height = false).
  { unfold readsInBuffer.
    destruct (forallb _ (columns height)) eqn:Hall; [|reflexivity].
    rewrite forallb_forall in Hall.
    specialize (Hall (height - 1)).
    rewrite forallb_forall in Hall.
    assert (Hy : In (height - 1) (columns height)) by (apply in_columns; lia).
    assert (Hx : In (width - 1) (columns width)) by (apply in_columns; lia).
    specialize (Hall Hy (width - 1) Hx).
    rewrite (GeometryFacts.int_small ((height - 1) * width)) in Hall by nia.
    rewrite GeometryFacts.int_small in Hall by nia.
    unfold inBuffer in Hall. apply andb_true_iff in Hall.
    destruct Hall as [_ Hlt]. apply Z.ltb_lt in Hlt. nia. }
  rewrite Hreads. reflexivity.
Qed.

Lemma sixel_body_printable_from (pixels : list Z) (width height : Z) :
  0 <= width -> 0 <= height ->
  width * height <= Z.of_nat (List.length pixels) <= Go.max_int ->
  exists body,
    encodeSixel generatePalette pixels width height
    = Some (sixelHeader ++ body ++ sixelTerminator)
    /\ Forall printable body.
Proof.
  intros Hw Hh Hlen.
  unfold encodeSixel, builder.
  assert (Hmin : Go.min_int < 0) by (vm_compute; reflexivity).
  rewrite GeometryFacts.int_small by nia.
  unfold Go.div.
  destruct (Z.ltb_spec (Z.quot (width * height) 2) 0) as [Hneg|_].
  { pose proof (Z.quot_pos (width * height) 2 ltac:(nia) ltac:(lia)). lia. }
  rewrite readsInBuffer_fits by assumption. cbn [negb].
  match goal with |- context [fold_left ?f _ _] =>
    destruct (fold_appends_printable f (bandStarts height)) with
      (sb := sixelHeader ++ generatePalette) as [d [-> Pd]]
  end.
  - intros sb y6 _. apply encodeBand_printable.
  - exists (generatePalette ++ d). split.
    + rewrite <- !app_assoc. reflexivity.
    + apply Forall_app. split; [apply generatePalette_printable|exact Pd].
Qed.

(** For a buffer of at least [width * height] entries, the case in which
    [encodeSixel] does not panic, the stream it returns is the header
    [ESC P 7;1;q], then only printable ASCII bytes (33..126), then the
    terminator [ESC \]: no NUL, and no ESC that would end the sequence
    early. *)
Theorem sixel_body_is_printable (pixels : list Z) (width height : Z) :
  0 <= width -> 0 <= height ->
  width * height <= Z.of_nat (List.length pixels) <= Go.max_int ->
  exists body,
    encodeSixel generatePalette pixels width height
    = Some (sixelHeader ++ body ++ sixelTerminator)
    /\ Forall printable body.
Proof.
  intros Hw Hh Hlen.
  destruct (sixel_body_printable_from pixels width height Hw Hh Hlen)
    as [body [Henc Pbody]].
  exists body. split; [exact Henc|exact Pbody].
Qed.

Lemma sixel_body_is_printable_witness :
  exists body,
    encodeSixel generatePalette [1; 2; 1; 1; 0; 0; 0; 0; 0; 0; 0; 0] 2 6
    = Some (sixelHeader ++ body ++ sixelTerminator)
    /\ Forall printable body.
Proof.
  apply (sixel_body_is_printable [1; 2; 1; 1; 0; 0; 0; 0; 0; 0; 0; 0] 2 6);
    [lia|lia|].
  cbn. unfold Go.max_int. lia.
Defined.

(** *** The pixel buffer *)

Lemma height6_spec (height : Z) :
  0 <= height ->
  height <= height6 height < height + 6 /\ height6 height mod 6 = 0.
Proof.
  intros Hh. unfold height6, Go.div.
  rewrite Z.quot_div_nonneg by lia.
  pose proof (Z.div_mod (height + 5) 6 ltac:(lia)).
  pose proof (Z.mod_pos_bound (height + 5) 6 ltac:(lia)).
  split; [lia|]. apply Z.mod_mul. lia.
Qed.

(** Rows of equal length laid end to end: the entry at [y * w + x]. *)
Lemma nth_rows {A : Type} (f : Z -> Z -> A) (d : A) (w rows : nat) :
  forall (s y x : nat), (y < rows)%nat -> (x < w)%nat ->
    nth (y * w + x)
      (flat_map (fun yy => map (f yy) (map Z.of_nat (seq 0 w)))
         (map Z.of_nat (seq s rows))) d
    = f (Z.of_nat (s + y)) (Z.of_nat x).
Proof.
  induction rows as [|rows IH]; intros s y x Hy Hx; [lia|].
  cbn [seq map flat_map].
  assert (Hlen : List.length (map (f (Z.of_nat s)) (map Z.of_nat (seq 0 w))) = w).
  { rewrite !length_map, length_seq. reflexivity. }
  destruct y as [|y].
  - rewrite app_nth1 by (rewrite Hlen; lia).
    cbn [Nat.mul Nat.add]. rewrite Nat.add_0_r.
    rewrite nth_indep with (d' := f (Z.of_nat s) (Z.of_nat 0))
      by (rewrite Hlen; lia).
    rewrite map_nth with (f := f (Z.of_nat s)).
    rewrite map_nth with (f := Z.of_nat).
    rewrite seq_nth by lia. reflexivity.
  - replace (S y * w + x)%nat with (w + (y * w + x))%nat by lia.
    rewrite <- Hlen at 1. rewrite app_nth2_plus.
    rewrite IH by lia. f_equal. lia.
Qed.

Lemma length_rows {A : Type} (f : Z -> Z -> A) (w rows : nat) :
  forall s, List.length
              (flat_map (fun yy => map (f yy) (map Z.of_nat (seq 0 w)))
                 (map Z.of_nat (seq s rows)))
            = (rows * w)%nat.
Proof.
  induction rows as [|rows IH]; intros s; [reflexivity|].
  cbn [seq map flat_map]. rewrite length_app, IH, !length_map, length_seq.
  reflexivity.
Qed.

Lemma renderPixels_rows (img : GoImage.image) :
  renderPixels img
  = flat_map
      (fun yy =>
         map (fun xx =>
                if yy <? GoImage.Dy img then
                  let '(rv, gv, bv) :=
                    GoImage.At img (GoImage.minX img + xx)
                      (GoImage.minY img + yy) in
                  colorToPalette (GoImage.high8 rv) (GoImage.high8 gv)
                    (GoImage.high8 bv)
                else 0)
           (map Z.of_nat (seq 0 (Z.to_nat (GoImage.Dx img)))))
      (map Z.of_nat (seq 0 (Z.to_nat (height6 (GoImage.Dy img))))).
Proof. reflexivity. Qed.

(** The entry of the pixel buffer for column [x] of row [y]. *)
Lemma renderPixels_nth (img : GoImage.image) (x y : Z) :
  0 <= x < GoImage.Dx img -> 0 <= y < height6 (GoImage.Dy img) ->
  nth (Z.to_nat (y * GoImage.Dx img + x)) (renderPixels img) 0
  = (if y <? GoImage.Dy img then
       let '(rv, gv, bv) :=
         GoImage.At img (GoImage.minX img + x) (GoImage.minY img + y) in
       colorToPalette (GoImage.high8 rv) (GoImage.high8 gv)
         (GoImage.high8 bv)
     else 0).
Proof.
  intros Hx Hy. rewrite renderPixels_rows.
  replace (Z.to_nat (y * GoImage.Dx img + x))
    with (Z.to_nat y * Z.to_nat (GoImage.Dx img) + Z.to_nat x)%nat by nia.
  rewrite (nth_rows
             (fun yy xx =>
                if yy <? GoImage.Dy img then
                  let '(rv, gv, bv) :=
                    GoImage.At img (GoImage.minX img + xx)
                      (GoImage.minY img + yy) in
                  colorToPalette (GoImage.high8 rv) (GoImage.high8 gv)
                    (GoImage.high8 bv)
                else 0)) by lia.
  cbn [Nat.add]. rewrite !Z2Nat.id by lia. reflexivity.
Qed.

Lemma renderPixels_length (img : GoImage.image) :
  0 <= GoImage.Dx img -> 0 <= height6 (GoImage.Dy img) ->
  Z.of_nat (List.length (renderPixels img))
  = GoImage.Dx img * height6 (GoImage.Dy img).
Proof.
  intros Hw Hh. rewrite renderPixels_rows, length_rows. nia.
Qed.

(** The pixel buffer that [Render] builds has [width * height6] entries,
    where [height6] is the image height rounded up to a multiple of six; the
    entry at [y * width + x] is the palette index of the image pixel for a
    row of the image and 0 for a padding row, so every entry is a palette
    index below 256. *)
Theorem render_buffer_is_padded_to_six_rows (img : GoImage.image) (x y : Z) :
  0 <= GoImage.Dx img -> 0 <= GoImage.Dy img ->
  0 <= x < GoImage.Dx img -> 0 <= y < height6 (GoImage.Dy img) ->
  GoImage.Dy img <= height6 (GoImage.Dy img) < GoImage.Dy img + 6
  /\ height6 (GoImage.Dy img) mod 6 = 0
  /\ Z.of_nat (List.length (renderPixels img))
     = GoImage.Dx img * height6 (GoImage.Dy img)
  /\ nth (Z.to_nat (y * GoImage.Dx img + x)) (renderPixels img) 0
     = (if y <? GoImage.Dy img then
          let '(rv, gv, bv) :=
            GoImage.At img (GoImage.minX img + x) (GoImage.minY img + y) in
          colorToPalette (GoImage.high8 rv) (GoImage.high8 gv)
            (GoImage.high8 bv)
        else 0)
  /\ 0 <= nth (Z.to_nat (y * GoImage.Dx img + x)) (renderPixels img) 0 < 256.
Proof.
  intros Hw Hh Hx Hy.
  destruct (height6_spec (GoImage.Dy img) Hh) as [H6 Hmod].
  split; [exact H6|]. split; [exact Hmod|].
  split; [apply renderPixels_length; lia|].
  pose proof (renderPixels_nth img x y Hx Hy) as Hnth.
  split; [exact Hnth|]. rewrite Hnth.
  destruct (y <? GoImage.Dy img); [|lia].
  destruct (GoImage.At img _ _) as [[rv gv] bv].
  unfold colorToPalette. cbv zeta. apply uint8_range.
Qed.

(** A 2x1 image: the padding row 3 of its buffer holds index 0. *)
Lemma render_buffer_witness :
  nth (Z.to_nat (3 * 2 + 1))
    (renderPixels (GoImage.mkImage 0 0 2 1 (fun _ _ => (65535, 0, 0)))) 0
  = 0.
Proof.
  apply (render_buffer_is_padded_to_six_rows
           (GoImage.mkImage 0 0 2 1 (fun _ _ => (65535, 0, 0))) 1 3);
    cbn [GoImage.Dx GoImage.Dy]; try lia.
  vm_compute. split; [discriminate|reflexivity].
Defined.

(** [Render] on an initialized renderer returns a stream for every image
    that it does not resize: the buffer it builds has the size that
    [encodeSixel] reads. *)
Lemma Render_returns_for_unresized_image
  (resize : resizer) (img : GoImage.image) (optWidth optHeight : Z) :
  0 <= GoImage.Dx img -> 0 <= GoImage.Dy img ->
  GoImage.Dx img * GoImage.Dy img <= maxPixels ->
  exists body,
    Render true generatePalette resize img optWidth optHeight
    = Returns (sixelHeader ++ body ++ sixelTerminator)
    /\ Forall printable body.
Proof.
  intros Hw Hh Hsmall.
  assert (Hmax : maxPixels = 960000) by reflexivity.
  unfold Render. cbn [negb]. cbv zeta.
  assert (Hkeep : renderImage resize img optWidth optHeight = img).
  { unfold renderImage.
    rewrite GeometryFacts.int_small by (unfold Go.min_int, Go.max_int; nia).
    destruct (Z.ltb_spec maxPixels (GoImage.Dx img * GoImage.Dy img));
      [lia|reflexivity]. }
  rewrite Hkeep.
  destruct (height6_spec (GoImage.Dy img) Hh) as [H6 Hmod].
  assert (Hbuf : 0 <= GoImage.Dx img * height6 (GoImage.Dy img)
                 <= 7 * 960000).
  { destruct (Z.eq_dec (GoImage.Dy img) 0) as [Hzero|Hrows].
    - rewrite Hzero in H6, Hmod. rewrite Z.mod_small in Hmod by lia.
      rewrite Hzero, Hmod. lia.
    - assert (GoImage.Dx img <= 960000) by nia. nia. }
  rewrite GeometryFacts.int_small by (unfold Go.min_int, Go.max_int; lia).
  destruct (Z.ltb_spec (GoImage.Dx img * height6 (GoImage.Dy img)) 0); [lia|].
  pose proof (renderPixels_length img Hw ltac:(lia)) as Hlen.
  destruct (sixel_body_printable_from (renderPixels img) (GoImage.Dx img)
              (height6 (GoImage.Dy img))) as [body [Henc Pbody]];
    [lia|lia|unfold Go.max_int; lia|].
  rewrite Henc. exists body. split; [reflexivity|exact Pbody].
Qed.

End SixelStreamFacts.

(** ** The video frame loop: invariants of every run *)

Module PlaybackInvariants.
Import Playback PlaybackFacts.

Lemma step_capacity (s : state) (e : event) :
  (List.length (frameChan s) <= capacity)%nat ->
  (List.length (frameChan (step s e)) <= capacity)%nat.
Proof.
  intros H. destruct e as [| |ok]; cbn [step];
    unfold produce, endOfInput, consume.
  - destruct (closed s); [exact H|].
    destruct (Nat.ltb_spec (List.length (frameChan s)) capacity);
      cbn [frameChan]; [|exact H].
    rewrite length_app. cbn [List.length]. lia.
  - exact H.
  - destruct (finished s); [exact H|].
    destruct (frameChan s) as [|f rest] eqn:Hc; cbn [frameChan];
      [cbn; lia|].
    cbn [List.length] in H. destruct ok; cbn [frameChan]; lia.
Qed.

Lemma fold_invariant {S E : Type} (P : S -> Prop) (f : S -> E -> S) :
  (forall s e, P s -> P (f s e)) ->
  forall evs s, P s -> P (fold_left f evs s).
Proof.
  intros Hstep. induction evs as [|e evs IH]; intros s Hs; [exact Hs|].
  cbn [fold_left]. apply IH, Hstep, Hs.
Qed.

(** The channel never holds more than its five frames, in any run: the
    producer's send is the only step that adds a frame, and it is taken
    only when there is room. *)
Theorem channel_never_exceeds_capacity (evs : list event) :
  (List.length (frameChan (run evs)) <= 5)%nat.
Proof.
  unfold run.
  apply (fold_invariant (fun s => (List.length (frameChan s) <= capacity)%nat)).
  - intros s e. apply step_capacity.
  - cbn. lia.
Qed.

(** Every frame pulled from the decoder is accounted for: it was rendered,
    is still in the channel, was skipped at a full channel, or was taken by
    the consumer for a [Render] that failed. *)
Lemma accounting_from (evs : list event) :
  forall s,
    frameIndex (fold_left step evs s)
    - FramesRendered (stats (fold_left step evs s))
    - Z.of_nat (List.length (frameChan (fold_left step evs s)))
    = frameIndex s - FramesRendered (stats s)
      - Z.of_nat (List.length (frameChan s))
      + skippedFrom s evs + renderFailedFrom s evs.
Proof.
  induction evs as [|e evs IH]; intros s; [cbn; lia|].
  cbn [fold_left skippedFrom renderFailedFrom]. rewrite IH.
  destruct e as [| |ok]; cbn [step]; unfold produce, endOfInput, consume.
  - destruct (closed s); [lia|].
    destruct (_ <? _)%nat; cbn [frameIndex frameChan stats]; [|lia].
    rewrite length_app. cbn [List.length]. lia.
  - cbn [frameIndex frameChan stats]. lia.
  - destruct (finished s); [destruct ok; lia|].
    destruct (frameChan s) as [|f rest];
      [destruct ok; cbn [frameIndex frameChan stats List.length]; lia|].
    destruct ok;
      cbn [frameIndex frameChan stats List.length FramesRendered]; lia.
Qed.

(** In every run the producer's frame index is the number of frames
    rendered, plus the frames still in the channel, plus the frames skipped
    at a full channel, plus the frames whose [Render] failed; the rendered
    count never exceeds the frame index. *)
Theorem every_pulled_frame_is_accounted_for (evs : list event) :
  let s := run evs in
  frameIndex s
  = FramesRendered (stats s) + Z.of_nat (List.length (frameChan s))
    + skippedFrom initial evs + renderFailedFrom initial evs
  /\ FramesRendered (stats s) <= frameIndex s.
Proof.
  intros s. unfold s, run.
  pose proof (accounting_from evs initial) as H. cbn in H.
  assert (Hsk : forall evs s0, 0 <= skippedFrom s0 evs).
  { clear. induction evs as [|e evs IH]; intros s0; [cbn; lia|].
    cbn [skippedFrom]. specialize (IH (step s0 e)).
    destruct e; try lia.
    destruct (closed s0); [lia|]. destruct (_ <? _)%nat; lia. }
  assert (Hrf : forall evs s0, 0 <= renderFailedFrom s0 evs).
  { clear. induction evs as [|e evs IH]; intros s0; [cbn; lia|].
    cbn [renderFailedFrom]. specialize (IH (step s0 e)).
    destruct e as [| |[|]]; try lia.
    destruct (finished s0); [lia|]. destruct (frameChan s0); lia. }
  specialize (Hsk evs initial). specialize (Hrf evs initial).
  split; lia.
Qed.


(** *** The order of the frames *)

Lemma ascending_le (l : list Z) :
  forall lo b, ascendingFrom lo b l -> lo <= b.
Proof.
  induction l as [|f l IH]; intros lo b H; [exact H|].
  destruct H as [Hf Hl]. specialize (IH _ _ Hl). lia.
Qed.

Lemma ascending_weaken (l : list Z) :
  forall lo lo' b b', ascendingFrom lo b l -> lo' <= lo -> b <= b' ->
    ascendingFrom lo' b' l.
Proof.
  induction l as [|f l IH]; intros lo lo' b b' H Hlo Hb; cbn in *; [lia|].
  destruct H as [Hf Hl]. split; [lia|].
  apply (IH (f + 1) (f + 1) b b'); [exact Hl|lia|exact Hb].
Qed.

Lemma ascending_snoc (l : list Z) :
  forall lo b, ascendingFrom lo b l -> ascendingFrom lo (b + 1) (l ++ [b]).
Proof.
  induction l as [|f l IH]; intros lo b H; cbn in *; [lia|].
  destruct H as [Hf Hl]. split; [exact Hf|]. apply IH, Hl.
Qed.

Lemma ascending_prefix (l1 l2 : list Z) :
  forall lo b, ascendingFrom lo b (l1 ++ l2) -> ascendingFrom lo b l1.
Proof.
  induction l1 as [|f l1 IH]; intros lo b H.
  - cbn in *. apply ascending_le in H. exact H.
  - cbn in *. destruct H as [Hf Hl]. split; [exact Hf|]. apply IH, Hl.
Qed.

Lemma rendered_then_queued_ascending (evs : list event) :
  forall s lo,
    ascendingFrom lo (frameIndex s) (frameChan s) ->
    ascendingFrom lo (frameIndex (fold_left step evs s))
      (renderedFrom s evs ++ frameChan (fold_left step evs s)).
Proof.
  induction evs as [|e evs IH]; intros s lo Inv; [exact Inv|].
  cbn [fold_left renderedFrom].
  destruct e as [| |ok]; cbn [step app].
  - apply IH. unfold produce.
    destruct (closed s); [exact Inv|].
    destruct (_ <? _)%nat; cbn [frameIndex frameChan].
    + apply ascending_snoc, Inv.
    + apply (ascending_weaken _ lo lo (frameIndex s)); [exact Inv|lia|lia].
  - apply IH. exact Inv.
  - unfold consume.
    destruct (finished s) eqn:Hfin.
    + destruct ok; cbn [app]; apply IH; exact Inv.
    + destruct (frameChan s) as [|f rest] eqn:Hc.
      * destruct ok; cbn [app]; apply IH; cbn [frameIndex frameChan];
          exact Inv.
      * cbn in Inv. destruct Inv as [Hf Hrest].
        destruct ok; cbn [app].
        -- split; [exact Hf|]. apply IH. cbn [frameIndex frameChan].
           exact Hrest.
        -- eapply ascending_weaken with (lo := f + 1);
             [apply IH; cbn [frameIndex frameChan]; exact Hrest|lia|lia].
Qed.

(** The consumer renders the frames in the order the decoder produced
    them, none twice: in every run the rendered frame indices are strictly
    ascending, start at 0 or above and stay below the producer's frame
    index. *)
Theorem frames_are_rendered_in_source_order (evs : list event) :
  ascendingFrom 0 (frameIndex (run evs)) (renderedFrom initial evs).
Proof.
  apply (ascending_prefix _ (frameChan (run evs))).
  unfold run. apply rendered_then_queued_ascending. cbn. lia.
Qed.

End PlaybackInvariants.

(** ** Terminal control *)

Module TerminalControlFacts.
Import TerminalControl.
Open Scope string_scope.

(** A stretch of the stream without an escape character leaves the cursor
    as it is. *)
Lemma skip_plain (p rest : string) (visible : bool) :
  plain p = true ->
  cursorVisibleAfter (p ++ rest) visible = cursorVisibleAfter rest visible.
Proof.
  induction p as [|c p IH]; intros Hp; [reflexivity|].
  unfold plain in Hp. cbn [Capability.allChars] in Hp.
  apply andb_true_iff in Hp. destruct Hp as [Hc Hp].
  cbn [append cursorVisibleAfter]. unfold ESC. cbn [append prefix].
  destruct (ascii_dec (ascii_of_nat 27) c) as [<-|_];
    [unfold notESC in Hc; rewrite Ascii.eqb_refl in Hc; discriminate|].
  apply IH, Hp.
Qed.

Lemma plain_app (p q : string) :
  plain p = true -> plain q = true -> plain (p ++ q) = true.
Proof.
  unfold plain. induction p as [|c p IH]; intros Hp Hq; [exact Hq|].
  cbn [append Capability.allChars] in *.
  apply andb_true_iff in Hp. destruct Hp as [Hc Hp].
  rewrite Hc. cbn [andb]. apply IH; assumption.
Qed.

(** The characters of a number: the minus sign and the digits, of which
    there is at least one. *)
Lemma formatInt_chars (n : Z) :
  (Forall (fun b => 45 <= b <= 57) (SixelRenderer.formatInt n)
   /\ SixelRenderer.formatInt n <> nil)%Z.
Proof.
  assert (Hpos : forall k, (0 <= k)%Z ->
            (Forall (fun b => 45 <= b <= 57) (SixelRenderer.formatInt k)
             /\ SixelRenderer.formatInt k <> nil)%Z).
  { intros k Hk. destruct (RunLengthFacts.formatInt_sound k Hk) as [_ Hds].
    split.
    - eapply Forall_impl; [|exact Hds]. intros d Hd.
      unfold SixelRenderer.isDigit in Hd. lia.
    - unfold SixelRenderer.formatInt. destruct (k <? 0)%Z; [discriminate|].
      cbn [SixelRenderer.digits].
      destruct (_ =? 0)%Z; [discriminate|].
      intros Hnil. apply app_eq_nil in Hnil. destruct Hnil; discriminate. }
  destruct (Z.ltb_spec n 0) as [Hneg|Hnn]; [|apply Hpos, Hnn].
  destruct (Hpos (- n)%Z ltac:(lia)) as [Hall _].
  unfold SixelRenderer.formatInt in *.
  destruct (Z.ltb_spec n 0); [|lia].
  destruct (Z.ltb_spec (- n) 0); [lia|].
  split; [constructor; [lia|exact Hall]|discriminate].
Qed.

Lemma byte_char_other (b : Z) (c : nat) :
  (45 <= b <= 57)%Z -> (c < 45 \/ 57 < c)%nat -> (c < 256)%nat ->
  ascii_of_nat c <> ascii_of_nat (Z.to_nat b).
Proof.
  intros Hb Hc Hc256 Heq.
  apply (f_equal nat_of_ascii) in Heq.
  rewrite !nat_ascii_embedding in Heq by lia. lia.
Qed.

Lemma decimal_plain (n : Z) : plain (decimal n) = true.
Proof.
  unfold decimal. destruct (formatInt_chars n) as [Hall _].
  induction Hall as [|b l Hb _ IH]; [reflexivity|].
  unfold plain in *. cbn [stringOfBytes Capability.allChars].
  rewrite IH, andb_true_r. unfold notESC.
  destruct (Ascii.eqb_spec (ascii_of_nat (Z.to_nat b)) (ascii_of_nat 27))
    as [Heq|_]; [|reflexivity].
  symmetry in Heq. apply byte_char_other in Heq; [contradiction|lia|lia|lia].
Qed.

(** A number does not start with a question mark. *)
Lemma decimal_head (n : Z) :
  exists d tail, decimal n = String d tail /\ ascii_of_nat 63 <> d.
Proof.
  unfold decimal. destruct (formatInt_chars n) as [Hall Hne].
  destruct (SixelRenderer.formatInt n) as [|b l]; [contradiction|].
  inversion Hall as [|? ? Hb _]; subst.
  exists (ascii_of_nat (Z.to_nat b)), (stringOfBytes l).
  split; [reflexivity|]. apply byte_char_other; lia.
Qed.

Lemma append_assoc (a b c : string) : (a ++ b) ++ c = a ++ b ++ c.
Proof.
  induction a as [|x a IH]; [reflexivity|].
  cbn [append]. rewrite IH. reflexivity.
Qed.

Lemma cursorVisibleAfter_cons (c : ascii) (rest : string) (visible : bool) :
  cursorVisibleAfter (String c rest) visible
  = if prefix (ESC ++ "[?25l") (String c rest)
    then cursorVisibleAfter rest false
    else if prefix (ESC ++ "[?25h") (String c rest)
         then cursorVisibleAfter rest true
         else cursorVisibleAfter rest visible.
Proof. reflexivity. Qed.

(** The escape character before [[<number>] starts neither cursor
    sequence. *)
Lemma skip_escape_number (n : Z) (after : string) (visible : bool) :
  cursorVisibleAfter (ESC ++ "[" ++ decimal n ++ after) visible
  = cursorVisibleAfter ("[" ++ decimal n ++ after) visible.
Proof.
  destruct (decimal_head n) as [d [tail [-> Hd]]].
  change (ESC ++ "[" ++ String d tail ++ after)
    with (String (ascii_of_nat 27)
            (String "["%char (String d (tail ++ after)))).
  change ("[" ++ String d tail ++ after)
    with (String "["%char (String d (tail ++ after))).
  assert (Hseq : forall final,
            prefix (String (ascii_of_nat 27) ("[?25" ++ final))
              (String (ascii_of_nat 27)
                 (String "["%char (String d (tail ++ after)))) = false).
  { intros final. cbn [append prefix].
    destruct (ascii_dec (ascii_of_nat 27) (ascii_of_nat 27)) as [_|Hne];
      [|contradiction].
    destruct (ascii_dec "["%char "["%char) as [_|Hne]; [|contradiction].
    destruct (ascii_dec "?"%char d) as [Heq|_]; [contradiction|].
    reflexivity. }
  rewrite cursorVisibleAfter_cons.
  change (ESC ++ "[?25l") with (String (ascii_of_nat 27) ("[?25" ++ "l")).
  change (ESC ++ "[?25h") with (String (ascii_of_nat 27) ("[?25" ++ "h")).
  rewrite !Hseq. reflexivity.
Qed.

(** Nor does the escape character that opens the title sequence. *)
Lemma skip_escape_title (after : string) (visible : bool) :
  cursorVisibleAfter (ESC ++ "]0;" ++ after) visible
  = cursorVisibleAfter ("]0;" ++ after) visible.
Proof.
  change (ESC ++ "]0;" ++ after)
    with (String (ascii_of_nat 27) ("]0;" ++ after)).
  assert (Hseq : forall final,
            prefix (String (ascii_of_nat 27) ("[?25" ++ final))
              (String (ascii_of_nat 27) ("]0;" ++ after)) = false).
  { intros final. cbn [append prefix].
    destruct (ascii_dec (ascii_of_nat 27) (ascii_of_nat 27)) as [_|Hne];
      [|contradiction].
    destruct (ascii_dec "["%char "]"%char) as [Heq|_]; [discriminate|].
    reflexivity. }
  rewrite cursorVisibleAfter_cons.
  change (ESC ++ "[?25l") with (String (ascii_of_nat 27) ("[?25" ++ "l")).
  change (ESC ++ "[?25h") with (String (ascii_of_nat 27) ("[?25" ++ "h")).
  rewrite !Hseq. reflexivity.
Qed.

(** What one call does to the terminal's cursor, whatever follows it in
    the stream. *)
Lemma perform_cursor (m : call) (ok : bool) (c : Control) (rest : string)
  (visible : bool) :
  (m = CallReset -> ok = true) ->
  match m with CallSetTitle title => plain title = true | _ => True end ->
  visible = negb (cursorHidden c) ->
  cursorVisibleAfter (snd (perform m ok c) ++ rest) visible
  = cursorVisibleAfter rest (negb (cursorHidden (fst (perform m ok c)))).
Proof.
  intros Hreset Htitle ->.
  destruct c as [hidden].
  destruct m as [| |row col| | | | |title| | | | | |].
  3: { (* MoveCursor *)
    destruct ok; [|reflexivity].
    cbn [perform MoveCursor written fst snd cursorHidden].
    rewrite !append_assoc. rewrite skip_escape_number.
    rewrite <- !append_assoc.
    apply skip_plain.
    apply plain_app; [|reflexivity].
    apply plain_app; [|apply decimal_plain].
    apply plain_app; [|reflexivity].
    apply plain_app; [reflexivity|apply decimal_plain]. }
  7: { (* SetTitle *)
    destruct ok; [|reflexivity].
    cbn [perform SetTitle written fst snd cursorHidden].
    rewrite !append_assoc. rewrite skip_escape_title.
    rewrite <- !append_assoc.
    apply skip_plain.
    apply plain_app; [|reflexivity].
    apply plain_app; [reflexivity|exact Htitle]. }
  all: destruct ok, hidden; try reflexivity;
    try (destruct rest; reflexivity).
  all: specialize (Hreset eq_refl); discriminate.
Qed.

Lemma performAll_cursor (calls : list (call * bool)) :
  forall c visible,
    resetsPrinted calls -> titlesPlain calls ->
    visible = negb (cursorHidden c) ->
    cursorVisibleAfter (snd (performAll calls c)) visible
    = negb (cursorHidden (fst (performAll calls c))).
Proof.
  induction calls as [|[m ok] calls IH]; intros c visible Hres Htitles Hv.
  - cbn. exact Hv.
  - inversion Hres as [|? ? Hm Hrest]; subst. cbn [fst snd] in Hm.
    inversion Htitles as [|? ? Ht Htrest]; subst. cbn [fst] in Ht.
    cbn [performAll].
    destruct (perform m ok c) as [c1 out1] eqn:Hp.
    destruct (performAll calls c1) as [c2 out2] eqn:Hall.
    cbn [fst snd].
    pose proof (perform_cursor m ok c out2 (negb (cursorHidden c)) Hm Ht
                  eq_refl) as Hstep.
    rewrite Hp in Hstep. cbn [fst snd] in Hstep. rewrite Hstep.
    specialize (IH c1 (negb (cursorHidden c1)) Hrest Htrest eq_refl).
    rewrite Hall in IH. exact IH.
Qed.

(** The [cursorHidden] flag tracks the terminal: after any sequence of
    calls of the methods of [Control] on a fresh [Control], whichever of
    their prints fail, the cursor is hidden on the terminal exactly when the
    flag says so, provided no [Reset] had its print fail (a [Reset] clears
    the flag even then) and no title given to [SetTitle] holds an escape
    character (a title is printed as it is). *)
Theorem cursor_flag_tracks_the_terminal (calls : list (call * bool)) :
  resetsPrinted calls -> titlesPlain calls ->
  cursorVisibleAfter (snd (performAll calls NewControl)) true
  = negb (cursorHidden (fst (performAll calls NewControl))).
Proof.
  intros Hres Htitles.
  apply performAll_cursor; [exact Hres|exact Htitles|reflexivity].
Qed.

Lemma cursor_flag_tracks_the_terminal_witness :
  cursorVisibleAfter
    (snd (performAll
            [(CallHideCursor, true); (CallHideCursor, true);
             (CallSetTitle "terminaltube", true);
             (CallMoveCursor 23 1, true); (CallMoveCursor (-1) 1, true);
             (CallClearScreen, true); (CallShowCursor, false);
             (CallReset, true)] NewControl)) true
  = negb (cursorHidden
            (fst (performAll
                    [(CallHideCursor, true); (CallHideCursor, true);
                     (CallSetTitle "terminaltube", true);
                     (CallMoveCursor 23 1, true); (CallMoveCursor (-1) 1, true);
                     (CallClearScreen, true); (CallShowCursor, false);
                     (CallReset, true)] NewControl))).
Proof.
  apply cursor_flag_tracks_the_terminal.
  - repeat constructor; cbn; intros; congruence.
  - repeat constructor.
Defined.

(** Without the first proviso the flag can be wrong: a [Reset] whose print
    fails while the cursor is hidden clears the flag, and the [ShowCursor]
    that follows writes nothing. *)
Example failed_reset_leaves_cursor_hidden :
  let '(c, out) :=
    performAll [(CallHideCursor, true); (CallReset, false);
                (CallShowCursor, true)] NewControl in
  cursorHidden c = false /\ cursorVisibleAfter out true = false
  /\ out = ESC ++ "[?25l".
Proof. vm_compute. repeat split; reflexivity. Qed.

(** Without the second the flag can be wrong as well: a title that holds
    the sequence [ESC[?25l] hides the cursor and leaves the flag clear. *)
Example title_with_escape_hides_cursor :
  let '(c, out) :=
    performAll [(CallSetTitle (ESC ++ "[?25l"), true)] NewControl in
  cursorHidden c = false /\ cursorVisibleAfter out true = false.
Proof. vm_compute. split; reflexivity. Qed.

End TerminalControlFacts.

(** ** The capability probe: colours, SIXEL and the terminal size *)

Module ProbeFacts.
Import Capability.
Open Scope string_scope.

(** [detectColor256Support] answers true in every environment: the TERM
    markers and the Windows check lead to the same answer as the default. *)
Theorem color256_always_reported (getenv : environ) :
  detectColor256Support getenv = true.
Proof.
  unfold detectColor256Support. cbv zeta.
  destruct (_ || _ || _ || _)%bool; [reflexivity|].
  destruct (getenv "OS" =? "Windows_NT"); reflexivity.
Qed.

Lemma prefix_app (p q s : string) :
  prefix (p ++ q) s = true -> prefix p s = true.
Proof.
  revert s. induction p as [|a p IH]; intros s H.
  - destruct s; reflexivity.
  - destruct s as [|b s]; cbn in *; [discriminate|].
    destruct (ascii_dec a b); [apply IH, H|discriminate].
Qed.

(** A string that contains [p ++ q] contains [p]. *)
Lemma Contains_app (s p q : string) :
  Contains s (p ++ q) = true -> Contains s p = true.
Proof.
  induction s as [|c s IH]; intros H.
  - cbn [Contains] in *. rewrite orb_false_r in *. apply (prefix_app p q), H.
  - cbn [Contains] in *. apply orb_true_iff in H. apply orb_true_iff.
    destruct H as [H|H]; [left; apply (prefix_app p q), H|right; apply IH, H].
Qed.

(** For TERM and TERM_PROGRAM of ASCII bytes, [detectSixelSupport] reports
    SIXEL exactly when TERM (in any letter case) contains one of [xterm],
    [mlterm], [wezterm], [foot], [mintty], [sixel], or TERM_PROGRAM contains
    one of its four markers, or a Windows Terminal session passes the
    version check.  The entries [xterm-256color] and [xterm-color] add
    nothing to [xterm]: every TERM of the xterm family is reported as SIXEL
    capable. *)
Theorem sixel_detection_markers (getenv : environ) (wtSupportsSixel : bool) :
  isASCII (getenv "TERM") = true ->
  isASCII (getenv "TERM_PROGRAM") = true ->
  detectSixelSupport getenv wtSupportsSixel
  = containsAny (ToLower (getenv "TERM"))
      ["xterm"; "mlterm"; "wezterm"; "foot"; "mintty"; "sixel"]
    || containsAny (ToLower (getenv "TERM_PROGRAM")) sixelPrograms
    || (negb (getenv "WT_SESSION" =? "") && wtSupportsSixel).
Proof.
  intros _ _.
  unfold detectSixelSupport, containsAny, sixelTerminals. cbv zeta.
  cbn [existsb].
  set (t := ToLower (getenv "TERM")).
  pose proof (Contains_app t "xterm" "-256color") as H1.
  pose proof (Contains_app t "xterm" "-color") as H2.
  cbn [append] in H1, H2.
  destruct (Contains t "xterm-256color"), (Contains t "xterm-color"),
    (Contains t "xterm");
    try (specialize (H1 eq_refl); discriminate);
    try (specialize (H2 eq_refl); discriminate);
    destruct (Contains t "mlterm"), (Contains t "wezterm"),
      (Contains t "foot"), (Contains t "mintty"), (Contains t "sixel"),
      (existsb _ sixelPrograms), (negb _ && wtSupportsSixel);
    reflexivity.
Qed.

Lemma sixel_detection_markers_witness :
  detectSixelSupport
    (environOf [("TERM", "Foot-Extra"); ("TERM_PROGRAM", "Terminal")]) false
  = true.
Proof.
  rewrite (sixel_detection_markers
             (environOf [("TERM", "Foot-Extra"); ("TERM_PROGRAM", "Terminal")])
             false); reflexivity.
Defined.

(** [GetTerminalSize] never returns an error, so the 80x24 fallback of
    [DetectCapabilities] is never used and the capabilities carry the size
    it returns.  The size is positive in both dimensions unless it was
    parsed from COLUMNS and LINES, which are passed on as they are. *)
Theorem terminal_size_never_fails
  (tty : terminals) (getenv : environ) (wtSupportsSixel : bool) :
  let '(width, height, err) := GetTerminalSize tty getenv in
  err = None
  /\ Width (DetectCapabilities tty getenv wtSupportsSixel) = width
  /\ Height (DetectCapabilities tty getenv wtSupportsSixel) = height
  /\ ((0 < width /\ 0 < height)%Z
      \/ (Atoi (getenv "COLUMNS") = Some width
          /\ Atoi (getenv "LINES") = Some height)).
Proof.
  unfold DetectCapabilities.
  assert (Husable : forall a w h, usable a = Some (w, h) -> (0 < w /\ 0 < h)%Z).
  { intros [[w0 h0]|] w h; cbn; [|discriminate].
    destruct (Z.ltb_spec 0 w0), (Z.ltb_spec 0 h0); cbn; try discriminate.
    intros [= <- <-]. split; assumption. }
  unfold GetTerminalSize.
  destruct (usable (tty Stdout)) as [[w h]|] eqn:H1;
    [cbn; repeat split; try reflexivity; left; eapply Husable; eassumption|].
  destruct (usable (tty Stdin)) as [[w h]|] eqn:H2;
    [cbn; repeat split; try reflexivity; left; eapply Husable; eassumption|].
  destruct (usable (tty Stderr)) as [[w h]|] eqn:H3;
    [cbn; repeat split; try reflexivity; left; eapply Husable; eassumption|].
  cbv zeta.
  destruct (getenv "COLUMNS" =? ""); [cbn; repeat split; try reflexivity; left; lia|].
  destruct (Atoi (getenv "COLUMNS")) as [w|];
    [|cbn; repeat split; try reflexivity; left; lia].
  destruct (getenv "LINES" =? ""); [cbn; repeat split; try reflexivity; left; lia|].
  destruct (Atoi (getenv "LINES")) as [h|];
    [|cbn; repeat split; try reflexivity; left; lia].
  cbn. repeat split; try reflexivity. right. split; reflexivity.
Qed.

(** The sizes in the environment are not checked: without a terminal,
    [COLUMNS=0] and [LINES=-5] give the size 0 x -5. *)
Example terminal_size_from_environment :
  GetTerminalSize (fun _ => None)
    (environOf [("COLUMNS", "0"); ("LINES", "-5")])
  = (0, -5, None)%Z.
Proof. reflexivity. Qed.


(** *** The Windows Terminal version check *)

Lemma digitsValue_chars (s : string) :
  forall acc n, digitsValue acc s = Some n -> allChars isDigitChar s = true.
Proof.
  induction s as [|c s IH]; intros acc n H; [reflexivity|].
  cbn [digitsValue allChars] in *.
  destruct (isDigitChar c); [|discriminate]. cbn [andb]. eapply IH, H.
Qed.

(** A string that [Atoi] accepts is not empty and holds only digits and
    signs. *)
Lemma Atoi_chars (s : string) (n : Z) :
  Atoi s = Some n -> s <> "" /\ allChars numberChar s = true.
Proof.
  unfold Atoi. destruct s as [|c s]; [discriminate|].
  intros H. split; [discriminate|].
  assert (Hdigits : forall t, allChars isDigitChar t = true ->
                              allChars numberChar t = true).
  { induction t as [|d t IHt]; [reflexivity|]. cbn [allChars].
    intros Ht. apply andb_true_iff in Ht. destruct Ht as [Hd Ht].
    unfold numberChar at 1. rewrite Hd, IHt by exact Ht. reflexivity. }
  cbn [allChars].
  destruct (c =? "-")%char eqn:Hm.
  - unfold numberChar at 1. rewrite Hm, orb_true_r. cbn [orb andb].
    destruct s as [|d s]; [discriminate|].
    destruct (digitsValue 0 (String d s)) as [v|] eqn:Hv; [|discriminate].
    eapply Hdigits, digitsValue_chars, Hv.
  - destruct (c =? "+")%char eqn:Hp.
    + unfold numberChar at 1. rewrite Hp, orb_true_r. cbn [andb].
      destruct s as [|d s]; [discriminate|].
      destruct (digitsValue 0 (String d s)) as [v|] eqn:Hv; [|discriminate].
      eapply Hdigits, digitsValue_chars, Hv.
    + destruct (digitsValue 0 (String c s)) as [v|] eqn:Hv; [|discriminate].
      apply digitsValue_chars in Hv. apply Hdigits in Hv.
      cbn [allChars] in Hv. exact Hv.
Qed.

Lemma numberChar_plain (c : ascii) :
  numberChar c = true -> isSpaceChar c = false /\ (c =? ".")%char = false.
Proof.
  unfold numberChar, isDigitChar, isSpaceChar. intros H.
  apply orb_true_iff in H. destruct H as [H|H].
  - apply orb_true_iff in H. destruct H as [H|H].
    + split.
      * apply andb_true_iff in H. destruct H as [H1 H2].
        apply Nat.leb_le in H1, H2.
        destruct (Nat.leb_spec 9 (nat_of_ascii c)),
          (Nat.leb_spec (nat_of_ascii c) 13),
          (Nat.eqb_spec (nat_of_ascii c) 32); cbn; try reflexivity; lia.
      * destruct (Ascii.eqb_spec c "."); [subst; discriminate|reflexivity].
    + apply Ascii.eqb_eq in H. subst. split; reflexivity.
  - apply Ascii.eqb_eq in H. subst. split; reflexivity.
Qed.

Lemma trimLeft_number (a t : string) :
  a <> "" -> allChars numberChar a = true -> trimLeft (a ++ t) = a ++ t.
Proof.
  destruct a as [|c a]; [contradiction|]. intros _ H.
  cbn [allChars] in H. apply andb_true_iff in H. destruct H as [Hc _].
  apply numberChar_plain in Hc. destruct Hc as [Hs _].
  cbn [append trimLeft]. rewrite Hs. reflexivity.
Qed.

Lemma trimRight_number (a t : string) :
  allChars numberChar a = true ->
  trimRight (a ++ "." ++ t) = a ++ "." ++ trimRight t.
Proof.
  induction a as [|c a IH]; intros H.
  - reflexivity.
  - cbn [allChars] in H. apply andb_true_iff in H. destruct H as [Hc Ha].
    apply numberChar_plain in Hc. destruct Hc as [Hs _].
    cbn [append trimRight]. rewrite Hs. cbn [andb].
    f_equal. apply IH, Ha.
Qed.

Lemma trimRight_spaces (ws : string) :
  allChars isSpaceChar ws = true -> trimRight ws = "".
Proof.
  induction ws as [|c ws IH]; intros H; [reflexivity|].
  cbn [allChars] in H. apply andb_true_iff in H. destruct H as [Hc Hws].
  cbn [trimRight]. rewrite Hc, IH by exact Hws. reflexivity.
Qed.

Lemma trimRight_number_spaces (b ws : string) :
  allChars numberChar b = true -> allChars isSpaceChar ws = true ->
  trimRight (b ++ ws) = b.
Proof.
  intros Hb Hws. induction b as [|c b IH].
  - apply trimRight_spaces, Hws.
  - cbn [allChars] in Hb. apply andb_true_iff in Hb. destruct Hb as [Hc Hb].
    apply numberChar_plain in Hc. destruct Hc as [Hs _].
    cbn [append trimRight]. rewrite Hs. cbn [andb]. f_equal. apply IH, Hb.
Qed.

Lemma SplitDots_number (a t : string) :
  allChars numberChar a = true ->
  SplitDots (a ++ "." ++ t) = a :: SplitDots t.
Proof.
  induction a as [|c a IH]; intros H.
  - reflexivity.
  - cbn [allChars] in H. apply andb_true_iff in H. destruct H as [Hc Ha].
    apply numberChar_plain in Hc. destruct Hc as [_ Hd].
    cbn [append SplitDots]. rewrite Hd.
    change (a ++ String "." t) with (a ++ "." ++ t).
    rewrite IH by exact Ha. reflexivity.
Qed.

Lemma SplitDots_last (b : string) :
  allChars numberChar b = true -> SplitDots b = [b].
Proof.
  induction b as [|c b IH]; intros H; [reflexivity|].
  cbn [allChars] in H. apply andb_true_iff in H. destruct H as [Hc Hb].
  apply numberChar_plain in Hc. destruct Hc as [_ Hd].
  cbn [SplitDots]. rewrite Hd, IH by exact Hb. reflexivity.
Qed.


Lemma append_not_empty (a t : string) : a <> "" -> (a ++ t =? "") = false.
Proof. destruct a; [contradiction|reflexivity]. Qed.

(** A version whose first two components are the numbers [major] and
    [minor] passes the check exactly from 1.22 on, whatever follows the
    second component after a further dot, and also when only white space
    (the line end of the query's output) follows it. *)
Theorem windows_terminal_from_1_22
  (a b rest ws : string) (major minor : Z) :
  Atoi a = Some major -> Atoi b = Some minor ->
  allChars isSpaceChar ws = true ->
  let accepted := ((1 <? major) || ((major =? 1) && (22 <=? minor)))%Z in
  checkWindowsTerminalSixelSupport (Some (a ++ "." ++ b ++ "." ++ rest))
  = accepted
  /\ checkWindowsTerminalSixelSupport (Some (a ++ "." ++ b ++ ws)) = accepted.
Proof.
  intros Ha Hb Hws accepted.
  destruct (Atoi_chars a major Ha) as [Hane Hac].
  destruct (Atoi_chars b minor Hb) as [Hbne Hbc].
  unfold checkWindowsTerminalSixelSupport, TrimSpace. cbv zeta. split.
  - rewrite trimLeft_number by assumption.
    rewrite trimRight_number by assumption.
    rewrite trimRight_number by assumption.
    rewrite append_not_empty by assumption.
    rewrite SplitDots_number by assumption.
    rewrite SplitDots_number by assumption.
    rewrite Ha, Hb. unfold accepted. destruct (_ || _)%bool; reflexivity.
  - rewrite trimLeft_number by assumption.
    rewrite trimRight_number by assumption.
    rewrite trimRight_number_spaces by assumption.
    rewrite append_not_empty by assumption.
    rewrite SplitDots_number by assumption.
    rewrite SplitDots_last by assumption.
    rewrite Ha, Hb. unfold accepted. destruct (_ || _)%bool; reflexivity.
Qed.

Lemma windows_terminal_from_1_22_witness :
  checkWindowsTerminalSixelSupport (Some ("1" ++ "." ++ "21" ++ "." ++ "3231.0"))
  = ((1 <? 1) || ((1 =? 1) && (22 <=? 21)))%Z
  /\ checkWindowsTerminalSixelSupport
       (Some ("1" ++ "." ++ "21" ++ String (ascii_of_nat 10) ""))
     = ((1 <? 1) || ((1 =? 1) && (22 <=? 21)))%Z.
Proof.
  apply (windows_terminal_from_1_22 "1" "21" "3231.0"
           (String (ascii_of_nat 10) "") 1 21); reflexivity.
Defined.

End ProbeFacts.

(** ** The renderer manager and the video path *)

Module PlayerFacts.
Import Capability Renderers Player Geometry ByteFacts GeometryFacts.

(** [GetBestRenderer] always finds a renderer, in the order SIXEL, true
    colour, ASCII colour, and the renderer it finds accepts the mode that
    [playVideoFile] selects.  The grayscale renderer is never returned:
    when neither SIXEL nor true colour nor 256 colours are supported the
    player selects ASCII_GRAY but the colour renderer renders. *)
Theorem best_renderer_follows_preference (caps : TerminalCapabilities) :
  let best :=
    if SixelSupport caps then SixelRenderer
    else if TrueColor caps then UnicodeRenderer
    else ASCIIRenderer ASCII_COLOR in
  GetBestRenderer (registerRenderers caps) = Some best
  /\ SupportsMode best (selectMode caps) = true
  /\ produces best <> ASCII_GRAY
  /\ (produces best = selectMode caps
      \/ (selectMode caps = ASCII_GRAY /\ produces best = ASCII_COLOR)).
Proof.
  destruct caps as [sixel truecolor color256 w h unicode].
  unfold registerRenderers, selectMode. cbn [SixelSupport TrueColor Color256].
  destruct sixel, truecolor, color256; cbn;
    repeat split; try discriminate; try reflexivity;
    first [left; reflexivity | right; split; reflexivity].
Qed.

(** On every TERM of the xterm family, in any letter case, the player
    takes the SIXEL path: detection reports SIXEL, the SIXEL renderer is the
    best renderer and SIXEL the selected mode, whatever else the environment
    says about colours. *)
Theorem xterm_family_gets_sixel
  (tty : terminals) (getenv : environ) (wtSupportsSixel : bool) :
  Contains (ToLower (getenv "TERM")) "xterm" = true ->
  let caps := DetectCapabilities tty getenv wtSupportsSixel in
  SixelSupport caps = true
  /\ GetBestRenderer (registerRenderers caps) = Some SixelRenderer
  /\ selectMode caps = SIXEL.
Proof.
  intros Hterm caps.
  assert (Hsixel : SixelSupport caps = true).
  { unfold caps, DetectCapabilities.
    destruct (GetTerminalSize tty getenv) as [[w h] err].
    destruct err; cbn [SixelSupport];
      unfold detectSixelSupport, containsAny, sixelTerminals; cbv zeta;
      cbn [existsb]; rewrite Hterm, !orb_true_r; reflexivity. }
  split; [exact Hsixel|].
  unfold registerRenderers, selectMode. rewrite Hsixel.
  destruct (TrueColor caps); split; reflexivity.
Qed.

Lemma xterm_family_gets_sixel_witness :
  SixelSupport
    (DetectCapabilities (fun _ => None)
       (environOf [("TERM", "xterm-256color")%string]) false) = true
  /\ GetBestRenderer
       (registerRenderers
          (DetectCapabilities (fun _ => None)
             (environOf [("TERM", "xterm-256color")%string]) false))
     = Some SixelRenderer
  /\ selectMode
       (DetectCapabilities (fun _ => None)
          (environOf [("TERM", "xterm-256color")%string]) false) = SIXEL.
Proof.
  apply (xterm_family_gets_sixel (fun _ => None)
           (environOf [("TERM", "xterm-256color")%string]) false).
  reflexivity.
Defined.

(** On the cell path (no SIXEL) the decoder is always given a usable size:
    at least 10 pixels wide and 10 high, the height twice the cell height,
    so [GetFrameChannel] never falls back to 160x90 and reads frames of
    [width * height * 3] bytes.  The terminal height is bounded so that the
    arithmetic stays inside [int]. *)
Theorem cell_path_feeds_decoder_its_size
  (caps : TerminalCapabilities) (mediaWidth mediaHeight : Z) :
  SixelSupport caps = false ->
  Width caps <= 2 ^ 20 -> Go.min_int + 2 <= Height caps <= 2 ^ 20 ->
  let s := videoGeometry caps mediaWidth mediaHeight in
  10 <= pixelWidth s /\ 10 <= pixelHeight s
  /\ pixelWidth s = optimalWidth s
  /\ pixelHeight s = 2 * optimalHeight s
  /\ outputSize (pixelWidth s) (pixelHeight s) = (pixelWidth s, pixelHeight s)
  /\ frameSize (pixelWidth s) (pixelHeight s)
     = pixelWidth s * pixelHeight s * 3.
Proof.
  intros Hsixel Hw Hh s.
  pose proof (calculateOptimalRenderSize_in_box mediaWidth mediaHeight
                (Width caps) (Height caps)) as Hbox.
  unfold s, videoGeometry. rewrite Hsixel.
  destruct (calculateOptimalRenderSize mediaWidth mediaHeight (Width caps)
              (Height caps)) as [ow oh].
  unfold inBox, maxCells in Hbox. cbn [fst snd] in Hbox.
  assert (Hmin : Go.min_int = - 2 ^ 63) by reflexivity.
  assert (Hmax : Go.max_int = 2 ^ 63 - 1) by reflexivity.
  rewrite (int_small (Height caps - 2)) in Hbox by lia.
  cbn [pixelWidth pixelHeight optimalWidth optimalHeight].
  assert (Hoh : Go.int (oh * 2) = 2 * oh) by (rewrite int_small; lia).
  rewrite Hoh.
  repeat split; try lia.
  - unfold outputSize.
    destruct (Z.leb_spec ow 0), (Z.leb_spec (2 * oh) 0); try lia. reflexivity.
  - unfold frameSize. apply int_small. nia.
Qed.

Lemma cell_path_witness :
  10 <= pixelWidth (videoGeometry (mkCapabilities false true true 80 24 true)
                      1920 1080)
  /\ 10 <= pixelHeight (videoGeometry (mkCapabilities false true true 80 24 true)
                          1920 1080).
Proof.
  pose proof (cell_path_feeds_decoder_its_size
                (mkCapabilities false true true 80 24 true) 1920 1080
                eq_refl ltac:(cbn; lia) ltac:(cbn; unfold Go.min_int; lia))
    as H.
  cbv zeta in H. split; apply H.
Defined.

End PlayerFacts.

(** ** The video path: the SIXEL sizes and the raw frames *)

Module VideoPathFacts.
Import Capability Renderers Player Geometry ByteFacts GeometryFacts.
Import SixelRenderer SixelStreamFacts.
Open Scope Z_scope.

(** On the SIXEL path, for a terminal of at least one cell each way, the
    decoder is given [Width * 10] by [Height * 19] rounded down to a
    multiple of six, at least 10 by 18, so [GetFrameChannel] keeps that
    size; the size that [Render] would resize an oversized image to, from
    the render options, never exceeds it. *)
Theorem sixel_path_sizes
  (caps : TerminalCapabilities) (mediaWidth mediaHeight : Z) :
  SixelSupport caps = true ->
  1 <= Width caps <= 2 ^ 20 -> 1 <= Height caps <= 2 ^ 20 ->
  let s := videoGeometry caps mediaWidth mediaHeight in
  pixelWidth s = Width caps * 10
  /\ pixelHeight s = Height caps * 19 / 6 * 6
  /\ 18 <= pixelHeight s
  /\ outputSize (pixelWidth s) (pixelHeight s) = (pixelWidth s, pixelHeight s)
  /\ pixelWidth s - 8 < fst (sixelResizeTarget s) <= pixelWidth s
  /\ pixelHeight s - 16 < snd (sixelResizeTarget s) <= pixelHeight s.
Proof.
  intros Hsixel Hw Hh s.
  assert (Hmin : Go.min_int = - 2 ^ 63) by reflexivity.
  assert (Hmax : Go.max_int = 2 ^ 63 - 1) by reflexivity.
  assert (Hgeo : calculateOptimalRenderSizeSixel mediaWidth mediaHeight
                   (Width caps) (Height caps)
                 = (Width caps * 10, Height caps * 19 / 6 * 6)).
  { unfold calculateOptimalRenderSizeSixel. cbv zeta.
    rewrite (int_small (Width caps * 10)) by lia.
    rewrite (int_small (Height caps * 19)) by lia.
    unfold Go.div. rewrite Z.quot_div_nonneg by lia.
    pose proof (Z.mul_div_le (Height caps * 19) 6 ltac:(lia)).
    pose proof (Z.div_pos (Height caps * 19) 6 ltac:(lia) ltac:(lia)).
    rewrite int_small by lia. reflexivity. }
  unfold s, videoGeometry. rewrite Hsixel, Hgeo.
  unfold sixelResizeTarget.
  cbn [pixelWidth pixelHeight optimalWidth optimalHeight fst snd].
  set (pw := Width caps * 10). set (ph := Height caps * 19 / 6 * 6).
  assert (Hph : 18 <= ph <= Height caps * 19).
  { unfold ph. pose proof (Z.mul_div_le (Height caps * 19) 6 ltac:(lia)).
    assert (3 <= Height caps * 19 / 6) by (apply Z.div_le_lower_bound; lia).
    lia. }
  unfold Go.div. rewrite !Z.quot_div_nonneg by lia.
  pose proof (Z.div_mod pw 8 ltac:(lia)).
  pose proof (Z.mod_pos_bound pw 8 ltac:(lia)).
  pose proof (Z.div_mod ph 16 ltac:(lia)).
  pose proof (Z.mod_pos_bound ph 16 ltac:(lia)).
  rewrite !int_small by lia.
  repeat split; try lia.
  unfold outputSize.
  destruct (Z.leb_spec pw 0), (Z.leb_spec ph 0); try lia. reflexivity.
Qed.

Lemma sixel_path_sizes_witness :
  pixelWidth (videoGeometry (mkCapabilities true true true 80 25 true) 160 90)
  = 80 * 10
  /\ pixelHeight (videoGeometry (mkCapabilities true true true 80 25 true)
                    160 90)
     = 25 * 19 / 6 * 6.
Proof.
  pose proof (sixel_path_sizes (mkCapabilities true true true 80 25 true)
                160 90 eq_refl ltac:(cbn; lia) ltac:(cbn; lia)) as H.
  cbv zeta in H. split; apply H.
Defined.

(** A terminal that reports no rows sends the SIXEL path to the decoder's
    default: the pixel height is 0, so [GetFrameChannel] decodes 160x90. *)
Example sixel_path_zero_rows :
  let s := videoGeometry (mkCapabilities true true true 80 0 true) 160 90 in
  pixelHeight s = 0
  /\ outputSize (pixelWidth s) (pixelHeight s) = (160, 90).
Proof. vm_compute. split; reflexivity. Qed.

(** Narrowing undoes the widening of an 8-bit channel. *)
Lemma high8_widen8 (c : Z) : 0 <= c < 256 -> GoImage.high8 (widen8 c) = c.
Proof.
  intros Hc. apply Z.eqb_eq.
  apply (forall_byte (fun c => GoImage.high8 (widen8 c) =? c));
    [vm_compute; reflexivity | exact Hc].
Qed.

Lemma nth_byte (data : list Z) (i : nat) :
  Forall (fun b => 0 <= b < 256) data -> 0 <= nth i data 0 < 256.
Proof.
  intros Hall. destruct (Nat.lt_ge_cases i (List.length data)) as [Hi|Hi].
  - rewrite Forall_forall in Hall. apply Hall, nth_In, Hi.
  - rewrite nth_overflow by exact Hi. lia.
Qed.

Lemma raw_frame_pixels (data : list Z) (width height x y : Z) :
  0 <= width -> 0 <= height -> width * height * 3 <= Go.max_int ->
  Forall (fun b => 0 <= b < 256) data ->
  width * height * 3 <= Z.of_nat (List.length data) ->
  0 <= x < width -> 0 <= y < height ->
  exists img,
    rawRGBToImage data width height = Some img
    /\ GoImage.minX img = 0 /\ GoImage.minY img = 0
    /\ GoImage.Dx img = width /\ GoImage.Dy img = height
    /\ (let '(rv, gv, bv) := GoImage.At img x y in
        (GoImage.high8 rv, GoImage.high8 gv, GoImage.high8 bv))
       = (nth (Z.to_nat (3 * (y * width + x))) data 0,
          nth (Z.to_nat (3 * (y * width + x) + 1)) data 0,
          nth (Z.to_nat (3 * (y * width + x) + 2)) data 0).
Proof.
  intros Hw Hh Hfit Hbytes Hlen Hx Hy.
  assert (Hmin : Go.min_int = - 2 ^ 63) by reflexivity.
  assert (Hsize : Go.int (width * height * 3) = width * height * 3).
  { apply int_small. nia. }
  unfold rawRGBToImage. cbv zeta. rewrite Hsize.
  destruct (Z.ltb_spec (Z.of_nat (List.length data)) (width * height * 3));
    [lia|].
  eexists. split; [reflexivity|].
  cbn [GoImage.minX GoImage.minY GoImage.Dx GoImage.Dy GoImage.At].
  repeat split; try lia.
  assert (Hin : (0 <=? x) && (x <? width) && (0 <=? y) && (y <? height)
                = true).
  { rewrite !andb_true_iff. repeat split; lia. }
  rewrite Hin.
  assert (Hoff : 0 <= (y * width + x) * 3
                 /\ (y * width + x) * 3 + 2 < width * height * 3) by nia.
  rewrite (int_small ((y * width + x) * 3)) by lia.
  destruct (Z.ltb_spec ((y * width + x) * 3 + 2) (Z.of_nat (List.length data)));
    [|lia].
  rewrite !high8_widen8 by (apply nth_byte, Hbytes).
  replace (3 * (y * width + x)) with ((y * width + x) * 3) by lia.
  reflexivity.
Qed.

(** [rawRGBToImage] fails exactly on a buffer shorter than
    [width * height * 3]; otherwise the guard of its loop never skips a
    pixel: the image is [width] by [height] from the origin, and the
    channels that the renderers read at (x, y) are the three bytes at
    offset [3 * (y * width + x)] of the buffer. *)
Theorem raw_frame_keeps_every_pixel
  (data : list Z) (width height x y : Z) :
  0 <= width -> 0 <= height -> width * height * 3 <= Go.max_int ->
  Forall (fun b => 0 <= b < 256) data ->
  0 <= x < width -> 0 <= y < height ->
  (Z.of_nat (List.length data) < width * height * 3 ->
   rawRGBToImage data width height = None)
  /\ (width * height * 3 <= Z.of_nat (List.length data) ->
      exists img,
        rawRGBToImage data width height = Some img
        /\ GoImage.minX img = 0 /\ GoImage.minY img = 0
        /\ GoImage.Dx img = width /\ GoImage.Dy img = height
        /\ (let '(rv, gv, bv) := GoImage.At img x y in
            (GoImage.high8 rv, GoImage.high8 gv, GoImage.high8 bv))
           = (nth (Z.to_nat (3 * (y * width + x))) data 0,
              nth (Z.to_nat (3 * (y * width + x) + 1)) data 0,
              nth (Z.to_nat (3 * (y * width + x) + 2)) data 0)).
Proof.
  intros Hw Hh Hfit Hbytes Hx Hy. split; intros Hlen.
  - assert (Hmin : Go.min_int = - 2 ^ 63) by reflexivity.
    unfold rawRGBToImage. cbv zeta. rewrite int_small by nia.
    destruct (Z.ltb_spec (Z.of_nat (List.length data)) (width * height * 3));
      [reflexivity|lia].
  - apply raw_frame_pixels; assumption.
Qed.

Lemma raw_frame_witness :
  rawRGBToImage [1; 2; 3; 4; 5] 2 1 = None.
Proof.
  apply (raw_frame_keeps_every_pixel [1; 2; 3; 4; 5] 2 1 1 0);
    try (cbn; lia); try (unfold Go.max_int; lia).
  repeat constructor; lia.
Defined.

(** From the decoder to the SIXEL stream: a raw frame of the right length
    and of at most 1200 * 800 pixels is not resized by [Render], whatever
    the render options, and the entry of the pixel buffer that [Render]
    builds for (x, y) is the palette index of the frame's own three bytes
    for that pixel.  (A larger frame is resized first, and its buffer is
    that of the resized image.) *)
Theorem raw_frame_is_quantised_from_its_bytes
  (resize : resizer) (optWidth optHeight : Z)
  (data : list Z) (width height x y : Z) :
  0 <= width -> 0 <= height -> width * height <= maxPixels ->
  Forall (fun b => 0 <= b < 256) data ->
  width * height * 3 <= Z.of_nat (List.length data) ->
  0 <= x < width -> 0 <= y < height ->
  exists img,
    rawRGBToImage data width height = Some img
    /\ renderImage resize img optWidth optHeight = img
    /\ nth (Z.to_nat (y * width + x))
         (renderPixels (renderImage resize img optWidth optHeight)) 0
       = colorToPalette (nth (Z.to_nat (3 * (y * width + x))) data 0)
           (nth (Z.to_nat (3 * (y * width + x) + 1)) data 0)
           (nth (Z.to_nat (3 * (y * width + x) + 2)) data 0).
Proof.
  intros Hw Hh Hsmall Hbytes Hlen Hx Hy.
  assert (Hmax : maxPixels = 960000) by reflexivity.
  assert (Hfit : width * height * 3 <= Go.max_int)
    by (unfold Go.max_int; lia).
  destruct (raw_frame_pixels data width height x y Hw Hh Hfit Hbytes Hlen
              Hx Hy) as [img [Himg [Hmx [Hmy [Hdx [Hdy Hat]]]]]].
  exists img. split; [exact Himg|].
  assert (Hkeep : renderImage resize img optWidth optHeight = img).
  { unfold renderImage. rewrite Hdx, Hdy.
    rewrite GeometryFacts.int_small
      by (unfold Go.min_int, Go.max_int; nia).
    destruct (Z.ltb_spec maxPixels (width * height)); [lia|reflexivity]. }
  split; [exact Hkeep|]. rewrite Hkeep.
  destruct (height6_spec height Hh) as [H6 _].
  pose proof (renderPixels_nth img x y) as Hnth.
  rewrite Hdx, Hdy, Hmx, Hmy in Hnth. specialize (Hnth Hx ltac:(lia)).
  rewrite Hnth. destruct (Z.ltb_spec y height); [|lia].
  cbn [Z.add] in *.
  destruct (GoImage.At img x y) as [[rv gv] bv].
  injection Hat as -> -> ->. reflexivity.
Qed.

Lemma raw_frame_is_quantised_witness :
  exists img,
    rawRGBToImage [255; 0; 0; 0; 255; 0] 2 1 = Some img
    /\ renderImage (fun _ _ scaled => scaled) img 80 24 = img
    /\ nth (Z.to_nat (0 * 2 + 1))
         (renderPixels (renderImage (fun _ _ scaled => scaled) img 80 24)) 0
       = colorToPalette (nth (Z.to_nat (3 * (0 * 2 + 1))) [255; 0; 0; 0; 255; 0] 0)
           (nth (Z.to_nat (3 * (0 * 2 + 1) + 1)) [255; 0; 0; 0; 255; 0] 0)
           (nth (Z.to_nat (3 * (0 * 2 + 1) + 2)) [255; 0; 0; 0; 255; 0] 0).
Proof.
  apply (raw_frame_is_quantised_from_its_bytes (fun _ _ scaled => scaled) 80 24
           [255; 0; 0; 0; 255; 0] 2 1 1 0);
    try (cbn; lia); try (unfold maxPixels; lia).
  repeat constructor; lia.
Defined.

End VideoPathFacts.

(** ** The half-block renderer *)

Module UnicodeRendererFacts.
Import SixelRenderer UnicodeRenderer ByteFacts RunLengthFacts.
Open Scope Z_scope.

Lemma columns_succ (n : Z) :
  0 <= n -> columns (n + 1) = 0 :: map (Z.add 1) (columns n).
Proof.
  intros Hn. unfold columns.
  replace (Z.to_nat (n + 1)) with (S (Z.to_nat n)) by lia.
  cbn [seq map]. f_equal.
  rewrite <- seq_shift, !map_map.
  apply map_ext. intros k. lia.
Qed.

Lemma columns_nonpositive (n : Z) : n <= 0 -> columns n = [].
Proof.
  intros Hn. unfold columns.
  replace (Z.to_nat n) with O by lia. reflexivity.
Qed.

Lemma flat_map_map {A B C : Type} (f : B -> list C) (g : A -> B)
  (l : list A) :
  flat_map f (map g l) = flat_map (fun x => f (g x)) l.
Proof.
  induction l as [|a l IH]; [reflexivity|].
  cbn [map flat_map]. rewrite IH. reflexivity.
Qed.

(** The row loop visits the rows [minY], [minY + 2], ... below [maxY]. *)
Lemma rowsFrom_rows (img : GoImage.image) (fuel : nat) :
  forall y,
    GoImage.minY img + GoImage.Dy img - y <= Z.of_nat fuel ->
    rowsFrom fuel img y
    = flat_map (fun j => renderRow img (y + 2 * j))
        (columns ((GoImage.minY img + GoImage.Dy img - y + 1) / 2)).
Proof.
  induction fuel as [|fuel IH]; intros y Hfuel.
  - cbn [rowsFrom]. rewrite columns_nonpositive; [reflexivity|].
    apply Z.lt_succ_r. apply Z.div_lt_upper_bound; lia.
  - cbn [rowsFrom].
    destruct (Z.ltb_spec y (GoImage.minY img + GoImage.Dy img)) as [Hlt|Hge].
    + rewrite IH by lia.
      replace ((GoImage.minY img + GoImage.Dy img - y + 1) / 2)
        with ((GoImage.minY img + GoImage.Dy img - (y + 2) + 1) / 2 + 1).
      2:{ rewrite <- (Z.div_add _ 1 2) by lia. f_equal. lia. }
      rewrite columns_succ.
      2:{ apply Z.div_pos; lia. }
      cbn [flat_map]. rewrite Z.mul_0_r, Z.add_0_r. f_equal.
      rewrite flat_map_map.
      apply flat_map_ext. intros j. f_equal. lia.
    + rewrite columns_nonpositive; [reflexivity|].
      apply Z.lt_succ_r. apply Z.div_lt_upper_bound; lia.
Qed.

Lemma count_digits (b : Z) (ds : list Z) :
  Forall (fun d => isDigit d = true) ds -> isDigit b = false ->
  count_occ Z.eq_dec ds b = O.
Proof.
  intros Hds Hb. apply count_occ_not_In. intros Hin.
  rewrite Forall_forall in Hds. specialize (Hds b Hin). congruence.
Qed.

Lemma count_formatInt (b n : Z) :
  0 <= n -> isDigit b = false -> count_occ Z.eq_dec (formatInt n) b = O.
Proof.
  intros Hn Hb. apply count_digits; [|exact Hb].
  apply (formatInt_sound n Hn).
Qed.

Lemma colorToRGB_bytes (c : GoImage.color16) :
  let '(r, g, b) := colorToRGB c in 0 <= r /\ 0 <= g /\ 0 <= b.
Proof.
  destruct c as [[r g] b]. cbn [colorToRGB]. unfold GoImage.high8.
  pose proof (uint8_range (Z.shiftr r 8)).
  pose proof (uint8_range (Z.shiftr g 8)).
  pose proof (uint8_range (Z.shiftr b 8)). lia.
Qed.

(** A cell holds no line feed and one half block. *)
Lemma count_cell (img : GoImage.image) (x y : Z) :
  let '(top, bottom) := cellColors img x y in
  count_occ Z.eq_dec (cellBytes top bottom) 10 = O
  /\ count_occ Z.eq_dec (cellBytes top bottom) 226 = 1%nat.
Proof.
  unfold cellColors. cbv zeta.
  pose proof (colorToRGB_bytes (GoImage.At img x y)) as Ht.
  pose proof (colorToRGB_bytes
                (if y + 1 <? GoImage.minY img + GoImage.Dy img
                 then GoImage.At img x (y + 1) else (0, 0, 0))) as Hb.
  destruct (colorToRGB (GoImage.At img x y)) as [[tr tg] tb].
  destruct (colorToRGB _) as [[br bg] bb].
  unfold cellBytes.
  split; rewrite !count_occ_app, !count_formatInt by (try lia; reflexivity);
    reflexivity.
Qed.

Lemma count_row (img : GoImage.image) (y : Z) :
  count_occ Z.eq_dec (renderRow img y) 10 = 1%nat
  /\ count_occ Z.eq_dec (renderRow img y) 226
     = Z.to_nat (GoImage.Dx img).
Proof.
  unfold renderRow. rewrite !count_occ_app.
  assert (Hcells : forall l,
            count_occ Z.eq_dec
              (flat_map
                 (fun k =>
                    let '(top, bottom) :=
                      cellColors img (GoImage.minX img + k) y in
                    cellBytes top bottom) l) 10 = O
            /\ count_occ Z.eq_dec
                 (flat_map
                    (fun k =>
                       let '(top, bottom) :=
                         cellColors img (GoImage.minX img + k) y in
                       cellBytes top bottom) l) 226 = List.length l).
  { induction l as [|k l [IH1 IH2]]; [split; reflexivity|].
    cbn [flat_map List.length]. rewrite !count_occ_app, IH1, IH2.
    pose proof (count_cell img (GoImage.minX img + k) y) as Hc.
    destruct (cellColors img (GoImage.minX img + k) y) as [top bottom].
    destruct Hc as [-> ->]. split; reflexivity. }
  destruct (Hcells (columns (GoImage.Dx img))) as [-> ->].
  unfold columns. rewrite length_map, length_seq.
  split; [reflexivity|]. cbn. lia.
Qed.

(** [renderTrueColorUnicode] writes one line for each pair of pixel rows,
    the last pair completed with black when the height is odd: for an
    image of [Dx] by [Dy] pixels the output holds [(Dy + 1) / 2] line feeds
    and [Dx] half blocks per line.  For the image of [Render], resized to
    [Width] by [2 * Height], these are [Height] lines of [Width] cells. *)
Theorem half_block_output_has_one_line_per_row_pair (img : GoImage.image) :
  0 <= GoImage.Dy img ->
  let rows := (GoImage.Dy img + 1) / 2 in
  renderTrueColorUnicode img
  = flat_map (fun j => renderRow img (GoImage.minY img + 2 * j)) (columns rows)
  /\ lineFeeds (renderTrueColorUnicode img) = Z.to_nat rows
  /\ count_occ Z.eq_dec (renderTrueColorUnicode img) 226
     = (Z.to_nat rows * Z.to_nat (GoImage.Dx img))%nat.
Proof.
  intros Hdy rows.
  assert (Hrows : renderTrueColorUnicode img
                  = flat_map (fun j => renderRow img (GoImage.minY img + 2 * j))
                      (columns rows)).
  { unfold renderTrueColorUnicode. rewrite rowsFrom_rows by lia.
    unfold rows.
    replace (GoImage.minY img + GoImage.Dy img - GoImage.minY img + 1)
      with (GoImage.Dy img + 1) by lia.
    reflexivity. }
  split; [exact Hrows|].
  unfold lineFeeds. rewrite Hrows.
  assert (Hcount : forall l,
            count_occ Z.eq_dec
              (flat_map (fun j => renderRow img (GoImage.minY img + 2 * j)) l)
              10 = List.length l
            /\ count_occ Z.eq_dec
                 (flat_map (fun j => renderRow img (GoImage.minY img + 2 * j)) l)
                 226 = (List.length l * Z.to_nat (GoImage.Dx img))%nat).
  { induction l as [|j l [IH1 IH2]]; [split; reflexivity|].
    cbn [flat_map List.length]. rewrite !count_occ_app, IH1, IH2.
    destruct (count_row img (GoImage.minY img + 2 * j)) as [-> ->].
    split; [reflexivity|]. cbn [Nat.mul]. reflexivity. }
  destruct (Hcount (columns rows)) as [-> ->].
  unfold columns. rewrite length_map, length_seq. split; reflexivity.
Qed.

Lemma half_block_witness :
  lineFeeds
    (renderTrueColorUnicode
       (GoImage.mkImage 0 0 2 3 (fun _ _ => (65535, 0, 0))))
  = Z.to_nat ((3 + 1) / 2).
Proof.
  apply (half_block_output_has_one_line_per_row_pair
           (GoImage.mkImage 0 0 2 3 (fun _ _ => (65535, 0, 0)))).
  cbn. lia.
Defined.

End UnicodeRendererFacts.

(** ** The image-sequence decoder *)

Module GIFDecoderFacts.
Import SixelRenderer GIFDecoder.
Open Scope Z_scope.

Lemma columns_snoc (n : Z) : 0 <= n -> columns (n + 1) = columns n ++ [n].
Proof.
  intros Hn. unfold columns.
  replace (Z.to_nat (n + 1)) with (S (Z.to_nat n)) by lia.
  rewrite seq_S, map_app. cbn [map Nat.add]. f_equal. f_equal. lia.
Qed.

(** [GetFrame] fails exactly outside [0, imageCount); inside, the frames
    follow one another without gap: a frame starts where the frame before
    it ends, at that frame's timestamp plus its duration, and the first
    frame starts at 0. *)
Theorem gif_frames_are_contiguous (g : GIF) (k i : Z) :
  0 <= k -> k + 1 < imageCount g -> k < Z.of_nat (List.length (Delay g)) ->
  (GetFrame g i = None <-> (i < 0 \/ imageCount g <= i))
  /\ (exists t d t' d',
        GetFrame g k = Some (t, d)
        /\ GetFrame g (k + 1) = Some (t', d')
        /\ t' = (t + d)%float)
  /\ timestampOf g 0 = 0%float.
Proof.
  intros Hk Hnext Hdelay. split; [|split].
  - unfold GetFrame.
    destruct (Z.ltb_spec i 0), (Z.leb_spec (imageCount g) i); cbn [orb];
      split; intros Hi; try reflexivity; try discriminate; lia.
  - unfold GetFrame.
    destruct (Z.ltb_spec k 0); [lia|].
    destruct (Z.leb_spec (imageCount g) k); [lia|].
    destruct (Z.ltb_spec (k + 1) 0); [lia|].
    destruct (Z.leb_spec (imageCount g) (k + 1)); [lia|].
    cbn [orb].
    destruct (Z.ltb_spec k (Z.of_nat (List.length (Delay g)))) as [_|]; [|lia].
    do 4 eexists. split; [reflexivity|]. split; [reflexivity|].
    unfold timestampOf. rewrite columns_snoc by exact Hk.
    rewrite fold_left_app. cbn [fold_left].
    destruct (Z.ltb_spec k (Z.of_nat (List.length (Delay g)))); [|lia].
    reflexivity.
  - reflexivity.
Qed.

Lemma gif_frames_are_contiguous_witness :
  exists t d t' d',
    GetFrame (mkGIF 2 [50; 100]) 0 = Some (t, d)
    /\ GetFrame (mkGIF 2 [50; 100]) (0 + 1) = Some (t', d')
    /\ t' = (t + d)%float.
Proof.
  apply (gif_frames_are_contiguous (mkGIF 2 [50; 100]) 0 0); cbn; lia.
Defined.

Lemma in_delaysFrom (n : nat) : forall lo d,
  lo <= d < lo + Z.of_nat n -> In d (delaysFrom lo n).
Proof.
  induction n as [|n IH]; intros lo d Hd; [lia|].
  cbn [delaysFrom]. destruct (Z.eq_dec lo d) as [->|Hne].
  - left. reflexivity.
  - right. apply IH. lia.
Qed.

(** The pause after a frame: a frame without delay waits 100 ms, and a
    frame with a delay of [d] hundredths ([d] on the 16 bits of the format)
    waits [d] times 10 ms, less at most one nanosecond that the float
    product loses; the nanosecond is lost at [d = 201]. *)
Theorem gif_pause_follows_the_delay (d : Z) :
  0 <= d < 65536 ->
  (d = 0 -> sleepAfter (Go.float64 d / 100)%float = 100000000)
  /\ (1 <= d ->
      d * 10000000 - 1 <= sleepAfter (Go.float64 d / 100)%float
      <= d * 10000000)
  /\ sleepAfter (Go.float64 201 / 100)%float = 201 * 10000000 - 1.
Proof.
  intros Hd.
  assert (Hall : forallb
            (fun d =>
               if d =? 0
               then sleepAfter (Go.float64 d / 100)%float =? 100000000
               else (d * 10000000 - 1 <=? sleepAfter (Go.float64 d / 100)%float)
                    && (sleepAfter (Go.float64 d / 100)%float <=? d * 10000000))
            delays16 = true) by (vm_compute; reflexivity).
  rewrite forallb_forall in Hall.
  assert (Hin : In d delays16) by (apply in_delaysFrom; lia).
  specialize (Hall d Hin). cbv beta in Hall.
  split; [|split].
  - intros H0. destruct (Z.eqb_spec d 0); [|lia].
    apply Z.eqb_eq. exact Hall.
  - intros H1. destruct (Z.eqb_spec d 0); [lia|].
    apply andb_true_iff in Hall. destruct Hall as [Hlo Hhi].
    apply Z.leb_le in Hlo. apply Z.leb_le in Hhi. lia.
  - vm_compute. reflexivity.
Qed.

Lemma gif_pause_follows_the_delay_witness :
  3 * 10000000 - 1 <= sleepAfter (Go.float64 3 / 100)%float
  <= 3 * 10000000.
Proof.
  apply (gif_pause_follows_the_delay 3); lia.
Defined.

End GIFDecoderFacts.

(** ** Rounding in binary64 *)

Module Binary64Facts.


















End Binary64Facts.

(** ** The rounding error, on real numbers *)

Module Binary64RealFacts.
Import Rbase Rfunctions Lra Binary64 Binary64Facts.
Open Scope R_scope.









End Binary64RealFacts.

Module Binary64ResultFacts.
Import Rbase Rfunctions Lra Binary64 Binary64Facts Binary64RealFacts.
Open Scope R_scope.





End Binary64ResultFacts.

(** ** The conversion to [int] *)

Module Binary64IntFacts.
Import Rbase Rfunctions Lra Binary64 Binary64Facts Binary64RealFacts Binary64ResultFacts.
Open Scope R_scope.






End Binary64IntFacts.

(** ** The arithmetic of the error bounds *)

Module RoundingArithmetic.
Import Rbase Rfunctions Lra.
Open Scope R_scope.

(** The arithmetic of the error bounds, on real numbers; [eps] is
    [2 ^ -52]. *)





End RoundingArithmetic.

(** ** The two fits of the geometry calculation *)

Module FitFacts.
Import Rbase Rfunctions Lra Binary64 Binary64Facts Binary64RealFacts Binary64ResultFacts
  Binary64IntFacts RoundingArithmetic Geometry.
Open Scope R_scope.












End FitFacts.

(** ** The geometry calculation applied to its own result *)

Module StabilityFacts.
Import Rbase Rfunctions Lra Binary64 Binary64Facts Binary64RealFacts Binary64ResultFacts
  Binary64IntFacts RoundingArithmetic Geometry FitFacts GeometryFacts.
Open Scope Z_scope.











End StabilityFacts.
